(** * Analysis.ipynb: the scanpy example workflow

    A shallow embedding of the notebook [Analysis.ipynb]: its three
    functions [LoadData], [BasicFiltering] and [Clustering] and the code
    cells that call them, over a model of the annotated matrix they pass
    around.

    Conventions.
    - Matrix entries and thresholds are exact rationals ([Q]); the
      notebook computes in floating point, of which only the special
      values of a division by zero are kept ([Inf], [NaN]).
    - An annotated matrix is stored row by row: each cell carries its
      barcode, its row of [obs] and its row of [X], so the alignment of
      [X] and [obs] that the AnnData class maintains holds by
      construction.  The genes are the list [var], position [j] of which
      describes entry [j] of every row.
    - Exceptions are values of [error], threaded through [result].
    - Printing ([print]) changes no data, cannot raise and is left out.
      Plotting calls ([sc.pl.*]) change no data but can raise, so each is
      a step of the function that calls it; [BasicFiltering_qc] and
      [BasicFiltering_normalize] are the computations on the matrix
      between the plots. *)

From Stdlib Require Import QArith Lqa String Ascii DecimalString DecimalNat.
From stdpp Require Import base option list list_monad gmap strings.

Local Open Scope string_scope.
Local Open Scope nat_scope.
Local Open Scope list_scope.

(** ** Exceptions *)

Inductive error : Type :=
  | NameError (name : string)
  | AttributeError (name : string)
  | KeyError (key : string)
  | TypeError
  | FileFormatError (path : string)
  | LibraryError (what : string).

Inductive result (A : Type) : Type :=
  | Ok (a : A)
  | Err (e : error).
Arguments Ok {A} a.
Arguments Err {A} e.

#[global] Instance error_eq_dec : EqDecision error.
Proof. solve_decision. Defined.
#[global] Instance result_eq_dec {A} `{EqDecision A} : EqDecision (result A).
Proof. solve_decision. Defined.

#[global] Instance result_ret : MRet result := λ A a, Ok a.
#[global] Instance result_bind : MBind result := λ A B f m,
  match m with Ok a => f a | Err e => Err e end.
#[global] Instance result_fmap : FMap result := λ A B f m,
  match m with Ok a => Ok (f a) | Err e => Err e end.

Definition or_raise {A} (e : error) (o : option A) : result A :=
  match o with Some a => Ok a | None => Err e end.

(** ** Values of a data-frame column *)

Inductive value : Type :=
  | Num (q : Q)
  | Inf (negative : bool)
  | NaN
  | Str (s : string)
  | Bool (b : bool).

Definition Qlt_bool (x y : Q) : bool :=
  (Qnum x * QDen y <? Qnum y * QDen x)%Z.

Definition of_count (n : nat) : Q := inject_Z (Z.of_nat n).

(** [a / b] on floats: a division by zero gives an infinity or [NaN]. *)
Definition float_div (a b : Q) : value :=
  if Qeq_bool b 0 then
    (if Qeq_bool a 0 then NaN else Inf (Qlt_bool a 0))
  else Num (a / b).

(** [v * k] for a positive constant [k]. *)
Definition float_scale (v : value) (k : Q) : value :=
  match v with
  | Num q => Num (q * k)
  | Bool b => Num ((if b then 1 else 0) * k)
  | other => other
  end.

(** [1 - v]. *)
Definition float_one_minus (v : value) : value :=
  match v with
  | Num q => Num (1 - q)
  | Bool b => Num (1 - (if b then 1 else 0))
  | Inf s => Inf (negb s)
  | other => other
  end.

(** [v < q] and [v > q] for one element of a numeric column: comparisons
    with [NaN] are false, a string raises [TypeError]. *)
Definition value_lt (v : value) (q : Q) : result bool :=
  match v with
  | Num x => Ok (Qlt_bool x q)
  | Inf s => Ok s
  | NaN => Ok false
  | Bool b => Ok (Qlt_bool (if b then 1 else 0) q)
  | Str _ => Err TypeError
  end.

Definition value_gt (v : value) (q : Q) : result bool :=
  match v with
  | Num x => Ok (Qlt_bool q x)
  | Inf s => Ok (negb s)
  | NaN => Ok false
  | Bool b => Ok (Qlt_bool q (if b then 1 else 0))
  | Str _ => Err TypeError
  end.

Definition value_bool (v : value) : result bool :=
  match v with
  | Bool b => Ok b
  | _ => Err TypeError
  end.

(** ** The annotated matrix *)

Record Cell : Type := mkCell {
  barcode : string;              (* label in [obs_names] *)
  annot : gmap string value;     (* the cell's row of [obs] *)
  counts : list Q                (* the cell's row of [X] *)
}.

Record Gene : Type := mkGene {
  symbol : string;               (* label in [var_names] *)
  gannot : gmap string value     (* the gene's row of [var] *)
}.

Record AnnData : Type := mkAnnData {
  obs : list Cell;
  var : list Gene
}.

Definition n_obs (adata : AnnData) : nat := length (obs adata).
Definition n_vars (adata : AnnData) : nat := length (var adata).
Definition obs_names (adata : AnnData) : list string := barcode <$> obs adata.
Definition var_names (adata : AnnData) : list string := symbol <$> var adata.
Definition X (adata : AnnData) : list (list Q) := counts <$> obs adata.

Definition set_annot (col : string) (v : value) (c : Cell) : Cell :=
  {| barcode := barcode c; annot := <[col := v]> (annot c); counts := counts c |}.

Definition set_counts (row : list Q) (c : Cell) : Cell :=
  {| barcode := barcode c; annot := annot c; counts := row |}.

Definition set_gannot (col : string) (v : value) (g : Gene) : Gene :=
  {| symbol := symbol g; gannot := <[col := v]> (gannot g) |}.

(** [adata.obs[col] = v] with a scalar [v]: the column is set in every
    row. *)
Definition set_obs_scalar (col : string) (v : value) (adata : AnnData) : AnnData :=
  {| obs := set_annot col v <$> obs adata; var := var adata |}.

(** [adata.var[col] = f(adata.var_names)] for an element-wise [f]. *)
Definition set_var_by_name (col : string) (f : string → value) (adata : AnnData) : AnnData :=
  {| obs := obs adata;
     var := (λ g, set_gannot col (f (symbol g)) g) <$> var adata |}.

(** ** Boolean-mask indexing *)

(** [l[mask]]: the elements of [l] at the positions where [mask] is true.
    Every mask below is computed from the axis it indexes and has its
    length. *)
Fixpoint filter_mask {A} (mask : list bool) (l : list A) : list A :=
  match mask, l with
  | b :: mask', x :: l' =>
      if b then x :: filter_mask mask' l' else filter_mask mask' l'
  | _, _ => []
  end.

(** [adata[mask, :]] *)
Definition subset_obs (mask : list bool) (adata : AnnData) : AnnData :=
  {| obs := filter_mask mask (obs adata); var := var adata |}.

(** [adata[:, mask]] *)
Definition subset_var (mask : list bool) (adata : AnnData) : AnnData :=
  {| obs := (λ c, set_counts (filter_mask mask (counts c)) c) <$> obs adata;
     var := filter_mask mask (var adata) |}.

(** [adata.obs.col]: a column of [obs]; the attribute does not exist
    unless every row has it.  The rows carry the columns, so on a matrix
    without cells there is no record of which columns exist and the
    empty column is returned, where pandas raises for a column that was
    never written; the properties that depend on a missing column are
    stated for matrices with cells. *)
Definition obs_column (col : string) (adata : AnnData) : result (list value) :=
  mapM (λ c, or_raise (AttributeError col) (annot c !! col)) (obs adata).

(** [adata.var[col].values] as a boolean array. *)
Definition var_flags (col : string) (adata : AnnData) : result (list bool) :=
  mapM (λ g, v ← or_raise (KeyError col) (gannot g !! col); value_bool v) (var adata).

Definition series_lt (s : list value) (q : Q) : result (list bool) :=
  mapM (λ v, value_lt v q) s.

Definition series_gt (s : list value) (q : Q) : result (list bool) :=
  mapM (λ v, value_gt v q) s.

(** [adata[adata.obs.col < q, :]] and [adata[adata.obs.col > q, :]] *)
Definition keep_obs_lt (col : string) (q : Q) (adata : AnnData) : result AnnData :=
  s ← obs_column col adata;
  mask ← series_lt s q;
  mret (subset_obs mask adata).

Definition keep_obs_gt (col : string) (q : Q) (adata : AnnData) : result AnnData :=
  s ← obs_column col adata;
  mask ← series_gt s q;
  mret (subset_obs mask adata).

(** ** Row and column statistics of [X] *)

Definition Qsum (l : list Q) : Q := foldr Qplus 0%Q l.

Definition expressed (x : Q) : bool := Qlt_bool 0 x.      (* [x > 0] *)
Definition nonzero (x : Q) : bool := negb (Qeq_bool x 0). (* [x != 0] *)

Definition entry (j : nat) (c : Cell) : Q := nth j (counts c) 0%Q.

Definition column (j : nat) (adata : AnnData) : list Q :=
  entry j <$> obs adata.

Definition count_if (p : Q → bool) (l : list Q) : nat := length (filter p l).

(** ** The preprocessing calls of [BasicFiltering] *)

(** Modelled from the spec: [sc.pp.filter_genes(adata, min_cells=k)] is
    library code and not part of the notebook.  "Drop genes expressed in
    fewer than a configured minimum number of cells": the number of cells
    with a positive entry is stored in [var['n_cells']] and the genes
    with at least [min_cells] such cells are kept. *)
Definition filter_genes (min_cells : nat) (adata : AnnData) : AnnData :=
  let number_per_gene :=
    (λ j, count_if expressed (column j adata)) <$> seq 0 (n_vars adata) in
  let gene_subset := (λ n, bool_decide (min_cells ≤ n)) <$> number_per_gene in
  let adata :=
    {| obs := obs adata;
       var := zip_with (λ g n, set_gannot "n_cells" (Num (of_count n)) g)
                       (var adata) number_per_gene |} in
  subset_var gene_subset adata.

(** Modelled from the spec: [sc.pp.filter_cells(adata, min_genes=k)] is
    library code.  "Drop cells expressing fewer than a configured minimum
    number of genes": the number of positive entries of a row is stored
    in [obs['n_genes']] and the cells with at least [min_genes] of them
    are kept. *)
Definition filter_cells (min_genes : nat) (adata : AnnData) : AnnData :=
  let number_per_cell := (λ c, count_if expressed (counts c)) <$> obs adata in
  let cell_subset := (λ n, bool_decide (min_genes ≤ n)) <$> number_per_cell in
  let adata :=
    {| obs := zip_with (λ c n, set_annot "n_genes" (Num (of_count n)) c)
                       (obs adata) number_per_cell;
       var := var adata |} in
  subset_obs cell_subset adata.

(** The per-cell columns that [calculate_qc_metrics] writes for one
    variable of [qc_vars], given that variable's boolean column. *)
Definition qc_var_metrics (qc_var : string) (flags : list bool) (c : Cell) : Cell :=
  let total := Qsum (counts c) in
  let total_qc := Qsum (filter_mask flags (counts c)) in
  set_annot ("pct_counts_" +:+ qc_var) (float_scale (float_div total_qc total) 100)
    (set_annot ("total_counts_" +:+ qc_var) (Num total_qc) c).

Definition describe_obs (qc : list (string * list bool)) (c : Cell) : Cell :=
  let c := set_annot "n_genes_by_counts" (Num (of_count (count_if nonzero (counts c)))) c in
  let c := set_annot "total_counts" (Num (Qsum (counts c))) c in
  foldl (λ c '(qc_var, flags), qc_var_metrics qc_var flags c) c qc.

Definition describe_var (adata : AnnData) (j : nat) (g : Gene) : Gene :=
  let col := column j adata in
  let n_cells := of_count (count_if nonzero col) in
  let rows := of_count (n_obs adata) in
  let g := set_gannot "n_cells_by_counts" (Num n_cells) g in
  let g := set_gannot "mean_counts" (float_div (Qsum col) rows) g in
  let g := set_gannot "pct_dropout_by_counts"
             (float_scale (float_one_minus (float_div n_cells rows)) 100) g in
  set_gannot "total_counts" (Num (Qsum col)) g.

(** Modelled from the spec: [sc.pp.calculate_qc_metrics(adata,
    qc_vars=..., percent_top=None, inplace=True, log1p=False)] is library
    code.  "Compute per-cell QC scalars: total gene count, total UMI
    count, % counts from genes matching" each variable of [qc_vars]; the
    per-gene statistics are written to [var].  A variable of [qc_vars]
    that is no boolean column of [var] raises. *)
Definition calculate_qc_metrics (qc_vars : list string) (adata : AnnData) : result AnnData :=
  qc ← mapM (λ v, flags ← var_flags v adata; mret (v, flags)) qc_vars;
  mret {| obs := describe_obs qc <$> obs adata;
          var := imap (describe_var adata) (var adata) |}.

(** Modelled from the spec: [sc.pp.normalize_per_cell(adata,
    counts_per_cell_after=t)] is library code.  "Per-cell count
    normalization to a fixed total": the row sums are stored in
    [obs['n_counts']], cells whose sum is below the library's
    [min_counts=1] are dropped, and every remaining row is divided by
    its sum over [t] (a zero sum counting as one). *)
Definition normalize_per_cell (counts_per_cell_after : Q) (adata : AnnData) : AnnData :=
  let min_counts := 1%Q in
  let normalize (c : Cell) : Cell :=
    let n := Qsum (counts c) in
    let n' := if Qeq_bool n 0 then (n + 1)%Q else n in
    let counts_per_cell := (n' / counts_per_cell_after)%Q in
    set_counts ((λ x, x / counts_per_cell)%Q <$> counts c)
               (set_annot "n_counts" (Num n) c) in
  let cell_subset := (λ c, Qle_bool min_counts (Qsum (counts c))) <$> obs adata in
  {| obs := normalize <$> filter_mask cell_subset (obs adata);
     var := var adata |}.

(** [names.str.startswith(prefixes)] for one name. *)
Definition startswith (prefixes : list string) (name : string) : value :=
  Bool (existsb (λ p, String.prefix p name) prefixes).

(** ** Index operations *)

(** [str(n)] *)
Definition str (n : nat) : string := NilEmpty.string_of_uint (Nat.to_uint n).

(** [v + join + str(k)] with the default [join='-'] *)
Definition suffixed (v : string) (k : nat) : string := v +:+ "-" +:+ str k.

(** The search for an unused name: count up from [k] until the suffixed
    name is not among [values_set].  The loop is bounded by [fuel]; more
    steps than [values_set] has elements are never needed
    ([next_free_total]). *)
Fixpoint next_free (fuel : nat) (v : string) (values_set : gset string) (k : nat)
    : option (string * nat) :=
  match fuel with
  | 0 => None
  | S fuel =>
      let k := S k in
      let tentative_new_name := suffixed v k in
      if decide (tentative_new_name ∈ values_set)
      then next_free fuel v values_set k
      else Some (tentative_new_name, k)
  end.

Fixpoint make_unique_from (index : list string) (first_seen values_set : gset string)
    (counter : gmap string nat) : option (list string) :=
  match index with
  | [] => Some []
  | v :: index =>
      if decide (v ∈ first_seen) then
        '(name, k) ← next_free (S (size values_set)) v values_set (default 0 (counter !! v));
        rest ← make_unique_from index first_seen ({[name]} ∪ values_set) (<[v := k]> counter);
        Some (name :: rest)
      else
        rest ← make_unique_from index ({[v]} ∪ first_seen) values_set counter;
        Some (v :: rest)
  end.

(** Modelled from the spec: anndata's [make_index_unique], behind
    [adata.var_names_make_unique()], is library code.  "Gene symbols must
    be deduplicated (suffix-disambiguated)": the first occurrence of a
    symbol is kept, every later one gets the suffix [-1], [-2], ...,
    counted per symbol and skipping names already in use. *)
Definition make_index_unique (index : list string) : option (list string) :=
  make_unique_from index ∅ (list_to_set index) ∅.

Definition rename_gene (g : Gene) (name : string) : Gene :=
  {| symbol := name; gannot := gannot g |}.

Definition var_names_make_unique (adata : AnnData) : result AnnData :=
  names ← or_raise (LibraryError "make_index_unique") (make_index_unique (var_names adata));
  mret {| obs := obs adata; var := zip_with rename_gene (var adata) names |}.

(** [Index.unique()]: the first occurrence of every label, in order. *)
Fixpoint unique (l : list string) : list string :=
  match l with
  | [] => []
  | x :: l => x :: filter (λ y, y ≠ x) (unique l)
  end.

(** Modelled from the spec: pandas' [Index.intersection] is library
    code.  "Keep only shared genes, in deterministic order": the labels
    of [self] that occur in [other], each once, in the order of [self]. *)
Definition intersection (self other : list string) : list string :=
  filter (λ x, x ∈ other) (unique self).

(** [adata[:, names]]: the columns with the given labels, in the order
    given; a label that is no gene of [adata] raises [KeyError].  A
    label is looked up among unique gene symbols, as [LoadData] leaves
    them: with a symbol that occurs twice the library refuses the
    lookup, and the properties below assume [NoDup (var_names adata)]. *)
Definition select_var (names : list string) (adata : AnnData) : result AnnData :=
  picked ← mapM (λ name, or_raise (KeyError name)
                           (list_find (λ g, symbol g = name) (var adata))) names;
  mret {| obs := (λ c, set_counts ((λ p : nat * Gene, entry p.1 c) <$> picked) c) <$> obs adata;
          var := snd <$> picked |}.

(** The columns of a data frame whose rows are [rows]. *)
Definition frame_columns (rows : list (gmap string value)) : gset string :=
  ⋃ (dom <$> rows).

Definition suffix_columns (batch : string) (m : gmap string value) : gmap string value :=
  map_fold (λ k v acc, <[k +:+ "-" +:+ batch := v]> acc) ∅ m.

(** A cell of operand number [batch] in the concatenated matrix. *)
Definition tag_batch (columns : gset string) (batch : string) (c : Cell) : Cell :=
  {| barcode := barcode c +:+ "-" +:+ batch;
     annot := <["batch" := Str batch]> (annot c ∪ gset_to_gmap NaN columns);
     counts := counts c |}.

Definition merge_var (g h : Gene) : Gene :=
  {| symbol := symbol g;
     gannot := suffix_columns "0" (gannot g) ∪ suffix_columns "1" (gannot h) |}.

(** Modelled from the spec: [AnnData.concatenate] is library code.
    "Concatenate matrices along the cell axis, tagging each cell with its
    originating sample label", on the genes the two share (the default
    [join='inner']): the cells of [self] come first, the column
    [obs['batch']] says which operand a cell is from, the barcodes get
    the batch as a suffix, an [obs] column that one operand lacks is
    filled with [NaN], and the [var] columns are kept per batch. *)
Definition concatenate (self other : AnnData) : result AnnData :=
  let shared := intersection (var_names self) (var_names other) in
  a ← select_var shared self;
  b ← select_var shared other;
  let columns := frame_columns (annot <$> (obs a ++ obs b)) in
  mret {| obs := (tag_batch columns "0" <$> obs a) ++ (tag_batch columns "1" <$> obs b);
          var := zip_with merge_var (var a) (var b) |}.

(** ** The numerical and plotting routines

    The notebook delegates file parsing, all numerics (logarithm,
    variable-gene selection, regression, scaling, PCA, the neighbour
    graph, UMAP, Leiden, bbknn) and all plots to scanpy.  They are
    parameters of the development: nothing is assumed about them, except
    that a numerical routine either returns a matrix or raises, and that
    a plot either returns or raises and leaves the matrix as it is. *)
Record Scanpy : Type := mkScanpy {
  read_10x_mtx : string → result AnnData;
  log1p : AnnData → result AnnData;
  highly_variable_genes : Q → Q → Q → AnnData → result AnnData;
  regress_out : list string → AnnData → result AnnData;
  scale : AnnData → result AnnData;
  pca : string → AnnData → result AnnData;
  neighbors : nat → nat → AnnData → result AnnData;
  umap : AnnData → result AnnData;
  leiden : AnnData → result AnnData;
  bbknn : string → AnnData → result AnnData;
  pl_highest_expr_genes : nat → AnnData → result unit;
  pl_violin : list string → AnnData → result unit;
  pl_umap : list string → AnnData → result unit
}.

(** The thresholds and patterns of the quality control and the
    normalization, as the specification lists them. *)
Record Config : Type := mkConfig {
  min_cells : nat;
  min_genes : nat;
  max_genes_by_counts : Q;
  min_genes_by_counts : Q;
  max_pct_counts_mt : Q;
  mt_prefixes : list string;
  ribo_prefixes : list string;
  counts_per_cell_after : Q;
  min_mean : Q;
  max_mean : Q;
  min_disp : Q
}.

(** The values written in [BasicFiltering]. *)
Definition default_config : Config :=
  {| min_cells := 3;
     min_genes := 200;
     max_genes_by_counts := 5000;
     min_genes_by_counts := 200;
     max_pct_counts_mt := 10;
     mt_prefixes := ["mt-"];
     ribo_prefixes := ["Rps"; "Rpl"];
     counts_per_cell_after := 1000;
     min_mean := 1 # 80;
     max_mean := 3;
     min_disp := 1 # 2 |}.

(** The names bound in the notebook's kernel. *)
Inductive object : Type :=
  | Matrix (adata : AnnData)
  | Index (names : list string).

Abbreviation namespace := (gmap string object).

Definition name_matrix (ns : namespace) (x : string) : result AnnData :=
  match ns !! x with
  | Some (Matrix adata) => Ok adata
  | Some _ => Err TypeError
  | None => Err (NameError x)
  end.

Definition name_index (ns : namespace) (x : string) : result (list string) :=
  match ns !! x with
  | Some (Index names) => Ok names
  | Some _ => Err TypeError
  | None => Err (NameError x)
  end.

Section Notebook.
Context (sc : Scanpy).

(** [def LoadData(gex_path)] *)
Definition LoadData (gex_path : string) : result AnnData :=
  adata ← read_10x_mtx sc gex_path;
  adata ← var_names_make_unique adata;
  mret adata.

(** The quality control of [BasicFiltering]: its statements from
    [sc.pp.filter_genes] to the mitochondrial subset that compute on the
    matrix.  The violin plot between the metrics and the subsets reads
    the matrix and is a step of [BasicFiltering] itself. *)
Definition BasicFiltering_qc (adata : AnnData) : result AnnData :=
  let adata := filter_genes 3 adata in
  let adata := filter_cells 200 adata in
  let adata := set_var_by_name "mt" (startswith ["mt-"]) adata in
  let adata := set_var_by_name "ribo" (startswith ["Rps"; "Rpl"]) adata in
  adata ← calculate_qc_metrics ["mt"; "ribo"] adata;
  adata ← keep_obs_lt "n_genes_by_counts" 5000 adata;
  adata ← keep_obs_gt "n_genes_by_counts" 200 adata;
  adata ← keep_obs_lt "pct_counts_mt" 10 adata;
  mret adata.

(** [BasicFiltering], from [sc.pp.normalize_per_cell] to [sc.pp.scale]. *)
Definition BasicFiltering_normalize (adata : AnnData) : result AnnData :=
  let adata := normalize_per_cell 1000 adata in
  adata ← log1p sc adata;
  adata ← highly_variable_genes sc (1 # 80) 3 (1 # 2) adata;
  adata ← regress_out sc ["total_counts"; "pct_counts_mt"; "pct_counts_ribo"] adata;
  adata ← scale sc adata;
  mret adata.

(** [def BasicFiltering(adata)] *)
Definition BasicFiltering (adata : AnnData) : result AnnData :=
  _ ← pl_highest_expr_genes sc 20 adata;
  let adata := filter_genes 3 adata in
  let adata := filter_cells 200 adata in
  let adata := set_var_by_name "mt" (startswith ["mt-"]) adata in
  let adata := set_var_by_name "ribo" (startswith ["Rps"; "Rpl"]) adata in
  adata ← calculate_qc_metrics ["mt"; "ribo"] adata;
  _ ← pl_violin sc ["n_genes_by_counts"; "total_counts"; "pct_counts_mt"; "pct_counts_ribo"]
                adata;
  adata ← keep_obs_lt "n_genes_by_counts" 5000 adata;
  adata ← keep_obs_gt "n_genes_by_counts" 200 adata;
  adata ← keep_obs_lt "pct_counts_mt" 10 adata;
  BasicFiltering_normalize adata.

(** [def Clustering(adata)] *)
Definition Clustering (adata : AnnData) : result AnnData :=
  adata ← pca sc "arpack" adata;
  adata ← neighbors sc 10 40 adata;
  adata ← umap sc adata;
  adata ← leiden sc adata;
  _ ← pl_umap sc ["leiden"] adata;
  mret adata.

(** The pipeline the specification describes, in which every threshold
    and pattern is a value of the caller's configuration. *)
Definition qc_configured (cfg : Config) (adata : AnnData) : result AnnData :=
  let adata := filter_genes (min_cells cfg) adata in
  let adata := filter_cells (min_genes cfg) adata in
  let adata := set_var_by_name "mt" (startswith (mt_prefixes cfg)) adata in
  let adata := set_var_by_name "ribo" (startswith (ribo_prefixes cfg)) adata in
  adata ← calculate_qc_metrics ["mt"; "ribo"] adata;
  adata ← keep_obs_lt "n_genes_by_counts" (max_genes_by_counts cfg) adata;
  adata ← keep_obs_gt "n_genes_by_counts" (min_genes_by_counts cfg) adata;
  adata ← keep_obs_lt "pct_counts_mt" (max_pct_counts_mt cfg) adata;
  mret adata.

(** *** The code cells, in the order of the notebook *)

(** [car1=LoadData('./data/car1/'); car1.obs['sample']='Car1';
    car1=BasicFiltering(car1)] *)
Definition cell_load_car1 (ns : namespace) : result namespace :=
  car1 ← LoadData "./data/car1/";
  let car1 := set_obs_scalar "sample" (Str "Car1") car1 in
  car1 ← BasicFiltering car1;
  mret (<["car1" := Matrix car1]> ns).

Definition cell_load_naive (ns : namespace) : result namespace :=
  naive ← LoadData "./data/naive/";
  let naive := set_obs_scalar "sample" (Str "Naive") naive in
  naive ← BasicFiltering naive;
  mret (<["naive" := Matrix naive]> ns).

(** [naive=Clustering(naive)] *)
Definition cell_cluster_naive (ns : namespace) : result namespace :=
  naive ← name_matrix ns "naive";
  naive ← Clustering naive;
  mret (<["naive" := Matrix naive]> ns).

(** [car1=Clustering(car1)] *)
Definition cell_cluster_car1 (ns : namespace) : result namespace :=
  car1 ← name_matrix ns "car1";
  car1 ← Clustering car1;
  mret (<["car1" := Matrix car1]> ns).

(** The merge cell: statement by statement, every name looked up in
    the kernel's namespace. *)
Definition cell_merge (ns : namespace) : result namespace :=
  (* var_names=naive.var_names.intersection(car1.var_names) *)
  naive ← name_matrix ns "naive";
  car1 ← name_matrix ns "car1";
  let ns := <["var_names" := Index (intersection (var_names naive) (var_names car1))]> ns in
  (* naive=naive_treated[:,var_names] *)
  naive_treated ← name_matrix ns "naive_treated";
  names ← name_index ns "var_names";
  naive ← select_var names naive_treated;
  let ns := <["naive" := Matrix naive]> ns in
  (* car1=car1[:,var_names] *)
  car1 ← name_matrix ns "car1";
  names ← name_index ns "var_names";
  car1 ← select_var names car1;
  let ns := <["car1" := Matrix car1]> ns in
  (* adata = naive.concatenate(car1) *)
  naive ← name_matrix ns "naive";
  car1 ← name_matrix ns "car1";
  adata ← concatenate naive car1;
  let ns := <["adata" := Matrix adata]> ns in
  (* adata= Clustering(adata) *)
  adata ← name_matrix ns "adata";
  adata ← Clustering adata;
  let ns := <["adata" := Matrix adata]> ns in
  (* sc.pl.umap(adata, color=['sample','leiden']) *)
  adata ← name_matrix ns "adata";
  _ ← pl_umap sc ["sample"; "leiden"] adata;
  mret ns.

(** [sc.external.pp.bbknn(adata, batch_key='sample'); sc.tl.umap(adata);
    sc.tl.leiden(adata); sc.pl.umap(adata, color=['sample', 'leiden'])] *)
Definition cell_integrate (ns : namespace) : result namespace :=
  adata ← name_matrix ns "adata";
  adata ← bbknn sc "sample" adata;
  adata ← umap sc adata;
  adata ← leiden sc adata;
  _ ← pl_umap sc ["sample"; "leiden"] adata;
  mret (<["adata" := Matrix adata]> ns).

(** The cells before the merge, run in a fresh kernel. *)
Definition run_to_merge : result namespace :=
  ns ← cell_load_car1 ∅;
  ns ← cell_load_naive ns;
  ns ← cell_cluster_naive ns;
  ns ← cell_cluster_car1 ns;
  mret ns.

(** The whole notebook. *)
Definition run_notebook : result namespace :=
  ns ← run_to_merge;
  ns ← cell_merge ns;
  cell_integrate ns.

(** The merge cell as the specification describes it: the two
    per-sample outputs, restricted to their shared genes, concatenated
    and clustered. *)
Definition merge_as_specified (naive car1 : AnnData) : result AnnData :=
  let names := intersection (var_names naive) (var_names car1) in
  naive ← select_var names naive;
  car1 ← select_var names car1;
  adata ← concatenate naive car1;
  Clustering adata.

End Notebook.

(** ** Sample data *)

Definition cell_of (name : string) (row : list Q) : Cell :=
  {| barcode := name; annot := ∅; counts := row |}.

Definition gene_of (name : string) : Gene :=
  {| symbol := name; gannot := ∅ |}.

(** Three cells with 15, 10 and 5 of their 100 counts on a mitochondrial
    gene. *)
Definition mito_sample : AnnData :=
  {| obs := [cell_of "AAAC" [15; 85]; cell_of "AAAG" [10; 90]; cell_of "AAAT" [5; 95]]%Q;
     var := [gene_of "mt-Co1"; gene_of "Actb"] |}.

(** [n] genes named [g0], [g1], ... *)
Definition numbered_genes (n : nat) : list Gene :=
  (λ j, gene_of ("g" +:+ str j)) <$> seq 0 n.

(** A matrix with one cell that expresses each of [n] genes once. *)
Definition one_cell (n : nat) : AnnData :=
  {| obs := [cell_of "AAAC" (replicate n 1%Q)]; var := numbered_genes n |}.

(** Numerical routines that leave the matrix as it is, and a data
    directory with two small samples. *)
Definition small_sample (label : string) : AnnData :=
  {| obs := [cell_of (label +:+ "1") [2; 0; 1]; cell_of (label +:+ "2") [0; 3; 1]]%Q;
     var := [gene_of "Actb"; gene_of "Gapdh"; gene_of "Actb"] |}.

Definition plain_scanpy : Scanpy :=
  {| read_10x_mtx := λ path,
       if decide (path = "./data/car1/") then Ok (small_sample "C")
       else if decide (path = "./data/naive/") then Ok (small_sample "N")
       else Err (FileFormatError path);
     log1p := Ok;
     highly_variable_genes := λ _ _ _, Ok;
     regress_out := λ _, Ok;
     scale := Ok;
     pca := λ _, Ok;
     neighbors := λ _ _, Ok;
     umap := Ok;
     leiden := Ok;
     bbknn := λ _, Ok;
     pl_highest_expr_genes := λ _ _, Ok ();
     pl_violin := λ _ _, Ok ();
     pl_umap := λ _ _, Ok () |}.


(** A sample that exercises every step of the quality control: 250
    genes, the first of them mitochondrial, and five cells.
    - [AAAC] has 30 of 279 counts on the mitochondrial gene;
    - [AAAG] and [AACA] are unremarkable;
    - [AAAT] expresses exactly 200 genes;
    - [AACC] expresses 100 genes. *)
Definition dense_sample : AnnData :=
  {| obs := [cell_of "AAAC" (30 :: replicate 249 1);
             cell_of "AAAG" (10 :: replicate 249 1);
             cell_of "AAAT" (1 :: replicate 199 1 ++ replicate 50 0);
             cell_of "AACA" (5 :: replicate 249 1);
             cell_of "AACC" (0 :: replicate 100 1 ++ replicate 149 0)]%Q;
     var := gene_of "mt-Co1" :: numbered_genes 249 |}.

(** ** Notions used to state the properties *)

(** The tests [adata.obs.col < q] and [adata.obs.col > q] on one cell. *)
Definition cell_lt (col : string) (q : Q) (c : Cell) : result bool :=
  v ← or_raise (AttributeError col) (annot c !! col); value_lt v q.

Definition cell_gt (col : string) (q : Q) (c : Cell) : result bool :=
  v ← or_raise (AttributeError col) (annot c !! col); value_gt v q.

(** No more cells and no more genes than before. *)
Definition shape_le (adata' adata : AnnData) : Prop :=
  n_obs adata' ≤ n_obs adata ∧ n_vars adata' ≤ n_vars adata.

(** A matrix whose cells already carry their mitochondrial percentage:
    15, 10 and 5. *)
Definition measured_cell (name : string) (pct : Q) (row : list Q) : Cell :=
  {| barcode := name; annot := {["pct_counts_mt" := Num pct]}; counts := row |}.

Definition mito_measured : AnnData :=
  {| obs := [measured_cell "AAAC" 15 [15; 85]; measured_cell "AAAG" 10 [10; 90];
             measured_cell "AAAT" 5 [5; 95]]%Q;
     var := [gene_of "mt-Co1"; gene_of "Actb"] |}.

(** The flag columns that [BasicFiltering] writes before the metrics. *)
Definition flagged (adata : AnnData) : AnnData :=
  set_var_by_name "ribo" (startswith ["Rps"; "Rpl"])
    (set_var_by_name "mt" (startswith ["mt-"]) adata).

(** The reading of the mitochondrial step under which a cell at the
    cutoff stays: a cell is dropped exactly when its percentage is above
    the cutoff. *)
Definition drops_only_above (cutoff : Q) : Prop :=
  ∀ adata adata' c p,
    keep_obs_lt "pct_counts_mt" cutoff adata = Ok adata' →
    c ∈ obs adata → annot c !! "pct_counts_mt" = Some (Num p) →
    (c ∉ obs adata' ↔ (cutoff < p)%Q).

(** The reading of the low-count step under which it repeats the cell
    filter: on the metrics of a matrix that passed [filter_cells] with
    200, the subset [n_genes_by_counts > 200] removes no cell. *)
Definition low_count_step_redundant : Prop :=
  ∀ raw adata,
    calculate_qc_metrics ["mt"; "ribo"] (flagged (filter_cells 200 raw)) = Ok adata →
    ∃ adata', keep_obs_gt "n_genes_by_counts" 200 adata = Ok adata' ∧
              obs adata' = obs adata.



(** Routines that accept only the variable-gene bounds written in
    [BasicFiltering] and raise for any other. *)
Definition strict_scanpy : Scanpy :=
  {| read_10x_mtx := read_10x_mtx plain_scanpy;
     log1p := log1p plain_scanpy;
     highly_variable_genes := λ lo hi disp adata,
       if Qeq_bool lo (1 # 80) && Qeq_bool hi 3 && Qeq_bool disp (1 # 2)
       then Ok adata else Err (LibraryError "highly_variable_genes");
     regress_out := regress_out plain_scanpy;
     scale := scale plain_scanpy;
     pca := pca plain_scanpy;
     neighbors := neighbors plain_scanpy;
     umap := umap plain_scanpy;
     leiden := leiden plain_scanpy;
     bbknn := bbknn plain_scanpy;
     pl_highest_expr_genes := pl_highest_expr_genes plain_scanpy;
     pl_violin := pl_violin plain_scanpy;
     pl_umap := pl_umap plain_scanpy |}.



(** A matrix whose two rows sum to 1000. *)
Definition normalized_sample : AnnData :=
  {| obs := [cell_of "AAAC" [400; 600]; cell_of "AAAG" [250; 750]]%Q;
     var := [gene_of "Actb"; gene_of "Gapdh"] |}.

(** Two samples that share the genes [B] and [C]. *)
Definition sample_abc : AnnData :=
  {| obs := [cell_of "AAAC" [1; 2; 3]; cell_of "AAAG" [4; 5; 6]]%Q;
     var := [gene_of "A"; gene_of "B"; gene_of "C"] |}.

Definition sample_bcd : AnnData :=
  {| obs := [cell_of "CCCA" [7; 8; 9]]%Q;
     var := [gene_of "B"; gene_of "C"; gene_of "D"] |}.

(** Every row of [X] has one entry per gene. *)
Definition rectangular (adata : AnnData) : Prop :=
  Forall (λ c, length (counts c) = n_vars adata) (obs adata).

(** Two labelled samples over the same genes. *)
Definition naive_sample : AnnData :=
  set_obs_scalar "sample" (Str "Naive")
    {| obs := [cell_of "CCCA" [7; 8]]%Q; var := [gene_of "B"; gene_of "C"] |}.

Definition car1_sample : AnnData :=
  set_obs_scalar "sample" (Str "Car1")
    {| obs := [cell_of "AAAC" [1; 2]; cell_of "AAAG" [3; 4]]%Q;
       var := [gene_of "B"; gene_of "C"] |}.

(** ** Notions for the further properties *)

(** One cell subset of the form [adata[adata.obs.col < q, :]] or
    [adata[adata.obs.col > q, :]], and a sequence of them. *)
Inductive column_test : Type :=
  | Below (col : string) (q : Q)
  | Above (col : string) (q : Q).

Definition keep_obs (t : column_test) (adata : AnnData) : result AnnData :=
  match t with
  | Below col q => keep_obs_lt col q adata
  | Above col q => keep_obs_gt col q adata
  end.

Definition passes (t : column_test) (c : Cell) : result bool :=
  match t with
  | Below col q => cell_lt col q c
  | Above col q => cell_gt col q c
  end.

Fixpoint keep_obs_all (ts : list column_test) (adata : AnnData) : result AnnData :=
  match ts with
  | [] => Ok adata
  | t :: ts => adata ← keep_obs t adata; keep_obs_all ts adata
  end.

(** The three subsets of [BasicFiltering], in its order. *)
Definition BasicFiltering_tests : list column_test :=
  [Below "n_genes_by_counts" 5000; Above "n_genes_by_counts" 200;
   Below "pct_counts_mt" 10].

(** Two cells with a number in column [a]; the first has a string in
    column [b]. *)
Definition mixed_columns : AnnData :=
  {| obs := [mkCell "AAAC" {["a" := Num 7; "b" := Str "high"]} [];
             mkCell "AAAG" {["a" := Num 1; "b" := Num 2]} []];
     var := [] |}.

(** Matrices of the kind the pipeline is fed: entries that are not
    negative, and raw counts, whose entries are natural numbers. *)
Definition nonnegative (adata : AnnData) : Prop :=
  Forall (λ c, Forall (λ x, (0 <= x)%Q) (counts c)) (obs adata).

Definition is_count (x : Q) : bool :=
  (0 <=? Qnum x)%Z && (Qden x =? 1)%positive.

Definition count_matrix (adata : AnnData) : Prop :=
  Forall (λ c, Forall (λ x, is_count x = true) (counts c)) (obs adata).

(** The covariates that [BasicFiltering] hands to [sc.pp.regress_out]
    are finite numbers in their ranges. *)
Definition finite_covariates (c : Cell) : Prop :=
  ∃ t m r,
    annot c !! "total_counts" = Some (Num t) ∧ (0 < t)%Q ∧
    annot c !! "pct_counts_mt" = Some (Num m) ∧ (0 <= m)%Q ∧ (m < 10)%Q ∧
    annot c !! "pct_counts_ribo" = Some (Num r) ∧ (0 <= r)%Q ∧ (r <= 100)%Q.

(** The column that a test reads. *)
Definition test_column (t : column_test) : string :=
  match t with Below col _ | Above col _ => col end.

(** ** The merge cell, statement by statement

    A cell is a sequence of statements run against the kernel's
    namespace.  A statement that raises stops the cell, and the names
    bound by the statements before it stay bound.  The four assignments
    of the merge cell build new objects and change no matrix in place. *)
Definition statement : Type := namespace → result namespace.

Fixpoint run_statements (body : list statement) (ns : namespace) : namespace * option error :=
  match body with
  | [] => (ns, None)
  | s :: body =>
      match s ns with
      | Ok ns' => run_statements body ns'
      | Err e => (ns, Some e)
      end
  end.

(** [var_names=naive.var_names.intersection(car1.var_names)] *)
Definition assign_var_names : statement := λ ns,
  naive ← name_matrix ns "naive";
  car1 ← name_matrix ns "car1";
  mret (<["var_names" := Index (intersection (var_names naive) (var_names car1))]> ns).

(** [naive=naive_treated[:,var_names]] *)
Definition assign_naive : statement := λ ns,
  naive_treated ← name_matrix ns "naive_treated";
  names ← name_index ns "var_names";
  naive ← select_var names naive_treated;
  mret (<["naive" := Matrix naive]> ns).

(** [car1=car1[:,var_names]] *)
Definition assign_car1 : statement := λ ns,
  car1 ← name_matrix ns "car1";
  names ← name_index ns "var_names";
  car1 ← select_var names car1;
  mret (<["car1" := Matrix car1]> ns).

(** [adata = naive.concatenate(car1)] *)
Definition assign_adata : statement := λ ns,
  naive ← name_matrix ns "naive";
  car1 ← name_matrix ns "car1";
  adata ← concatenate naive car1;
  mret (<["adata" := Matrix adata]> ns).

Definition merge_assignments : list statement :=
  [assign_var_names; assign_naive; assign_car1; assign_adata].

(** A kernel in which [naive], [car1] and a leftover [naive_treated]
    are bound. *)
Definition stale_kernel : namespace :=
  {[ "naive" := Matrix sample_abc; "car1" := Matrix sample_bcd;
     "naive_treated" := Matrix naive_sample ]}.

Definition fresh_kernel : namespace :=
  {[ "naive" := Matrix sample_abc; "car1" := Matrix sample_bcd ]}.

(** ** Notions for the flag columns *)

(** The boolean column that [adata.var_names.str.startswith(prefixes)]
    gives. *)
Definition prefix_flags (prefixes : list string) (adata : AnnData) : list bool :=
  (λ name, existsb (λ p, String.prefix p name) prefixes) <$> var_names adata.

(** The two percentages of a cell are numbers that sum to at most 100. *)
Definition percentages_share_total (c : Cell) : Prop :=
  ∃ m r, annot c !! "pct_counts_mt" = Some (Num m) ∧
         annot c !! "pct_counts_ribo" = Some (Num r) ∧
         (m + r <= 100)%Q.

(** More than 200 and fewer than 5000 non-zero entries. *)
Definition gene_count_in_range (c : Cell) : bool :=
  let n := of_count (count_if nonzero (counts c)) in
  Qlt_bool n 5000 && Qlt_bool 200 n.

(** [dense_sample] with the mitochondrial gene under its human symbol. *)
Definition human_sample : AnnData :=
  {| obs := obs dense_sample; var := gene_of "MT-CO1" :: numbered_genes 249 |}.

(** * Properties *)

(** ** The error monad *)

Lemma bind_Ok {A B} (m : result A) (f : A → result B) (b : B) :
  m ≫= f = Ok b ↔ ∃ a, m = Ok a ∧ f a = Ok b.
Proof.
  destruct m as [a|e]; simpl; split.
  - intros H. by exists a.
  - by intros (a' & [= <-] & H).
  - discriminate.
  - by intros (a' & [=] & _).
Qed.

Lemma mapM_Ok {A B} (f : A → result B) (l : list A) (k : list B) :
  mapM f l = Ok k ↔ Forall2 (λ x y, f x = Ok y) l k.
Proof.
  revert k. induction l as [|x l IH]; intros k; simpl.
  - split.
    + intros [= <-]. constructor.
    + by inversion 1.
  - split.
    + intros H. apply bind_Ok in H as (y & Hy & H).
      apply bind_Ok in H as (k' & Hk' & [= <-]).
      constructor; [done | by apply IH].
    + inversion 1 as [|? y ? k' Hy Hk']; subst.
      apply bind_Ok. exists y. split; [done|].
      apply bind_Ok. exists k'. split; [by apply IH | done].
Qed.

Lemma mapM_Ok_length {A B} (f : A → result B) (l : list A) (k : list B) :
  mapM f l = Ok k → length k = length l.
Proof. intros H%mapM_Ok. symmetry. by eapply Forall2_length. Qed.

Lemma mapM_total {A B} (f : A → result B) (l : list A) :
  Forall (λ x, ∃ y, f x = Ok y) l → ∃ k, mapM f l = Ok k.
Proof.
  induction 1 as [|x l [y Hy] _ [k Hk]].
  - by exists [].
  - exists (y :: k). apply mapM_Ok. constructor; [done | by apply mapM_Ok].
Qed.

Ltac inv_result :=
  repeat match goal with
  | H : _ ≫= _ = Ok _ |- _ =>
      let a := fresh "a" in apply bind_Ok in H as (a & ? & H)
  | H : mret _ = Ok _ |- _ => injection H as <-
  | H : Ok _ = Ok _ |- _ => injection H as <-
  | H : Err _ = Ok _ |- _ => discriminate H
  end.

(** ** Arithmetic on entries *)

Lemma Qlt_bool_lt (x y : Q) : Qlt_bool x y = true ↔ (x < y)%Q.
Proof. unfold Qlt_bool, Qlt. apply Z.ltb_lt. Qed.

Lemma Qlt_bool_of_count (m n : nat) :
  Qlt_bool (of_count m) (of_count n) = true ↔ m < n.
Proof.
  rewrite Qlt_bool_lt. unfold of_count. rewrite <- Zlt_Qlt. lia.
Qed.

Lemma expressed_nonzero (x : Q) : expressed x = true → nonzero x = true.
Proof.
  unfold expressed, nonzero. rewrite Qlt_bool_lt. intros Hx.
  apply negb_true_iff, not_true_is_false. intros Heq%Qeq_bool_eq.
  rewrite Heq in Hx. by apply Qlt_irrefl in Hx.
Qed.

(** ** Boolean masks *)

Lemma length_filter_mask {A} (mask : list bool) (l : list A) :
  length (filter_mask mask l) ≤ length l.
Proof.
  revert l. induction mask as [|b mask IH]; intros [|x l]; simpl; try lia.
  destruct b; simpl; specialize (IH l); lia.
Qed.

Lemma filter_mask_sublist {A} (mask : list bool) (l : list A) :
  filter_mask mask l `sublist_of` l.
Proof.
  revert l. induction mask as [|b mask IH]; intros [|x l]; simpl;
    try apply sublist_nil_l.
  destruct b; [by apply sublist_skip | by apply sublist_cons].
Qed.

Lemma filter_mask_fmap {A} (f : A → bool) (l : list A) :
  filter_mask (f <$> l) l = filter f l.
Proof.
  induction l as [|x l IH]; [done|]. rewrite fmap_cons. simpl.
  rewrite filter_cons, IH. by destruct (f x).
Qed.

(** A mask computed element by element keeps exactly the elements on
    which the test is true. *)
Lemma filter_mask_mapM {A} (f : A → result bool) (l : list A) (mask : list bool) :
  mapM f l = Ok mask →
  filter_mask mask l = filter (λ x, f x = Ok true) l.
Proof.
  rewrite mapM_Ok. induction 1 as [|x b l mask Hx _ IH]; [done|].
  simpl. rewrite filter_cons, IH.
  destruct b; case_decide; try done; congruence.
Qed.

Lemma Forall2_compose {A B C} (P : A → B → Prop) (R : B → C → Prop)
    (l : list A) (k : list B) (m : list C) :
  Forall2 P l k → Forall2 R k m → Forall2 (λ x z, ∃ y, P x y ∧ R y z) l m.
Proof.
  intros H. revert m. induction H as [|x y l k Hxy _ IH]; intros m Hm.
  - inversion Hm. constructor.
  - inversion Hm as [|? z ? m' Hyz Hm']; subst. constructor; eauto.
Qed.

Lemma Forall_on_filter {A} (P Q : A → Prop) `{∀ x, Decision (Q x)} (l : list A) :
  Forall P l → Forall P (filter Q l).
Proof.
  rewrite !Forall_forall. intros Hl x [_ Hx]%list_elem_of_filter. by apply Hl.
Qed.

(** ** Subsetting the cells by a column test *)

Section ColumnTest.
Context (cmp : value → Q → result bool).

(** A subset by any element-wise comparison of a column with a scalar:
    the mask is the comparison on every cell. *)
Lemma keep_obs_by_mask (col : string) (q : Q) (adata adata' : AnnData) :
  (s ← obs_column col adata;
   mask ← mapM (λ v, cmp v q) s;
   mret (subset_obs mask adata)) = Ok adata' →
  ∃ mask,
    mapM (λ c, v ← or_raise (AttributeError col) (annot c !! col); cmp v q) (obs adata)
      = Ok mask ∧
    adata' = subset_obs mask adata.
Proof.
  unfold obs_column. intros H.
  apply bind_Ok in H as (s & Hs & H). apply bind_Ok in H as (mask & Hm & [= <-]).
  exists mask. split; [|done]. apply mapM_Ok. apply mapM_Ok in Hs, Hm.
  eapply Forall2_impl; [exact (Forall2_compose _ _ _ _ _ Hs Hm)|]. simpl.
  intros c b (v & Hv & Hb). by rewrite Hv.
Qed.

Lemma keep_obs_by_total (col : string) (q : Q) (adata : AnnData) :
  Forall (λ c, ∃ b, (v ← or_raise (AttributeError col) (annot c !! col); cmp v q) = Ok b)
         (obs adata) →
  ∃ adata', (s ← obs_column col adata;
             mask ← mapM (λ v, cmp v q) s;
             mret (subset_obs mask adata)) = Ok adata'.
Proof.
  intros Hall. unfold obs_column.
  assert (∃ s, Forall2 (λ c v, or_raise (AttributeError col) (annot c !! col) = Ok v)
                       (obs adata) s
             ∧ ∃ mask, Forall2 (λ v b, cmp v q = Ok b) s mask) as (s & Hs & mask & Hm).
  { induction Hall as [|c l [b Hb] _ (s & Hs & mask & Hm)].
    - exists []. split; [constructor|]. exists []. constructor.
    - apply bind_Ok in Hb as (v & Hv & Hb).
      exists (v :: s). split; [by constructor|]. exists (b :: mask). by constructor. }
  apply mapM_Ok in Hs, Hm. rewrite Hs. simpl. rewrite Hm. simpl. eauto.
Qed.

End ColumnTest.

Lemma keep_obs_lt_mask (col : string) (q : Q) (adata adata' : AnnData) :
  keep_obs_lt col q adata = Ok adata' →
  ∃ mask, mapM (cell_lt col q) (obs adata) = Ok mask ∧ adata' = subset_obs mask adata.
Proof. apply (keep_obs_by_mask value_lt). Qed.

Lemma keep_obs_gt_mask (col : string) (q : Q) (adata adata' : AnnData) :
  keep_obs_gt col q adata = Ok adata' →
  ∃ mask, mapM (cell_gt col q) (obs adata) = Ok mask ∧ adata' = subset_obs mask adata.
Proof. apply (keep_obs_by_mask value_gt). Qed.

(** The cells that a column test keeps, and what it leaves alone. *)
Lemma keep_obs_lt_filter (col : string) (q : Q) (adata adata' : AnnData) :
  keep_obs_lt col q adata = Ok adata' →
  obs adata' = filter (λ c, cell_lt col q c = Ok true) (obs adata) ∧
  var adata' = var adata.
Proof.
  intros (mask & Hmask & ->)%keep_obs_lt_mask. simpl.
  split; [by apply filter_mask_mapM | done].
Qed.

Lemma keep_obs_gt_filter (col : string) (q : Q) (adata adata' : AnnData) :
  keep_obs_gt col q adata = Ok adata' →
  obs adata' = filter (λ c, cell_gt col q c = Ok true) (obs adata) ∧
  var adata' = var adata.
Proof.
  intros (mask & Hmask & ->)%keep_obs_gt_mask. simpl.
  split; [by apply filter_mask_mapM | done].
Qed.

(** A column test succeeds when every cell has a number in the column. *)
Lemma keep_obs_lt_total (col : string) (q : Q) (adata : AnnData) :
  Forall (λ c, ∃ b, cell_lt col q c = Ok b) (obs adata) →
  ∃ adata', keep_obs_lt col q adata = Ok adata'.
Proof. apply (keep_obs_by_total value_lt). Qed.

Lemma keep_obs_gt_total (col : string) (q : Q) (adata : AnnData) :
  Forall (λ c, ∃ b, cell_gt col q c = Ok b) (obs adata) →
  ∃ adata', keep_obs_gt col q adata = Ok adata'.
Proof. apply (keep_obs_by_total value_gt). Qed.

(** ** Shapes *)

Lemma subset_obs_shape (mask : list bool) (adata : AnnData) :
  shape_le (subset_obs mask adata) adata.
Proof. split; [apply length_filter_mask | done]. Qed.

Lemma subset_var_shape (mask : list bool) (adata : AnnData) :
  n_obs (subset_var mask adata) = n_obs adata ∧
  n_vars (subset_var mask adata) ≤ n_vars adata.
Proof.
  unfold n_obs, n_vars. simpl. rewrite length_fmap.
  split; [done | apply length_filter_mask].
Qed.

Lemma filter_genes_shape (k : nat) (adata : AnnData) :
  n_obs (filter_genes k adata) = n_obs adata ∧
  n_vars (filter_genes k adata) ≤ n_vars adata.
Proof.
  unfold filter_genes.
  match goal with |- context [subset_var ?m ?a] =>
    destruct (subset_var_shape m a) as [Ho Hv]; rewrite Ho; split; [done|];
    etrans; [exact Hv|] end.
  unfold n_vars. simpl. rewrite length_zip_with. lia.
Qed.

Lemma filter_cells_shape (k : nat) (adata : AnnData) :
  n_obs (filter_cells k adata) ≤ n_obs adata ∧
  n_vars (filter_cells k adata) = n_vars adata.
Proof.
  unfold filter_cells, n_obs, n_vars. simpl. split; [|done].
  etrans; [apply length_filter_mask|]. rewrite length_zip_with. lia.
Qed.

Lemma calculate_qc_metrics_shape (qc_vars : list string) (adata adata' : AnnData) :
  calculate_qc_metrics qc_vars adata = Ok adata' →
  n_obs adata' = n_obs adata ∧ n_vars adata' = n_vars adata.
Proof.
  unfold calculate_qc_metrics. intros H. inv_result.
  unfold n_obs, n_vars. simpl. by rewrite length_fmap, length_imap.
Qed.

Lemma normalize_per_cell_shape (t : Q) (adata : AnnData) :
  n_obs (normalize_per_cell t adata) ≤ n_obs adata ∧
  n_vars (normalize_per_cell t adata) = n_vars adata.
Proof.
  unfold normalize_per_cell, n_obs, n_vars. simpl. split; [|done].
  rewrite length_fmap. apply length_filter_mask.
Qed.

Lemma set_var_by_name_shape (col : string) (f : string → value) (adata : AnnData) :
  n_obs (set_var_by_name col f adata) = n_obs adata ∧
  n_vars (set_var_by_name col f adata) = n_vars adata.
Proof. unfold n_obs, n_vars. simpl. by rewrite length_fmap. Qed.

Lemma keep_obs_lt_shape (col : string) (q : Q) (adata adata' : AnnData) :
  keep_obs_lt col q adata = Ok adata' → shape_le adata' adata.
Proof. intros (mask & _ & ->)%keep_obs_lt_mask. apply subset_obs_shape. Qed.

Lemma keep_obs_gt_shape (col : string) (q : Q) (adata adata' : AnnData) :
  keep_obs_gt col q adata = Ok adata' → shape_le adata' adata.
Proof. intros (mask & _ & ->)%keep_obs_gt_mask. apply subset_obs_shape. Qed.

(** ** The per-cell metrics *)

Lemma qc_var_metrics_frame (v : string) (flags : list bool) (c : Cell) (col : string) :
  col ≠ "pct_counts_" +:+ v → col ≠ "total_counts_" +:+ v →
  annot (qc_var_metrics v flags c) !! col = annot c !! col.
Proof.
  intros H1 H2. unfold qc_var_metrics. simpl.
  rewrite lookup_insert_ne by done. by rewrite lookup_insert_ne by done.
Qed.

Lemma foldl_qc_var_metrics (qc : list (string * list bool)) (c : Cell) (col : string) :
  (∀ v, col ≠ "pct_counts_" +:+ v ∧ col ≠ "total_counts_" +:+ v) →
  annot (foldl (λ c '(qc_var, flags), qc_var_metrics qc_var flags c) c qc) !! col
  = annot c !! col.
Proof.
  intros Hcol. revert c. induction qc as [|[v flags] qc IH]; intros c; [done|].
  simpl. rewrite IH. apply qc_var_metrics_frame; apply Hcol.
Qed.

Lemma foldl_qc_var_metrics_row (qc : list (string * list bool)) (c : Cell) :
  barcode (foldl (λ c '(qc_var, flags), qc_var_metrics qc_var flags c) c qc) = barcode c ∧
  counts (foldl (λ c '(qc_var, flags), qc_var_metrics qc_var flags c) c qc) = counts c.
Proof.
  revert c. induction qc as [|[v flags] qc IH]; intros c; [done|].
  simpl. destruct (IH (qc_var_metrics v flags c)) as [-> ->]. done.
Qed.

Lemma describe_obs_row (qc : list (string * list bool)) (c : Cell) :
  barcode (describe_obs qc c) = barcode c ∧ counts (describe_obs qc c) = counts c.
Proof.
  unfold describe_obs.
  split; (etrans; [apply foldl_qc_var_metrics_row | done]).
Qed.

(** [n_genes_by_counts] is the number of non-zero entries of the row. *)
Lemma describe_obs_n_genes_by_counts (qc : list (string * list bool)) (c : Cell) :
  annot (describe_obs qc c) !! "n_genes_by_counts"
  = Some (Num (of_count (count_if nonzero (counts c)))).
Proof.
  unfold describe_obs. rewrite foldl_qc_var_metrics.
  - simpl. rewrite lookup_insert_ne by done. apply lookup_insert_eq.
  - intros v. split; simpl; discriminate.
Qed.

(** A column that the metrics do not write keeps its value. *)
Lemma describe_obs_frame (qc : list (string * list bool)) (c : Cell) (col : string) :
  col ≠ "n_genes_by_counts" → col ≠ "total_counts" →
  (∀ v, col ≠ "pct_counts_" +:+ v ∧ col ≠ "total_counts_" +:+ v) →
  annot (describe_obs qc c) !! col = annot c !! col.
Proof.
  intros H1 H2 H3. unfold describe_obs. rewrite foldl_qc_var_metrics by done.
  simpl. by rewrite !lookup_insert_ne by done.
Qed.

(** With [qc_vars=['mt','ribo']], [pct_counts_mt] is the share of the
    counts on the flagged genes, times 100. *)
Lemma describe_obs_pct_counts_mt (mt ribo : list bool) (c : Cell) :
  annot (describe_obs [("mt", mt); ("ribo", ribo)] c) !! "pct_counts_mt"
  = Some (float_scale (float_div (Qsum (filter_mask mt (counts c))) (Qsum (counts c))) 100).
Proof.
  unfold describe_obs, qc_var_metrics. simpl.
  rewrite !lookup_insert_ne by done. apply lookup_insert_eq.
Qed.

Lemma var_flags_set_var_by_name (col : string) (f : string → value) (adata : AnnData)
    (flags : list bool) :
  Forall2 (λ g b, f (symbol g) = Bool b) (var adata) flags →
  var_flags col (set_var_by_name col f adata) = Ok flags.
Proof.
  intros H. unfold var_flags. apply mapM_Ok. simpl.
  apply Forall2_fmap_l. eapply Forall2_impl; [exact H|].
  intros g b Hg. simpl. rewrite lookup_insert_eq. simpl. by rewrite Hg.
Qed.

Lemma var_flags_set_other (col col' : string) (f : string → value) (adata : AnnData) :
  col ≠ col' →
  var_flags col (set_var_by_name col' f adata) = var_flags col adata.
Proof.
  intros Hne. unfold var_flags. simpl. induction (var adata) as [|g l IH]; [done|].
  rewrite fmap_cons. simpl. rewrite lookup_insert_ne by done. by rewrite IH.
Qed.

Lemma var_flags_startswith (col : string) (prefixes : list string) (adata : AnnData) :
  var_flags col (set_var_by_name col (startswith prefixes) adata)
  = Ok ((λ g, existsb (λ p, String.prefix p (symbol g)) prefixes) <$> var adata).
Proof.
  apply var_flags_set_var_by_name. apply Forall2_fmap_r, Forall_Forall2_diag.
  by apply Forall_forall.
Qed.

(** The metrics with the two flag columns of [BasicFiltering]. *)
Lemma calculate_qc_metrics_mt_ribo (mt_p ribo_p : list string) (adata adata' : AnnData) :
  calculate_qc_metrics ["mt"; "ribo"]
    (set_var_by_name "ribo" (startswith ribo_p)
       (set_var_by_name "mt" (startswith mt_p) adata)) = Ok adata' →
  ∃ mt ribo, obs adata' = describe_obs [("mt", mt); ("ribo", ribo)] <$> obs adata.
Proof.
  unfold calculate_qc_metrics. intros H. apply bind_Ok in H as (qc & Hqc & H).
  inv_result. simpl in Hqc.
  rewrite (var_flags_set_other "mt" "ribo"), var_flags_startswith in Hqc by done.
  rewrite var_flags_startswith in Hqc. simpl in Hqc. inv_result.
  eexists _, _. simpl. reflexivity.
Qed.

Lemma calculate_qc_metrics_mt_ribo_total (mt_p ribo_p : list string) (adata : AnnData) :
  ∃ adata', calculate_qc_metrics ["mt"; "ribo"]
    (set_var_by_name "ribo" (startswith ribo_p)
       (set_var_by_name "mt" (startswith mt_p) adata)) = Ok adata'.
Proof.
  unfold calculate_qc_metrics. simpl.
  rewrite (var_flags_set_other "mt" "ribo"), var_flags_startswith by done.
  rewrite var_flags_startswith. simpl. eauto.
Qed.

(** ** The quality control as a whole *)

Lemma value_lt_pct_total (x y q : Q) :
  ∃ b, value_lt (float_scale (float_div x y) 100) q = Ok b.
Proof. unfold float_div. repeat case_match; simpl; eauto. Qed.

Lemma cell_lt_n_genes (qc : list (string * list bool)) (c : Cell) (q : Q) :
  cell_lt "n_genes_by_counts" q (describe_obs qc c)
  = Ok (Qlt_bool (of_count (count_if nonzero (counts c))) q).
Proof. unfold cell_lt. by rewrite describe_obs_n_genes_by_counts. Qed.

Lemma cell_gt_n_genes (qc : list (string * list bool)) (c : Cell) (q : Q) :
  cell_gt "n_genes_by_counts" q (describe_obs qc c)
  = Ok (Qlt_bool q (of_count (count_if nonzero (counts c)))).
Proof. unfold cell_gt. by rewrite describe_obs_n_genes_by_counts. Qed.

Lemma cell_lt_pct_counts_mt (mt ribo : list bool) (c : Cell) (q : Q) :
  cell_lt "pct_counts_mt" q (describe_obs [("mt", mt); ("ribo", ribo)] c)
  = value_lt (float_scale (float_div (Qsum (filter_mask mt (counts c))) (Qsum (counts c))) 100) q.
Proof. unfold cell_lt. by rewrite describe_obs_pct_counts_mt. Qed.

(** The three subsets of [BasicFiltering], applied to measured cells. *)
Lemma qc_subsets_spec (mt ribo : list bool) (cells : list Cell) (genes : list Gene)
    (hi lo cut : Q) :
  ∃ adata',
    (adata ← keep_obs_lt "n_genes_by_counts" hi
               {| obs := describe_obs [("mt", mt); ("ribo", ribo)] <$> cells; var := genes |};
     adata ← keep_obs_gt "n_genes_by_counts" lo adata;
     adata ← keep_obs_lt "pct_counts_mt" cut adata;
     mret adata) = Ok adata' ∧
    var adata' = genes ∧
    obs adata' =
      filter (λ c, cell_lt "pct_counts_mt" cut c = Ok true)
        (filter (λ c, cell_gt "n_genes_by_counts" lo c = Ok true)
           (filter (λ c, cell_lt "n_genes_by_counts" hi c = Ok true)
              (describe_obs [("mt", mt); ("ribo", ribo)] <$> cells))).
Proof.
  set (measured := λ c : Cell, ∃ c0, c = describe_obs [("mt", mt); ("ribo", ribo)] c0).
  assert (Forall measured (describe_obs [("mt", mt); ("ribo", ribo)] <$> cells)) as Hm.
  { apply Forall_fmap, Forall_forall. intros c _. by exists c. }
  destruct (keep_obs_lt_total "n_genes_by_counts" hi
    {| obs := describe_obs [("mt", mt); ("ribo", ribo)] <$> cells; var := genes |})
    as [a1 H1].
  { simpl. eapply Forall_impl; [exact Hm|]. intros c [c0 ->].
    rewrite cell_lt_n_genes. eauto. }
  rewrite H1. simpl. apply keep_obs_lt_filter in H1 as [Ho1 Hv1]. simpl in Ho1, Hv1.
  destruct (keep_obs_gt_total "n_genes_by_counts" lo a1) as [a2 H2].
  { rewrite Ho1. apply Forall_on_filter. eapply Forall_impl; [exact Hm|].
    intros c [c0 ->]. rewrite cell_gt_n_genes. eauto. }
  rewrite H2. simpl. apply keep_obs_gt_filter in H2 as [Ho2 Hv2].
  destruct (keep_obs_lt_total "pct_counts_mt" cut a2) as [a3 H3].
  { rewrite Ho2, Ho1. do 2 apply Forall_on_filter. eapply Forall_impl; [exact Hm|].
    intros c [c0 ->]. rewrite cell_lt_pct_counts_mt. apply value_lt_pct_total. }
  rewrite H3. simpl. apply keep_obs_lt_filter in H3 as [Ho3 Hv3].
  exists a3. split; [done|]. split; [congruence|]. by rewrite Ho3, Ho2, Ho1.
Qed.

(** The computations of the quality control raise for no matrix (the
    plot between them apart), and their result is the input after
    the gene filter, the cell filter and the three subsets. *)
Lemma BasicFiltering_qc_spec (adata : AnnData) :
  ∃ adata' mt ribo,
    BasicFiltering_qc adata = Ok adata' ∧
    obs adata' =
      filter (λ c, cell_lt "pct_counts_mt" 10 c = Ok true)
        (filter (λ c, cell_gt "n_genes_by_counts" 200 c = Ok true)
           (filter (λ c, cell_lt "n_genes_by_counts" 5000 c = Ok true)
              (describe_obs [("mt", mt); ("ribo", ribo)]
                 <$> obs (filter_cells 200 (filter_genes 3 adata))))).
Proof.
  unfold BasicFiltering_qc.
  destruct (calculate_qc_metrics_mt_ribo_total ["mt-"] ["Rps"; "Rpl"]
              (filter_cells 200 (filter_genes 3 adata))) as [a1 H1].
  rewrite H1. simpl.
  destruct (calculate_qc_metrics_mt_ribo _ _ _ _ H1) as (mt & ribo & Hobs).
  destruct a1 as [cells genes]. simpl in Hobs. subst cells.
  destruct (qc_subsets_spec mt ribo (obs (filter_cells 200 (filter_genes 3 adata)))
              genes 5000 200 10) as (a' & Hrun & _ & Ho).
  exists a', mt, ribo. by split.
Qed.

Lemma qc_configured_shape (cfg : Config) (adata adata' : AnnData) :
  qc_configured cfg adata = Ok adata' → shape_le adata' adata.
Proof.
  unfold qc_configured. intros H.
  apply bind_Ok in H as (a1 & H1 & H). apply bind_Ok in H as (a2 & H2 & H).
  apply bind_Ok in H as (a3 & H3 & H). apply bind_Ok in H as (a4 & H4 & [= <-]).
  apply calculate_qc_metrics_shape in H1 as [Ho Hv].
  rewrite !(proj1 (set_var_by_name_shape _ _ _)) in Ho.
  rewrite !(proj2 (set_var_by_name_shape _ _ _)) in Hv.
  apply keep_obs_lt_shape in H2, H4. apply keep_obs_gt_shape in H3.
  pose proof (filter_cells_shape (min_genes cfg) (filter_genes (min_cells cfg) adata)).
  pose proof (filter_genes_shape (min_cells cfg) adata).
  unfold shape_le in *. lia.
Qed.

Lemma BasicFiltering_qc_shape (adata adata' : AnnData) :
  BasicFiltering_qc adata = Ok adata' → shape_le adata' adata.
Proof. apply (qc_configured_shape default_config). Qed.

Lemma qc_configured_default (adata : AnnData) :
  qc_configured default_config adata = BasicFiltering_qc adata.
Proof. reflexivity. Qed.

(** C1.  No step of the quality control adds cells or genes: whatever
    the thresholds, the gene filter, the cell filter, each subset by a
    column test and the normalization's own cell filter return a matrix
    with at most as many cells and at most as many genes as their input,
    and so does their sequence in [BasicFiltering], with the thresholds
    of the notebook as with any other configuration. *)
Theorem filtering_never_adds (adata : AnnData) :
  (∀ k, shape_le (filter_genes k adata) adata) ∧
  (∀ k, shape_le (filter_cells k adata) adata) ∧
  (∀ col q adata', keep_obs_lt col q adata = Ok adata' → shape_le adata' adata) ∧
  (∀ col q adata', keep_obs_gt col q adata = Ok adata' → shape_le adata' adata) ∧
  (∀ t, shape_le (normalize_per_cell t adata) adata) ∧
  (∀ adata', BasicFiltering_qc adata = Ok adata' → shape_le adata' adata) ∧
  (∀ cfg adata', qc_configured cfg adata = Ok adata' → shape_le adata' adata).
Proof.
  repeat split.
  - pose proof (filter_genes_shape k adata). lia.
  - apply filter_genes_shape.
  - apply filter_cells_shape.
  - pose proof (filter_cells_shape k adata). lia.
  - by eapply keep_obs_lt_shape.
  - by eapply keep_obs_lt_shape.
  - by eapply keep_obs_gt_shape.
  - by eapply keep_obs_gt_shape.
  - apply normalize_per_cell_shape.
  - pose proof (normalize_per_cell_shape t adata). lia.
  - by eapply BasicFiltering_qc_shape.
  - by eapply BasicFiltering_qc_shape.
  - by eapply qc_configured_shape.
  - by eapply qc_configured_shape.
Qed.

(** On the dense sample the quality control runs to the end and leaves
    two of the five cells and all 250 genes. *)
Lemma dense_sample_qc :
  (λ adata, (obs_names adata, n_vars adata)) <$> BasicFiltering_qc dense_sample
  = Ok (["AAAG"; "AACA"], 250).
Proof. vm_compute. reflexivity. Qed.

Lemma filtering_never_adds_witness :
  ∃ adata', BasicFiltering_qc dense_sample = Ok adata' ∧
            obs_names adata' = ["AAAG"; "AACA"] ∧ n_vars adata' = 250 ∧
            shape_le adata' dense_sample.
Proof.
  pose proof dense_sample_qc as Hrun.
  destruct (BasicFiltering_qc dense_sample) as [adata'|e] eqn:H; [|discriminate Hrun].
  injection Hrun as Hobs Hvars.
  exists adata'. split; [reflexivity|]. split; [exact Hobs|]. split; [exact Hvars|].
  apply (filtering_never_adds dense_sample). exact H.
Defined.

(** ** The mitochondrial cutoff *)

Lemma cell_lt_Num (col : string) (q p : Q) (c : Cell) :
  annot c !! col = Some (Num p) →
  cell_lt col q c = Ok true ↔ (p < q)%Q.
Proof.
  intros Hp. unfold cell_lt. rewrite Hp. simpl. rewrite <- Qlt_bool_lt.
  split; [by intros [= ->] | by intros ->].
Qed.

(** The metrics computed from the counts of [mito_sample] are the
    percentages 15, 10 and 5, and only the last cell passes the step. *)
Lemma mito_sample_percentages :
  ∃ adata p1 p2 p3,
    calculate_qc_metrics ["mt"; "ribo"] (flagged mito_sample) = Ok adata ∧
    obs_column "pct_counts_mt" adata = Ok [Num p1; Num p2; Num p3] ∧
    (p1 == 15 ∧ p2 == 10 ∧ p3 == 5)%Q ∧
    (obs_names <$> keep_obs_lt "pct_counts_mt" 10 adata) = Ok ["AAAT"].
Proof.
  assert (((λ adata, obs_column "pct_counts_mt" adata) <$>
             calculate_qc_metrics ["mt"; "ribo"] (flagged mito_sample))
          = Ok (Ok [Num (1500 # 100); Num (1000 # 100); Num (500 # 100)])) as Hcol
    by (vm_compute; reflexivity).
  assert ((calculate_qc_metrics ["mt"; "ribo"] (flagged mito_sample)
             ≫= λ adata, obs_names <$> keep_obs_lt "pct_counts_mt" 10 adata)
          = Ok ["AAAT"]) as Hkeep by (vm_compute; reflexivity).
  destruct (calculate_qc_metrics ["mt"; "ribo"] (flagged mito_sample)) as [adata|e];
    [|discriminate Hcol].
  injection Hcol as Hcol. simpl in Hkeep.
  exists adata, (1500 # 100)%Q, (1000 # 100)%Q, (500 # 100)%Q.
  repeat split; done.
Qed.

(** C3, as stated, fails on the code: the cell whose mitochondrial
    percentage is exactly 10 is dropped together with the cell at 15. *)
Lemma mito_cutoff_drops_boundary_cell :
  keep_obs_lt "pct_counts_mt" 10 mito_measured
    = Ok (subset_obs [false; false; true] mito_measured) ∧
  (measured_cell "AAAG" 10 [10; 90]%Q
     ∉ obs (subset_obs [false; false; true] mito_measured)) ∧
  ¬ drops_only_above 10.
Proof.
  assert (keep_obs_lt "pct_counts_mt" 10 mito_measured
          = Ok (subset_obs [false; false; true] mito_measured)) as Hrun by reflexivity.
  assert (measured_cell "AAAG" 10 [10; 90]%Q
          ∉ obs (subset_obs [false; false; true] mito_measured)) as Hout.
  { simpl. intros Hin%list_elem_of_singleton. discriminate Hin. }
  split; [done|]. split; [done|].
  intros Hclaim.
  specialize (Hclaim mito_measured _ (measured_cell "AAAG" 10 [10; 90]%Q) 10%Q Hrun).
  apply Hclaim in Hout.
  - by apply Qlt_irrefl in Hout.
  - simpl. apply list_elem_of_further, list_elem_of_here.
  - reflexivity.
Qed.

(** C3, amended.  The mitochondrial step of [BasicFiltering] keeps a
    cell exactly when its percentage is strictly below 10: a cell at 15
    is dropped, and so is a cell at exactly 10.  It changes no gene, and
    every cell that leaves the quality control passed this test. *)
Theorem mito_step_keeps_strictly_below (adata adata' : AnnData) :
  keep_obs_lt "pct_counts_mt" 10 adata = Ok adata' →
  var adata' = var adata ∧
  (∀ c, c ∈ obs adata' ↔ c ∈ obs adata ∧ cell_lt "pct_counts_mt" 10 c = Ok true) ∧
  (∀ c p, c ∈ obs adata → annot c !! "pct_counts_mt" = Some (Num p) →
          (c ∈ obs adata' ↔ (p < 10)%Q) ∧
          ((p == 15)%Q → c ∉ obs adata') ∧
          ((p == 10)%Q → c ∉ obs adata')) ∧
  (∀ raw out, BasicFiltering_qc raw = Ok out →
              ∀ c, c ∈ obs out → cell_lt "pct_counts_mt" 10 c = Ok true).
Proof.
  intros [Hobs Hvar]%keep_obs_lt_filter.
  assert (∀ c, c ∈ obs adata' ↔ c ∈ obs adata ∧ cell_lt "pct_counts_mt" 10 c = Ok true) as Hin.
  { intros c. rewrite Hobs, list_elem_of_filter. tauto. }
  split; [done|]. split; [done|]. split.
  - intros c p Hc Hp.
    assert (c ∈ obs adata' ↔ (p < 10)%Q) as Hiff.
    { rewrite Hin, (cell_lt_Num _ _ p) by done. tauto. }
    split; [done|]. rewrite Hiff. split; intros -> Hlt; by vm_compute in Hlt.
  - intros raw out Hrun c Hc.
    destruct (BasicFiltering_qc_spec raw) as (out' & mt & ribo & Hrun' & Hout).
    rewrite Hrun in Hrun'. injection Hrun' as <-.
    rewrite Hout in Hc. by apply list_elem_of_filter in Hc as [? _].
Qed.

Lemma mito_step_keeps_strictly_below_witness :
  obs_names (subset_obs [false; false; true] mito_measured) = ["AAAT"] ∧
  var (subset_obs [false; false; true] mito_measured) = var mito_measured.
Proof.
  split; [reflexivity|].
  apply (mito_step_keeps_strictly_below mito_measured
           (subset_obs [false; false; true] mito_measured)).
  reflexivity.
Defined.

(** ** The two lower bounds on the genes of a cell *)

Lemma filter_ext_in {A} (P Q : A → Prop) `{∀ x, Decision (P x), ∀ x, Decision (Q x)}
    (l : list A) :
  (∀ x, x ∈ l → P x ↔ Q x) → filter P l = filter Q l.
Proof.
  induction l as [|x l IH]; intros Hl; [done|].
  rewrite !filter_cons, IH by (intros y Hy; apply Hl; by right).
  pose proof (Hl x (list_elem_of_here _ _)).
  repeat case_decide; tauto || done.
Qed.

Lemma filter_all {A} (P : A → Prop) `{∀ x, Decision (P x)} (l : list A) :
  Forall P l → filter P l = l.
Proof.
  induction 1 as [|x l Hx _ IH]; [done|]. by rewrite filter_cons_True, IH.
Qed.

Lemma count_expressed_le_nonzero (row : list Q) :
  count_if expressed row ≤ count_if nonzero row.
Proof.
  unfold count_if. induction row as [|x row IH]; [done|].
  rewrite !filter_cons. pose proof (expressed_nonzero x).
  destruct (expressed x), (nonzero x); simpl in *; lia.
Qed.

(** The cells that [filter_cells] keeps, each with its new column. *)
Lemma filter_cells_obs (k : nat) (adata : AnnData) :
  obs (filter_cells k adata)
  = (λ c, set_annot "n_genes" (Num (of_count (count_if expressed (counts c)))) c)
      <$> filter (λ c, k ≤ count_if expressed (counts c)) (obs adata).
Proof.
  unfold filter_cells. simpl. induction (obs adata) as [|c l IH]; [done|].
  rewrite !fmap_cons, filter_cons. simpl. rewrite IH.
  case_bool_decide; case_decide; done || lia.
Qed.

Lemma filter_cells_expressed (k : nat) (adata : AnnData) :
  Forall (λ c, k ≤ count_if expressed (counts c)) (obs (filter_cells k adata)).
Proof.
  rewrite filter_cells_obs. apply Forall_fmap, Forall_forall.
  by intros c [Hc _]%list_elem_of_filter.
Qed.

(** On measured cells that express at least 200 genes, the subset
    [n_genes_by_counts > 200] removes the cells with exactly 200
    non-zero entries and no other. *)
Lemma low_count_step_on_measured (qc : list (string * list bool))
    (cells sub : list Cell) (genes : list Gene) :
  Forall (λ c, 200 ≤ count_if expressed (counts c)) cells →
  sub ⊆ describe_obs qc <$> cells →
  ∃ adata', keep_obs_gt "n_genes_by_counts" 200 {| obs := sub; var := genes |} = Ok adata' ∧
            var adata' = genes ∧
            obs adata' = filter (λ c, count_if nonzero (counts c) ≠ 200) sub.
Proof.
  intros Hcells Hsub.
  assert (∀ c, c ∈ sub →
            200 ≤ count_if nonzero (counts c) ∧
            cell_gt "n_genes_by_counts" 200 c
              = Ok (Qlt_bool (of_count 200) (of_count (count_if nonzero (counts c)))))
    as Hmeasured.
  { intros c Hc. apply Hsub, list_elem_of_fmap in Hc as (c0 & -> & Hc0).
    rewrite cell_gt_n_genes. destruct (describe_obs_row qc c0) as [_ ->].
    split; [|done]. rewrite Forall_forall in Hcells.
    etrans; [by apply Hcells | apply count_expressed_le_nonzero]. }
  destruct (keep_obs_gt_total "n_genes_by_counts" 200 {| obs := sub; var := genes |})
    as [adata' Hrun].
  { simpl. apply Forall_forall. intros c Hc.
    destruct (Hmeasured c Hc) as [_ ->]. eauto. }
  exists adata'. split; [done|].
  apply keep_obs_gt_filter in Hrun as [-> ->]. split; [done|]. simpl.
  apply filter_ext_in. intros c Hc. destruct (Hmeasured c Hc) as [Hge ->].
  split.
  - intros [= Hlt]. apply Qlt_bool_of_count in Hlt. lia.
  - intros Hne. f_equal. apply Qlt_bool_of_count. lia.
Qed.

(** C4, as stated, fails on the code: a cell that expresses exactly 200
    genes passes [filter_cells] with [min_genes=200] and is removed by
    [n_genes_by_counts > 200]. *)
Lemma low_count_step_drops_cell_with_200_genes :
  obs_names (filter_cells 200 (one_cell 200)) = ["AAAC"] ∧
  (calculate_qc_metrics ["mt"; "ribo"] (flagged (filter_cells 200 (one_cell 200)))
     ≫= λ adata, obs_names <$> keep_obs_gt "n_genes_by_counts" 200 adata) = Ok [] ∧
  ¬ low_count_step_redundant.
Proof.
  assert ((calculate_qc_metrics ["mt"; "ribo"] (flagged (filter_cells 200 (one_cell 200)))
             ≫= λ adata, obs_names <$> keep_obs_gt "n_genes_by_counts" 200 adata) = Ok [])
    as Hrun by (vm_compute; reflexivity).
  assert (n_obs <$> calculate_qc_metrics ["mt"; "ribo"] (flagged (filter_cells 200 (one_cell 200)))
          = Ok 1) as Hone by (vm_compute; reflexivity).
  split; [vm_compute; reflexivity|]. split; [done|].
  intros Hclaim.
  destruct (calculate_qc_metrics ["mt"; "ribo"] (flagged (filter_cells 200 (one_cell 200))))
    as [adata|e] eqn:Hqc; [|discriminate Hone].
  destruct (Hclaim _ _ Hqc) as (adata' & Hkeep & Hobs).
  simpl in Hrun, Hone. rewrite Hkeep in Hrun. simpl in Hrun.
  injection Hrun as Hrun. injection Hone as Hone.
  unfold obs_names in Hrun. unfold n_obs in Hone.
  rewrite Hobs in Hrun. apply fmap_nil_inv in Hrun. by rewrite Hrun in Hone.
Qed.

(** C4, amended.  On a matrix that passed the cell filter with 200, the
    subset [n_genes_by_counts > 200] removes exactly the cells with
    exactly 200 non-zero entries, so it removes nothing if and only if
    there is no such cell; the genes are untouched.  The same holds where
    the step stands in [BasicFiltering], after the upper bound. *)
Theorem low_count_step_removes_cells_at_200 (raw adata : AnnData) :
  calculate_qc_metrics ["mt"; "ribo"] (flagged (filter_cells 200 raw)) = Ok adata →
  (∃ adata', keep_obs_gt "n_genes_by_counts" 200 adata = Ok adata' ∧
             var adata' = var adata ∧
             obs adata' = filter (λ c, count_if nonzero (counts c) ≠ 200) (obs adata) ∧
             (obs adata' = obs adata ↔
              Forall (λ c, count_if nonzero (counts c) ≠ 200) (obs adata))) ∧
  (∀ q below, keep_obs_lt "n_genes_by_counts" q adata = Ok below →
     ∃ adata', keep_obs_gt "n_genes_by_counts" 200 below = Ok adata' ∧
               obs adata' = filter (λ c, count_if nonzero (counts c) ≠ 200) (obs below)).
Proof.
  intros Hqc.
  destruct (calculate_qc_metrics_mt_ribo _ _ _ _ Hqc) as (mt & ribo & Hobs).
  pose proof (filter_cells_expressed 200 raw) as Hcells.
  split.
  - destruct (low_count_step_on_measured [("mt", mt); ("ribo", ribo)]
                (obs (filter_cells 200 raw)) (obs adata) (var adata) Hcells)
      as (adata' & Hrun & Hvar & Hkeep).
    { by rewrite Hobs. }
    exists adata'. destruct adata as [cells genes]. simpl in *.
    split; [done|]. split; [done|]. split; [done|]. rewrite Hkeep. split.
    + intros Heq. apply Forall_forall. intros c Hc.
      rewrite <- Heq in Hc. by apply list_elem_of_filter in Hc as [? _].
    + apply filter_all.
  - intros q below [Hb Hv]%keep_obs_lt_filter.
    destruct (low_count_step_on_measured [("mt", mt); ("ribo", ribo)]
                (obs (filter_cells 200 raw)) (obs below) (var below) Hcells)
      as (adata' & Hrun & _ & Hkeep).
    { rewrite Hb, Hobs. apply list_subseteq_filter. }
    exists adata'. destruct below as [cells genes]. by split.
Qed.

Lemma low_count_step_removes_cells_at_200_witness :
  ∃ adata adata',
    calculate_qc_metrics ["mt"; "ribo"] (flagged (filter_cells 200 dense_sample)) = Ok adata ∧
    obs_names adata = ["AAAC"; "AAAG"; "AAAT"; "AACA"] ∧
    keep_obs_gt "n_genes_by_counts" 200 adata = Ok adata' ∧
    obs adata' = filter (λ c, count_if nonzero (counts c) ≠ 200) (obs adata).
Proof.
  assert (obs_names <$> calculate_qc_metrics ["mt"; "ribo"] (flagged (filter_cells 200 dense_sample))
          = Ok ["AAAC"; "AAAG"; "AAAT"; "AACA"]) as Hnames by (vm_compute; reflexivity).
  destruct (calculate_qc_metrics ["mt"; "ribo"] (flagged (filter_cells 200 dense_sample)))
    as [adata|e] eqn:Hqc; [|discriminate Hnames].
  injection Hnames as Hnames.
  destruct (low_count_step_removes_cells_at_200 dense_sample adata Hqc)
    as [(adata' & Hrun & _ & Hkeep & _) _].
  exists adata, adata'. split; [reflexivity|]. split; [exact Hnames|].
  split; [exact Hrun | exact Hkeep].
Defined.

(** ** The thresholds of [BasicFiltering] *)

Lemma elem_of_filter_mask_zip_with {A B C} (f : B → bool) (h : A → B → C)
    (l : list A) (nums : list B) (x : C) :
  x ∈ filter_mask (f <$> nums) (zip_with h l nums) →
  ∃ a n, a ∈ l ∧ x = h a n ∧ f n = true.
Proof.
  revert nums. induction l as [|a l IH]; intros [|n nums]; simpl;
    try by intros ?%elem_of_nil.
  rewrite ?fmap_cons. simpl. destruct (f n) eqn:Hn.
  - intros [->|Hx]%elem_of_cons.
    + exists a, n. split; [left|done].
    + destruct (IH _ Hx) as (a' & n' & ? & ? & ?). exists a', n'. split; [by right|done].
  - intros Hx. destruct (IH _ Hx) as (a' & n' & ? & ? & ?).
    exists a', n'. split; [by right|done].
Qed.

(** The genes that [filter_genes] keeps are expressed in at least
    [min_cells] cells, and say so in [n_cells]. *)
Lemma filter_genes_var (k : nat) (adata : AnnData) (g : Gene) :
  g ∈ var (filter_genes k adata) →
  ∃ g0 n, g0 ∈ var adata ∧ g = set_gannot "n_cells" (Num (of_count n)) g0 ∧ k ≤ n.
Proof.
  unfold filter_genes. simpl. intros Hg.
  apply elem_of_filter_mask_zip_with in Hg as (g0 & n & Hg0 & -> & Hn).
  exists g0, n. split; [done|]. split; [done|]. by apply bool_decide_eq_true in Hn.
Qed.





(** ** Normalization per cell *)

Lemma Qsum_cons (x : Q) (l : list Q) : Qsum (x :: l) = (x + Qsum l)%Q.
Proof. reflexivity. Qed.

Lemma Qsum_div (k : Q) (l : list Q) :
  (Qsum ((λ x, x / k) <$> l) == Qsum l / k)%Q.
Proof.
  induction l as [|x l IH].
  - simpl. unfold Qdiv. ring.
  - rewrite fmap_cons, !Qsum_cons, IH. unfold Qdiv. ring.
Qed.

(** What [normalize_per_cell] does to one row that it keeps. *)
Lemma normalize_per_cell_obs (t : Q) (adata : AnnData) :
  obs (normalize_per_cell t adata)
  = (λ c, set_counts
            ((λ x, x / ((if Qeq_bool (Qsum (counts c)) 0 then Qsum (counts c) + 1
                         else Qsum (counts c)) / t))%Q <$> counts c)
            (set_annot "n_counts" (Num (Qsum (counts c))) c))
      <$> filter (λ c, Qle_bool 1 (Qsum (counts c))) (obs adata).
Proof. unfold normalize_per_cell. simpl. by rewrite filter_mask_fmap. Qed.

Lemma positive_sum_nonzero (n : Q) : (1 <= n)%Q → Qeq_bool n 0 = false.
Proof.
  intros Hn. apply not_true_is_false. intros Heq%Qeq_bool_eq.
  rewrite Heq in Hn. by vm_compute in Hn.
Qed.

(** A kept row whose sum is [n] is divided by [n / t]. *)
Lemma normalized_row_sum (t n : Q) (row : list Q) :
  (1 <= n)%Q → ¬ (t == 0)%Q → (Qsum row == n)%Q →
  (Qsum ((λ x, x / (n / t)) <$> row) == t)%Q.
Proof.
  intros Hn Ht Hrow. rewrite Qsum_div, Hrow. field. split; [done|].
  intros Heq. rewrite Heq in Hn. by vm_compute in Hn.
Qed.

Lemma normalized_row_fixed (t n : Q) (row : list Q) :
  ¬ (t == 0)%Q → (n == t)%Q →
  Forall2 Qeq ((λ x, x / (n / t))%Q <$> row) row.
Proof.
  intros Ht Hn. apply Forall2_fmap_l, Forall_Forall2_diag, Forall_forall.
  intros x _. simpl. rewrite Hn. by field.
Qed.

(** After the normalization every row sums to the target. *)
Lemma normalize_per_cell_reaches_target (t : Q) (adata : AnnData) :
  ¬ (t == 0)%Q →
  Forall (λ c, (Qsum (counts c) == t)%Q) (obs (normalize_per_cell t adata)).
Proof.
  intros Ht. rewrite normalize_per_cell_obs. apply Forall_fmap, Forall_forall.
  intros c [Hc _]%list_elem_of_filter. simpl.
  apply Is_true_true, Qle_bool_iff in Hc.
  rewrite (positive_sum_nonzero _ Hc). by apply normalized_row_sum.
Qed.

(** A matrix whose rows sum to the target is left as it is, up to
    equality of rationals. *)
Lemma normalize_per_cell_fixed (t : Q) (adata : AnnData) :
  (1 <= t)%Q →
  Forall (λ c, (Qsum (counts c) == t)%Q) (obs adata) →
  Forall2 (λ c' c, barcode c' = barcode c ∧
                   Forall2 Qeq (counts c') (counts c) ∧
                   (Qsum (counts c') == Qsum (counts c))%Q)
          (obs (normalize_per_cell t adata)) (obs adata).
Proof.
  intros Ht Hsum.
  assert (¬ (t == 0)%Q) as Ht0.
  { intros Heq. rewrite Heq in Ht. by vm_compute in Ht. }
  rewrite normalize_per_cell_obs, filter_all.
  - apply Forall2_fmap_l, Forall_Forall2_diag.
    eapply Forall_impl; [exact Hsum|]. intros c Hc. simpl.
    assert (1 <= Qsum (counts c))%Q as Hge by by rewrite Hc.
    rewrite (positive_sum_nonzero _ Hge).
    split; [done|]. split; [by apply normalized_row_fixed|].
    rewrite Hc. apply normalized_row_sum; done.
  - eapply Forall_impl; [exact Hsum|]. intros c Hc. simpl.
    apply Is_true_true, Qle_bool_iff. by rewrite Hc.
Qed.

(** ** The constants of [BasicFiltering] *)

Lemma filter_fmap {A B} (P : B → Prop) `{∀ x, Decision (P x)} (f : A → B) (l : list A) :
  filter P (f <$> l) = f <$> filter (λ x, P (f x)) l.
Proof.
  induction l as [|x l IH]; [done|].
  rewrite fmap_cons, !filter_cons, IH. by case_decide.
Qed.

(** The metrics use the two flag columns as they were just written. *)
Lemma calculate_qc_metrics_flags (mt_p ribo_p : list string) (adata : AnnData) :
  ∃ adata',
    calculate_qc_metrics ["mt"; "ribo"]
      (set_var_by_name "ribo" (startswith ribo_p)
         (set_var_by_name "mt" (startswith mt_p) adata)) = Ok adata' ∧
    obs adata' = describe_obs [("mt", prefix_flags mt_p adata);
                               ("ribo", prefix_flags ribo_p adata)] <$> obs adata.
Proof.
  unfold calculate_qc_metrics. simpl.
  rewrite (var_flags_set_other "mt" "ribo"), var_flags_startswith by done.
  rewrite var_flags_startswith. simpl. eexists. split; [reflexivity|]. simpl.
  unfold prefix_flags, var_names. by rewrite <- !list_fmap_compose.
Qed.

Lemma BasicFiltering_qc_flags (adata : AnnData) :
  let kept := filter_cells 200 (filter_genes 3 adata) in
  ∃ out,
    BasicFiltering_qc adata = Ok out ∧
    obs out =
      filter (λ c, cell_lt "pct_counts_mt" 10 c = Ok true)
        (filter (λ c, cell_gt "n_genes_by_counts" 200 c = Ok true)
           (filter (λ c, cell_lt "n_genes_by_counts" 5000 c = Ok true)
              (describe_obs [("mt", prefix_flags ["mt-"] kept);
                             ("ribo", prefix_flags ["Rps"; "Rpl"] kept)] <$> obs kept))).
Proof.
  intros kept. unfold BasicFiltering_qc. fold kept.
  destruct (calculate_qc_metrics_flags ["mt-"] ["Rps"; "Rpl"] kept) as (a1 & H1 & Hobs).
  rewrite H1. simpl.
  destruct a1 as [cells genes]. simpl in Hobs. subst cells.
  destruct (qc_subsets_spec (prefix_flags ["mt-"] kept) (prefix_flags ["Rps"; "Rpl"] kept)
              (obs kept) genes 5000 200 10) as (a' & Hrun & _ & Ho).
  exists a'. by split.
Qed.

(** A call of [BasicFiltering] that returns has passed its quality
    control, and returns what the normalization makes of the matrix that
    left it. *)
Lemma BasicFiltering_through_qc (sc : Scanpy) (adata final : AnnData) :
  BasicFiltering sc adata = Ok final →
  ∃ out, BasicFiltering_qc adata = Ok out ∧ BasicFiltering_normalize sc out = Ok final.
Proof.
  unfold BasicFiltering, BasicFiltering_qc. intros H.
  apply bind_Ok in H as (u & _ & H). apply bind_Ok in H as (measured & Hm & H).
  apply bind_Ok in H as (u' & _ & H). apply bind_Ok in H as (a1 & H1 & H).
  apply bind_Ok in H as (a2 & H2 & H). apply bind_Ok in H as (a3 & H3 & H).
  rewrite Hm. simpl. rewrite H1. simpl. rewrite H2. simpl. rewrite H3. simpl.
  by exists a3.
Qed.





(** C6.  Normalizing a matrix whose rows already sum to the target
    changes no row sum; it keeps every cell, in order and under its
    barcode, every entry up to equality of rationals, and the genes.  In
    particular a second normalization with the same target leaves the row
    sums of the first.  (The target is at least the library's
    [min_counts] of 1, as the notebook's 1000 is.) *)
Theorem normalize_per_cell_idempotent (t : Q) (adata : AnnData) :
  (1 <= t)%Q →
  (Forall (λ c, (Qsum (counts c) == t)%Q) (obs adata) →
   var (normalize_per_cell t adata) = var adata ∧
   Forall2 (λ c' c, barcode c' = barcode c ∧
                    Forall2 Qeq (counts c') (counts c) ∧
                    (Qsum (counts c') == Qsum (counts c))%Q)
           (obs (normalize_per_cell t adata)) (obs adata)) ∧
  Forall2 (λ c' c, barcode c' = barcode c ∧
                   (Qsum (counts c') == Qsum (counts c))%Q)
          (obs (normalize_per_cell t (normalize_per_cell t adata)))
          (obs (normalize_per_cell t adata)).
Proof.
  intros Ht. split.
  - intros Hsum. split; [done | by apply normalize_per_cell_fixed].
  - assert (¬ (t == 0)%Q) as Ht0.
    { intros Heq. rewrite Heq in Ht. by vm_compute in Ht. }
    pose proof (normalize_per_cell_fixed t (normalize_per_cell t adata) Ht
                  (normalize_per_cell_reaches_target t adata Ht0)) as H.
    eapply Forall2_impl; [exact H|]. simpl. tauto.
Qed.

Lemma normalize_per_cell_idempotent_witness :
  var (normalize_per_cell 1000 normalized_sample) = var normalized_sample ∧
  Forall2 (λ c' c, barcode c' = barcode c ∧
                   Forall2 Qeq (counts c') (counts c) ∧
                   (Qsum (counts c') == Qsum (counts c))%Q)
          (obs (normalize_per_cell 1000 normalized_sample)) (obs normalized_sample).
Proof.
  destruct (normalize_per_cell_idempotent 1000 normalized_sample) as [Hfixed _].
  - vm_compute. discriminate.
  - apply Hfixed. repeat constructor; vm_compute; reflexivity.
Defined.

(** ** The shared genes *)

Lemma elem_of_unique (l : list string) (x : string) : x ∈ unique l ↔ x ∈ l.
Proof.
  induction l as [|y l IH]; [done|]. simpl.
  rewrite !elem_of_cons, list_elem_of_filter, IH.
  destruct (decide (x = y)); tauto.
Qed.

Lemma NoDup_unique (l : list string) : NoDup (unique l).
Proof.
  induction l as [|y l IH]; simpl; [constructor|].
  apply NoDup_cons. split.
  - rewrite list_elem_of_filter. tauto.
  - by apply NoDup_filter.
Qed.

Lemma unique_sublist (l : list string) : unique l `sublist_of` l.
Proof.
  induction l as [|y l IH]; simpl; [constructor|].
  apply sublist_skip. etrans; [apply sublist_filter | exact IH].
Qed.

Lemma unique_NoDup (l : list string) : NoDup l → unique l = l.
Proof.
  induction 1 as [|y l Hy _ IH]; [done|]. simpl. rewrite IH. f_equal.
  apply filter_all, Forall_forall. by intros x Hx ->.
Qed.

Lemma elem_of_intersection (self other : list string) (x : string) :
  x ∈ intersection self other ↔ x ∈ self ∧ x ∈ other.
Proof. unfold intersection. rewrite list_elem_of_filter, elem_of_unique. tauto. Qed.

Lemma NoDup_intersection (self other : list string) : NoDup (intersection self other).
Proof. apply NoDup_filter, NoDup_unique. Qed.

Lemma intersection_sublist (self other : list string) :
  intersection self other `sublist_of` self.
Proof. etrans; [apply sublist_filter | apply unique_sublist]. Qed.

Lemma intersection_self (l : list string) : NoDup l → intersection l l = l.
Proof.
  intros Hl. unfold intersection. rewrite (unique_NoDup l Hl).
  apply filter_all, Forall_forall. auto.
Qed.

(** ** Columns by label *)

Lemma select_var_spec (names : list string) (adata adata' : AnnData) :
  select_var names adata = Ok adata' →
  var_names adata' = names ∧
  Forall (λ g, g ∈ var adata) (var adata') ∧
  Forall2 (λ c' c, barcode c' = barcode c ∧ annot c' = annot c) (obs adata') (obs adata).
Proof.
  unfold select_var. intros H. apply bind_Ok in H as (picked & Hp & H).
  injection H as <-. apply mapM_Ok in Hp. unfold var_names. simpl.
  split; [|split].
  - induction Hp as [|name [j g] names picked Hfind _ IH]; [done|].
    rewrite !fmap_cons. simpl. rewrite IH. f_equal.
    destruct (list_find _ _) as [[j' g']|] eqn:Hf; [|discriminate Hfind].
    injection Hfind as -> ->. by apply list_find_Some in Hf as (_ & Hs & _).
  - apply Forall_fmap, Forall_forall. intros [j g] Hin. simpl.
    apply list_elem_of_lookup_1 in Hin as [i Hi].
    destruct (Forall2_lookup_r _ _ _ _ _ Hp Hi) as (name & _ & Hfind).
    destruct (list_find _ _) as [[j' g']|] eqn:Hf; [|discriminate Hfind].
    injection Hfind as -> ->. apply list_find_Some in Hf as (Hl & _ & _).
    by eapply list_elem_of_lookup_2.
  - apply Forall2_fmap_l, Forall_Forall2_diag, Forall_forall. by intros c _.
Qed.

Lemma select_var_total (names : list string) (adata : AnnData) :
  names ⊆ var_names adata → ∃ adata', select_var names adata = Ok adata'.
Proof.
  intros Hsub. unfold select_var.
  destruct (mapM_total (λ name, or_raise (KeyError name)
              (list_find (λ g, symbol g = name) (var adata))) names) as [picked ->].
  - apply Forall_forall. intros name Hname.
    apply Hsub, list_elem_of_fmap in Hname as (g & -> & Hg).
    destruct (list_find_elem_of (λ g', symbol g' = symbol g) (var adata) g Hg eq_refl)
      as [p ->]. by exists p.
  - simpl. eauto.
Qed.

(** C7.  The shared genes of two matrices are the same set whichever
    operand comes first; the list itself is fixed by the operands: the
    genes that occur in both, each once, in the order of the left
    operand, and this is the column order of a matrix restricted to
    them.  The gene sets A, B, C and B, C, D share exactly B, C. *)
Theorem intersection_commutes_as_set (self other : list string) :
  (∀ g, g ∈ intersection self other ↔ g ∈ intersection other self) ∧
  list_to_set (intersection self other) =@{gset string} list_to_set (intersection other self) ∧
  (∀ g, g ∈ intersection self other ↔ g ∈ self ∧ g ∈ other) ∧
  NoDup (intersection self other) ∧
  intersection self other `sublist_of` self ∧
  intersection ["A"; "B"; "C"] ["B"; "C"; "D"] = ["B"; "C"] ∧
  intersection ["B"; "C"; "D"] ["A"; "B"; "C"] = ["B"; "C"] ∧
  (∀ adata adata', select_var (intersection self other) adata = Ok adata' →
                   var_names adata' = intersection self other).
Proof.
  assert (∀ g, g ∈ intersection self other ↔ g ∈ intersection other self) as Hcomm.
  { intros g. rewrite !elem_of_intersection. tauto. }
  split; [done|]. split.
  { apply set_eq. intros g. by rewrite !elem_of_list_to_set. }
  split; [apply elem_of_intersection|]. split; [apply NoDup_intersection|].
  split; [apply intersection_sublist|]. split; [reflexivity|]. split; [reflexivity|].
  intros adata adata' H. by apply select_var_spec in H as [? _].
Qed.

Lemma intersection_commutes_as_set_witness :
  ∃ adata', select_var (intersection (var_names sample_abc) (var_names sample_bcd)) sample_bcd
              = Ok adata' ∧
            X adata' = [[7; 8]]%Q ∧
            var_names adata' = intersection (var_names sample_abc) (var_names sample_bcd).
Proof.
  eexists. split; [reflexivity|]. split; [reflexivity|].
  destruct (intersection_commutes_as_set (var_names sample_abc) (var_names sample_bcd))
    as (_ & _ & _ & _ & _ & _ & _ & Horder).
  apply (Horder sample_bcd). reflexivity.
Defined.

(** ** Unique gene symbols *)

Lemma str_inj (m n : nat) : str m = str n → m = n.
Proof.
  unfold str. intros H.
  assert (Some (Nat.to_uint m) = Some (Nat.to_uint n)) as Hu.
  { by rewrite <- !NilEmpty.usu, H. }
  injection Hu as Hu. by apply DecimalNat.Unsigned.to_uint_inj.
Qed.

Lemma suffixed_inj (v : string) (j k : nat) : suffixed v j = suffixed v k → j = k.
Proof.
  unfold suffixed. intros H. apply (inj (String.app v)) in H.
  simpl in H. injection H as H. by apply str_inj.
Qed.

(** The search depends only on which later candidates are in use. *)
Lemma next_free_ext (fuel : nat) (v : string) (used used' : gset string) (k : nat) :
  (∀ j, k < j → suffixed v j ∈ used ↔ suffixed v j ∈ used') →
  next_free fuel v used k = next_free fuel v used' k.
Proof.
  revert k. induction fuel as [|fuel IH]; intros k Hsame; [done|]. simpl.
  pose proof (Hsame (S k) (Nat.lt_succ_diag_r k)) as Hk.
  repeat case_decide; try tauto.
  apply IH. intros j Hj. apply Hsame. lia.
Qed.

(** More steps than there are names in use always find a free name. *)
Lemma next_free_total (fuel : nat) (v : string) (used : gset string) (k : nat) :
  size used < fuel → ∃ r, next_free fuel v used k = Some r.
Proof.
  revert used k. induction fuel as [|fuel IH]; intros used k Hsize; [lia|]. simpl.
  case_decide as Hin; [|eauto].
  rewrite (next_free_ext fuel v used (used ∖ {[suffixed v (S k)]})).
  - apply IH. rewrite size_difference by set_solver. rewrite size_singleton.
    assert (size used ≠ 0); [|lia].
    intros Hz%size_empty_inv. set_solver.
  - intros j Hj. rewrite elem_of_difference, elem_of_singleton.
    split; [|tauto]. intros Hused. split; [done|].
    intros Heq%suffixed_inj. lia.
Qed.

Lemma next_free_fresh (fuel : nat) (v : string) (used : gset string) (k k' : nat)
    (name : string) :
  next_free fuel v used k = Some (name, k') →
  (name ∉ used) ∧ name = suffixed v k' ∧ k < k'.
Proof.
  revert k. induction fuel as [|fuel IH]; intros k; [done|]. simpl.
  case_decide as Hin.
  - intros H. destruct (IH _ H) as (? & ? & ?). repeat split; [done..|lia].
  - intros [= <- <-]. repeat split; [done|lia].
Qed.

Lemma make_unique_from_cons (v : string) (index : list string)
    (first_seen values_set : gset string) (counter : gmap string nat) :
  make_unique_from (v :: index) first_seen values_set counter =
  if decide (v ∈ first_seen) then
    '(name, k) ← next_free (S (size values_set)) v values_set (default 0 (counter !! v));
    rest ← make_unique_from index first_seen ({[name]} ∪ values_set) (<[v := k]> counter);
    Some (name :: rest)
  else
    rest ← make_unique_from index ({[v]} ∪ first_seen) values_set counter;
    Some (v :: rest).
Proof. reflexivity. Qed.

(** The renaming never runs out of steps. *)
Lemma make_unique_from_total (index : list string) (first_seen values_set : gset string)
    (counter : gmap string nat) :
  ∃ out, make_unique_from index first_seen values_set counter = Some out.
Proof.
  revert first_seen values_set counter.
  induction index as [|v index IH]; intros fs vs counter; [by exists []|].
  rewrite make_unique_from_cons. case_decide.
  - destruct (next_free_total (S (size vs)) v vs (default 0 (counter !! v)))
      as [[name k] Hfree]; [lia|].
    rewrite Hfree. cbn [mbind option_bind].
    destruct (IH fs ({[name]} ∪ vs) (<[v:=k]> counter)) as [rest ->].
    cbn [mbind option_bind]. eauto.
  - destruct (IH ({[v]} ∪ fs) vs counter) as [rest ->]. cbn [mbind option_bind]. eauto.
Qed.

(** The result has no duplicates: a kept label is a first occurrence, a
    new label was not in use when it was made. *)
Lemma make_unique_from_spec (index : list string) (first_seen values_set : gset string)
    (counter : gmap string nat) (out : list string) :
  first_seen ⊆ values_set →
  (∀ v, v ∈ index → v ∈ values_set) →
  make_unique_from index first_seen values_set counter = Some out →
  NoDup out ∧ length out = length index ∧
  ∀ x, x ∈ out → (x ∉ first_seen) ∧ (x ∈ values_set → x ∈ index).
Proof.
  revert first_seen values_set counter out.
  induction index as [|v index IH]; intros fs vs counter out Hfs Hidx.
  { intros [= <-]. split; [constructor|]. split; [done|]. by intros x ?%elem_of_nil. }
  rewrite make_unique_from_cons. case_decide as Hseen.
  - intros H. apply bind_Some in H as ([name k] & Hfree & H).
    apply bind_Some in H as (rest & Hrest & [= <-]).
    apply next_free_fresh in Hfree as (Hfresh & _ & _).
    apply IH in Hrest as (Hnd & Hlen & Hout).
    2: { by apply union_subseteq_r'. }
    2: { intros x Hx. apply elem_of_union_r, Hidx. by right. }
    split; [|split].
    + apply NoDup_cons. split; [|done]. intros Hin.
      destruct (Hout _ Hin) as [_ Hidx']. apply Hfresh, Hidx. right.
      apply Hidx', elem_of_union_l. by apply elem_of_singleton.
    + simpl. by rewrite Hlen.
    + intros x [->|Hx]%elem_of_cons.
      * split; [|done]. intros Hin. by apply Hfresh, Hfs.
      * destruct (Hout _ Hx) as [? Hidx']. split; [done|].
        intros ?. right. by apply Hidx', elem_of_union_r.
  - intros H. apply bind_Some in H as (rest & Hrest & [= <-]).
    assert (v ∈ vs) as Hv by (apply Hidx; left).
    apply IH in Hrest as (Hnd & Hlen & Hout).
    2: { apply union_least; [by apply singleton_subseteq_l | done]. }
    2: { intros x Hx. apply Hidx. by right. }
    split; [|split].
    + apply NoDup_cons. split; [|done]. intros Hin.
      destruct (Hout _ Hin) as [Hnot _].
      apply Hnot, elem_of_union_l. by apply elem_of_singleton.
    + simpl. by rewrite Hlen.
    + intros x [->|Hx]%elem_of_cons.
      * split; [done|]. intros _. left.
      * destruct (Hout _ Hx) as [Hnot Hidx']. split.
        -- intros ?. by apply Hnot, elem_of_union_r.
        -- intros ?. right. by apply Hidx'.
Qed.

(** Labels that are unique already are left as they are. *)
Lemma make_unique_from_NoDup (index : list string) (first_seen values_set : gset string)
    (counter : gmap string nat) :
  NoDup index → (∀ v, v ∈ index → v ∉ first_seen) →
  make_unique_from index first_seen values_set counter = Some index.
Proof.
  intros Hnd. revert first_seen.
  induction Hnd as [|v index Hv _ IH]; intros fs Hfs; [done|].
  rewrite make_unique_from_cons, decide_False by (apply Hfs; left).
  rewrite IH; [done|]. intros x Hx [->%elem_of_singleton|Hin]%elem_of_union; [done|].
  by apply (Hfs x); [right|].
Qed.

Lemma make_index_unique_spec (index : list string) :
  ∃ out, make_index_unique index = Some out ∧
         NoDup out ∧ length out = length index ∧
         (NoDup index → out = index).
Proof.
  unfold make_index_unique.
  destruct (make_unique_from_total index ∅ (list_to_set index) ∅) as [out Hout].
  exists out. split; [done|].
  destruct (make_unique_from_spec index ∅ (list_to_set index) ∅ out) as (Hnd & Hlen & _);
    [set_solver| |done|].
  { intros v Hv. by apply elem_of_list_to_set. }
  split; [done|]. split; [done|]. intros Hindex.
  rewrite make_unique_from_NoDup in Hout; [congruence|done|set_solver].
Qed.

Lemma var_names_rename (genes : list Gene) (names : list string) :
  length names = length genes →
  symbol <$> zip_with rename_gene genes names = names ∧
  gannot <$> zip_with rename_gene genes names = gannot <$> genes.
Proof.
  revert names. induction genes as [|g genes IH]; intros [|n names] Hlen;
    try done. simpl in Hlen.
  destruct (IH names) as [IH1 IH2]; [lia|].
  split; csimpl; by f_equal.
Qed.

Lemma rename_to_own_symbol (genes : list Gene) :
  zip_with rename_gene genes (symbol <$> genes) = genes.
Proof.
  induction genes as [|[s m] genes IH]; [done|]. csimpl. by rewrite IH.
Qed.

(** [var_names_make_unique] never raises; it renames genes and touches
    nothing else. *)
Lemma var_names_make_unique_spec (raw : AnnData) :
  ∃ adata, var_names_make_unique raw = Ok adata ∧
           NoDup (var_names adata) ∧
           n_vars adata = n_vars raw ∧
           obs adata = obs raw ∧
           gannot <$> var adata = gannot <$> var raw ∧
           (NoDup (var_names raw) → adata = raw).
Proof.
  unfold var_names_make_unique.
  destruct (make_index_unique_spec (var_names raw)) as (out & -> & Hnd & Hlen & Hsame).
  simpl. eexists. split; [reflexivity|].
  unfold var_names in Hlen. rewrite length_fmap in Hlen.
  destruct (var_names_rename (var raw) out Hlen) as [Hnames Hannot].
  unfold var_names, n_vars. simpl. rewrite Hnames.
  split; [done|]. split; [by rewrite length_zip_with; lia|].
  split; [done|]. split; [done|].
  intros Hraw. rewrite (Hsame Hraw). unfold var_names.
  rewrite rename_to_own_symbol. by destruct raw.
Qed.

(** C9.  [LoadData] returns a matrix whose gene symbols are pairwise
    distinct whenever the files can be read (and raises the reader's
    error otherwise): the renaming always succeeds, keeps the number and
    the annotations of the genes and all the cells, and leaves a matrix
    without duplicate symbols as it is.  The renaming is a function of
    the list of symbols: the first occurrence keeps its name, a later one
    gets the next free suffix [-1], [-2], ... *)
Theorem LoadData_gene_symbols_unique (sc : Scanpy) (gex_path : string) :
  (∀ raw, read_10x_mtx sc gex_path = Ok raw →
     ∃ adata, LoadData sc gex_path = Ok adata ∧
              NoDup (var_names adata) ∧
              n_vars adata = n_vars raw ∧
              obs adata = obs raw ∧
              gannot <$> var adata = gannot <$> var raw ∧
              (NoDup (var_names raw) → adata = raw)) ∧
  (∀ e, read_10x_mtx sc gex_path = Err e → LoadData sc gex_path = Err e) ∧
  (∀ adata, LoadData sc gex_path = Ok adata → NoDup (var_names adata)).
Proof.
  split; [|split].
  - intros raw Hread. unfold LoadData. rewrite Hread. simpl.
    destruct (var_names_make_unique_spec raw) as (adata & -> & H).
    exists adata. by split.
  - intros e Hread. unfold LoadData. by rewrite Hread.
  - unfold LoadData. intros adata H. apply bind_Ok in H as (raw & _ & H).
    apply bind_Ok in H as (adata' & Hu & [= <-]).
    destruct (var_names_make_unique_spec raw) as (adata'' & Hu' & Hnd & _).
    rewrite Hu in Hu'. by injection Hu' as <-.
Qed.

Lemma LoadData_gene_symbols_unique_witness :
  var_names (small_sample "C") = ["Actb"; "Gapdh"; "Actb"] ∧
  ∃ adata, LoadData plain_scanpy "./data/car1/" = Ok adata ∧
           var_names adata = ["Actb"; "Gapdh"; "Actb-1"] ∧
           NoDup (var_names adata).
Proof.
  split; [reflexivity|].
  eexists. split; [vm_compute; reflexivity|]. split; [reflexivity|].
  destruct (LoadData_gene_symbols_unique plain_scanpy "./data/car1/") as (_ & _ & Hnd).
  apply Hnd. vm_compute. reflexivity.
Defined.

(** ** What the cell subsets leave alone *)

Lemma set_annot_other (col col' : string) (v : value) (c : Cell) :
  col ≠ col' → annot (set_annot col' v c) !! col = annot c !! col.
Proof. intros Hne. simpl. by rewrite lookup_insert_ne. Qed.

Lemma filter_fmap_pull {A B} (P : B → Prop) `{∀ x, Decision (P x)} (f : A → B)
    (l : list A) :
  ∃ l', l' `sublist_of` l ∧ filter P (f <$> l) = f <$> l'.
Proof.
  induction l as [|x l (l' & Hl' & IH)].
  - by exists [].
  - rewrite fmap_cons, filter_cons. case_decide.
    + exists (x :: l'). split; [by apply sublist_skip|]. by rewrite IH.
    + exists l'. split; [by apply sublist_cons|done].
Qed.

Lemma filter_genes_obs (k : nat) (adata : AnnData) :
  ∃ mask, obs (filter_genes k adata)
          = (λ c, set_counts (filter_mask mask (counts c)) c) <$> obs adata.
Proof. by eexists. Qed.

(** Through the whole quality control a cell keeps its barcode and the
    columns of [obs] that the steps do not write. *)
Lemma BasicFiltering_qc_frame (adata out : AnnData) (col : string) :
  col ∉ ["n_genes"; "n_genes_by_counts"; "total_counts"] →
  (∀ v, col ≠ "pct_counts_" +:+ v ∧ col ≠ "total_counts_" +:+ v) →
  BasicFiltering_qc adata = Ok out →
  ∃ kept, kept `sublist_of` obs adata ∧
          Forall2 (λ c' c, barcode c' = barcode c ∧ annot c' !! col = annot c !! col)
                  (obs out) kept.
Proof.
  intros Hcol Hqc Hrun.
  assert (col ≠ "n_genes" ∧ col ≠ "n_genes_by_counts" ∧ col ≠ "total_counts")
    as (Hc1 & Hc2 & Hc3).
  { repeat split; intros ->; apply Hcol; repeat (first [left | right]). }
  destruct (BasicFiltering_qc_spec adata) as (out' & mt & ribo & Hrun' & Hobs).
  rewrite Hrun in Hrun'. injection Hrun' as <-.
  rewrite filter_cells_obs in Hobs.
  destruct (filter_genes_obs 3 adata) as [mask Hfg]. rewrite Hfg in Hobs.
  destruct (filter_fmap_pull (λ c, 200 ≤ count_if expressed (counts c))
              (λ c, set_counts (filter_mask mask (counts c)) c) (obs adata))
    as (l0 & Hl0 & Hpull0).
  rewrite Hpull0, <- !list_fmap_compose in Hobs.
  match type of Hobs with context [filter ?P (?f <$> l0)] =>
    destruct (filter_fmap_pull P f l0) as (l1 & Hl1 & Hpull1);
    rewrite Hpull1 in Hobs end.
  match type of Hobs with context [filter ?P (?f <$> l1)] =>
    destruct (filter_fmap_pull P f l1) as (l2 & Hl2 & Hpull2);
    rewrite Hpull2 in Hobs end.
  match type of Hobs with context [filter ?P (?f <$> l2)] =>
    destruct (filter_fmap_pull P f l2) as (l3 & Hl3 & Hpull3);
    rewrite Hpull3 in Hobs end.
  exists l3. split.
  { etrans; [exact Hl3|]. etrans; [exact Hl2|]. by etrans; [exact Hl1|]. }
  rewrite Hobs. apply Forall2_fmap_l, Forall_Forall2_diag, Forall_forall.
  intros c _. unfold compose. split.
  - by rewrite (proj1 (describe_obs_row _ _)).
  - rewrite describe_obs_frame by done. by rewrite set_annot_other.
Qed.

Lemma filter_mask_fmap_commute {A B} (f : A → B) (mask : list bool) (l : list A) :
  f <$> filter_mask mask l = filter_mask mask (f <$> l).
Proof.
  revert l. induction mask as [|b mask IH]; intros [|x l]; try done.
  csimpl. destruct b; csimpl; by rewrite IH.
Qed.

Lemma Forall2_same_barcodes (P : Cell → Cell → Prop) (l k : list Cell) :
  Forall2 (λ c' c, barcode c' = barcode c ∧ P c' c) l k →
  barcode <$> l = barcode <$> k.
Proof.
  induction 1 as [|c' c l k [Hb _] _ IH]; [done|]. csimpl. by rewrite Hb, IH.
Qed.

Lemma subset_obs_rows (mask : list bool) (adata : AnnData) :
  var (subset_obs mask adata) = var adata ∧
  obs (subset_obs mask adata) `sublist_of` obs adata ∧
  obs_names (subset_obs mask adata) = filter_mask mask (obs_names adata) ∧
  X (subset_obs mask adata) = filter_mask mask (X adata).
Proof.
  split; [done|]. split; [apply filter_mask_sublist|].
  unfold obs_names, X. simpl. by rewrite !filter_mask_fmap_commute.
Qed.

(** C10.  A cell subset of [BasicFiltering] only deletes rows: the cells
    of the result are cells of the input, each with its barcode, its
    whole row of [obs] and its row of [X], in their order; the barcodes
    and the rows of [X] are those selected by one mask as long as the
    matrix; the genes and their annotations are the same.  Through the
    whole quality control the barcodes that remain are in their original
    order and every remaining cell carries the sample label that was
    assigned before filtering. *)
Theorem cell_subsets_only_delete_rows (adata : AnnData) :
  (∀ col q adata',
     keep_obs_lt col q adata = Ok adata' ∨ keep_obs_gt col q adata = Ok adata' →
     var adata' = var adata ∧
     obs adata' `sublist_of` obs adata ∧
     ∃ mask, length mask = n_obs adata ∧
             obs adata' = filter_mask mask (obs adata) ∧
             obs_names adata' = filter_mask mask (obs_names adata) ∧
             X adata' = filter_mask mask (X adata)) ∧
  (∀ label out,
     BasicFiltering_qc (set_obs_scalar "sample" label adata) = Ok out →
     obs_names out `sublist_of` obs_names adata ∧
     Forall (λ c, annot c !! "sample" = Some label) (obs out)).
Proof.
  split.
  - intros col q adata' Hrun.
    assert (∃ mask, length mask = n_obs adata ∧ adata' = subset_obs mask adata)
      as (mask & Hlen & ->).
    { destruct Hrun as [(mask & Hm & ->)%keep_obs_lt_mask | (mask & Hm & ->)%keep_obs_gt_mask];
        exists mask; (split; [by apply mapM_Ok_length in Hm | done]). }
    destruct (subset_obs_rows mask adata) as (Hvar & Hsub & Hnames & HX).
    split; [done|]. split; [done|]. exists mask. by repeat split.
  - intros label out Hrun.
    destruct (BasicFiltering_qc_frame _ _ "sample" ltac:(compute_done)
                ltac:(intros v; split; simpl; discriminate) Hrun)
      as (kept & Hsub & Hkept).
    simpl in Hsub. split.
    + assert (obs_names out = barcode <$> kept) as ->.
      { exact (Forall2_same_barcodes
                 (λ c' c, annot c' !! "sample" = annot c !! "sample") _ _ Hkept). }
      assert (obs_names adata = barcode <$> (set_annot "sample" label <$> obs adata)) as ->.
      { unfold obs_names. rewrite <- list_fmap_compose. done. }
      by apply fmap_sublist.
    + apply Forall_forall. intros c' Hc'.
      apply list_elem_of_lookup_1 in Hc' as [i Hi].
      destruct (Forall2_lookup_l _ _ _ _ _ Hkept Hi) as (c & Hc & _ & ->).
      apply list_elem_of_lookup_2 in Hc.
      eapply sublist_subseteq in Hc; [|exact Hsub].
      apply list_elem_of_fmap in Hc as (c0 & -> & _). simpl. apply lookup_insert_eq.
Qed.

Lemma cell_subsets_only_delete_rows_witness :
  var (subset_obs [false; false; true] mito_measured) = var mito_measured ∧
  obs (subset_obs [false; false; true] mito_measured) `sublist_of` obs mito_measured.
Proof.
  destruct (cell_subsets_only_delete_rows mito_measured) as [Hstep _].
  destruct (Hstep "pct_counts_mt" 10%Q (subset_obs [false; false; true] mito_measured))
    as (Hvar & Hsub & _).
  - left. reflexivity.
  - split; [exact Hvar | exact Hsub].
Defined.

(** ** Concatenation *)

Lemma select_var_obs (names : list string) (adata adata' : AnnData) :
  select_var names adata = Ok adata' →
  ∃ f, obs adata' = (λ c, set_counts (f c) c) <$> obs adata.
Proof.
  unfold select_var. intros H. apply bind_Ok in H as (picked & _ & [= <-]).
  by eexists.
Qed.

(** Selecting all the genes of a matrix by their names, in their order,
    gives the matrix back. *)
Lemma select_var_all (adata adata' : AnnData) :
  NoDup (var_names adata) → rectangular adata →
  select_var (var_names adata) adata = Ok adata' →
  X adata' = X adata ∧ var adata' = var adata.
Proof.
  intros Hnd Hrect. unfold select_var. intros H.
  apply bind_Ok in H as (picked & Hp & [= <-]). apply mapM_Ok in Hp.
  assert (∀ j, picked !! j = (λ g, (j, g)) <$> var adata !! j) as Hpicked.
  { intros j. destruct (picked !! j) as [[i g]|] eqn:Hj.
    - destruct (Forall2_lookup_r _ _ _ _ _ Hp Hj) as (name & Hname & Hfind).
      destruct (list_find _ _) as [[i' g']|] eqn:Hf; [|discriminate Hfind].
      injection Hfind as -> ->. apply list_find_Some in Hf as (Hi & Hs & _).
      assert (var_names adata !! i = Some name) as Hname'.
      { unfold var_names. by rewrite list_lookup_fmap, Hi, <- Hs. }
      assert (i = j) as -> by (by eapply NoDup_lookup).
      by rewrite Hi.
    - apply lookup_ge_None in Hj. rewrite <- (Forall2_length _ _ _ Hp) in Hj.
      unfold var_names in Hj. rewrite length_fmap in Hj.
      by rewrite (proj2 (lookup_ge_None (var adata) j)). }
  assert (length picked = n_vars adata) as Hlen.
  { rewrite <- (Forall2_length _ _ _ Hp). unfold var_names. by rewrite length_fmap. }
  unfold X. simpl. split.
  - apply list_eq. intros i. rewrite <- list_fmap_compose, !list_lookup_fmap.
    destruct (obs adata !! i) as [c|] eqn:Hc; [|done]. simpl. f_equal.
    apply list_elem_of_lookup_2 in Hc.
    unfold rectangular in Hrect. rewrite Forall_forall in Hrect.
    specialize (Hrect c Hc).
    apply list_eq. intros j. rewrite list_lookup_fmap, Hpicked.
    destruct (var adata !! j) as [g|] eqn:Hg; simpl.
    + apply lookup_lt_Some in Hg. fold (n_vars adata) in Hg.
      destruct (lookup_lt_is_Some_2 (counts c) j) as [x Hx]; [lia|].
      rewrite Hx. f_equal. unfold entry. by apply nth_lookup_Some.
    + apply lookup_ge_None in Hg. fold (n_vars adata) in Hg.
      symmetry. apply lookup_ge_None. lia.
  - apply list_eq. intros j. rewrite list_lookup_fmap, Hpicked.
    by destruct (var adata !! j).
Qed.

Lemma tag_batch_lookup (columns : gset string) (batch : string) (c : Cell) :
  barcode (tag_batch columns batch c) = barcode c +:+ "-" +:+ batch ∧
  counts (tag_batch columns batch c) = counts c ∧
  annot (tag_batch columns batch c) !! "batch" = Some (Str batch) ∧
  ∀ col v, col ≠ "batch" → annot c !! col = Some v →
           annot (tag_batch columns batch c) !! col = Some v.
Proof.
  split; [done|]. split; [done|]. simpl. split; [apply lookup_insert_eq|].
  intros col v Hcol Hv. rewrite lookup_insert_ne by done.
  by apply lookup_union_Some_l.
Qed.

(** The concatenation never raises, and lists the cells of the first
    operand and then those of the second. *)
Lemma concatenate_spec (self other : AnnData) :
  ∃ merged a b columns,
    concatenate self other = Ok merged ∧
    select_var (intersection (var_names self) (var_names other)) self = Ok a ∧
    select_var (intersection (var_names self) (var_names other)) other = Ok b ∧
    obs merged = (tag_batch columns "0" <$> obs a) ++ (tag_batch columns "1" <$> obs b) ∧
    var merged = zip_with merge_var (var a) (var b).
Proof.
  unfold concatenate.
  destruct (select_var_total (intersection (var_names self) (var_names other)) self)
    as [a Ha].
  { intros x Hx. by apply elem_of_intersection in Hx as [? _]. }
  destruct (select_var_total (intersection (var_names self) (var_names other)) other)
    as [b Hb].
  { intros x Hx. by apply elem_of_intersection in Hx as [_ ?]. }
  rewrite Ha, Hb. simpl. eexists _, a, b, _. by repeat split.
Qed.

Lemma var_names_merge_var (genes genes' : list Gene) :
  length genes = length genes' →
  symbol <$> zip_with merge_var genes genes' = symbol <$> genes.
Proof.
  revert genes'. induction genes as [|g genes IH]; intros [|h genes'] Hlen; try done.
  csimpl. f_equal. apply IH. simpl in Hlen. lia.
Qed.

(** C8.  Concatenating two matrices always succeeds and gives a matrix
    with as many cells as the two together, the cells of the first
    operand first: every cell carries in [obs['batch']] the operand it
    comes from, its barcode with that batch as suffix, and every other
    column it had, the [sample] label among them.  The genes are those
    the operands share; when the operands have the same gene columns, the
    merged matrix has these columns and its rows are the rows of the
    first operand followed by those of the second. *)
Theorem concatenate_keeps_every_cell (self other : AnnData) :
  ∃ merged,
    concatenate self other = Ok merged ∧
    n_obs merged = n_obs self + n_obs other ∧
    var_names merged = intersection (var_names self) (var_names other) ∧
    (∀ i c, obs self !! i = Some c →
       ∃ c', obs merged !! i = Some c' ∧
             barcode c' = barcode c +:+ "-0" ∧
             annot c' !! "batch" = Some (Str "0") ∧
             ∀ col v, col ≠ "batch" → annot c !! col = Some v → annot c' !! col = Some v) ∧
    (∀ i c, obs other !! i = Some c →
       ∃ c', obs merged !! (n_obs self + i) = Some c' ∧
             barcode c' = barcode c +:+ "-1" ∧
             annot c' !! "batch" = Some (Str "1") ∧
             ∀ col v, col ≠ "batch" → annot c !! col = Some v → annot c' !! col = Some v) ∧
    (NoDup (var_names self) → var_names other = var_names self →
     rectangular self → rectangular other →
     var_names merged = var_names self ∧ X merged = X self ++ X other).
Proof.
  destruct (concatenate_spec self other)
    as (merged & a & b & columns & Hrun & Ha & Hb & Hobs & Hvar).
  exists merged. split; [done|].
  destruct (select_var_obs _ _ _ Ha) as [fa Hoa].
  destruct (select_var_obs _ _ _ Hb) as [fb Hob].
  destruct (select_var_spec _ _ _ Ha) as (Hna & _ & _).
  destruct (select_var_spec _ _ _ Hb) as (Hnb & _ & _).
  assert (length (tag_batch columns "0" <$> obs a) = n_obs self) as Hlen.
  { by rewrite Hoa, !length_fmap. }
  assert (var_names merged = intersection (var_names self) (var_names other)) as Hshared.
  { unfold var_names. rewrite Hvar, var_names_merge_var; [exact Hna|].
    rewrite <- (length_fmap symbol (var a)), <- (length_fmap symbol (var b)).
    unfold var_names in Hna, Hnb. by rewrite Hna, Hnb. }
  split; [|split; [|split; [|split]]].
  - unfold n_obs. rewrite Hobs, length_app, Hlen, Hob, !length_fmap. done.
  - exact Hshared.
  - intros i c Hc. eexists. split.
    + rewrite Hobs, lookup_app_l by (rewrite Hlen; by eapply lookup_lt_Some).
      by rewrite Hoa, !list_lookup_fmap, Hc.
    + destruct (tag_batch_lookup columns "0" (set_counts (fa c) c)) as (? & _ & ? & ?).
      by repeat split.
  - intros i c Hc. eexists. split.
    + rewrite Hobs, lookup_app_r by (rewrite Hlen; lia).
      rewrite Hlen, Nat.add_comm, Nat.add_sub.
      by rewrite Hob, !list_lookup_fmap, Hc.
    + destruct (tag_batch_lookup columns "1" (set_counts (fb c) c)) as (? & _ & ? & ?).
      by repeat split.
  - intros Hnd Hsame Hrs Hro.
    rewrite Hsame, intersection_self in Hb by done.
    rewrite Hsame, intersection_self in Ha by done.
    rewrite <- Hsame in Hb.
    apply select_var_all in Ha as [HXa _]; [|done..].
    apply select_var_all in Hb as [HXb _]; [|by rewrite Hsame|done].
    split.
    + by rewrite Hshared, Hsame, intersection_self.
    + rewrite <- HXa, <- HXb. unfold X. rewrite Hobs, fmap_app.
      by rewrite <- !list_fmap_compose.
Qed.

Lemma concatenate_keeps_every_cell_witness :
  ∃ merged,
    concatenate naive_sample car1_sample = Ok merged ∧
    obs_names merged = ["CCCA-0"; "AAAC-1"; "AAAG-1"] ∧
    (λ c, annot c !! "sample") <$> obs merged
      = [Some (Str "Naive"); Some (Str "Car1"); Some (Str "Car1")] ∧
    var_names merged = ["B"; "C"] ∧
    X merged = [[7; 8]; [1; 2]; [3; 4]]%Q.
Proof.
  destruct (concatenate_keeps_every_cell naive_sample car1_sample)
    as (merged & Hrun & _ & _ & _ & _ & Hsame).
  assert ((λ merged, (obs_names merged, (λ c, annot c !! "sample") <$> obs merged))
            <$> concatenate naive_sample car1_sample
          = Ok (["CCCA-0"; "AAAC-1"; "AAAG-1"],
                [Some (Str "Naive"); Some (Str "Car1"); Some (Str "Car1")]))
    as Hlabels by (vm_compute; reflexivity).
  rewrite Hrun in Hlabels. injection Hlabels as Hnames Hsample.
  destruct Hsame as [Hvar HX].
  - compute_done.
  - reflexivity.
  - repeat constructor.
  - repeat constructor.
  - exists merged. split; [exact Hrun|]. split; [exact Hnames|].
    split; [exact Hsample|]. split; [exact Hvar | exact HX].
Defined.

(** ** The merge cell *)

Lemma name_matrix_bound (ns : namespace) (x : string) (adata : AnnData) :
  ns !! x = Some (Matrix adata) → name_matrix ns x = Ok adata.
Proof. unfold name_matrix. by intros ->. Qed.

Lemma name_matrix_unbound (ns : namespace) (x : string) :
  ns !! x = None → name_matrix ns x = Err (NameError x).
Proof. unfold name_matrix. by intros ->. Qed.

Lemma name_index_bound (ns : namespace) (x : string) (names : list string) :
  ns !! x = Some (Index names) → name_index ns x = Ok names.
Proof. unfold name_index. by intros ->. Qed.

(** With [naive] and [car1] bound and [naive_treated] unbound, the
    second statement of the merge cell raises. *)
Lemma cell_merge_raises (sc : Scanpy) (ns : namespace) (naive car1 : AnnData) :
  ns !! "naive" = Some (Matrix naive) →
  ns !! "car1" = Some (Matrix car1) →
  ns !! "naive_treated" = None →
  cell_merge sc ns = Err (NameError "naive_treated").
Proof.
  intros Hnaive Hcar1 Hnone. unfold cell_merge.
  rewrite (name_matrix_bound _ _ _ Hnaive), (name_matrix_bound _ _ _ Hcar1).
  cbn [mbind result_bind]. rewrite name_matrix_unbound; [done|].
  by rewrite lookup_insert_ne.
Qed.

(** The cells before the merge bind [car1] and [naive] and no other
    name. *)
Lemma run_to_merge_names (sc : Scanpy) (ns : namespace) :
  run_to_merge sc = Ok ns →
  ∃ naive car1, ns = <["car1" := Matrix car1]> (<["naive" := Matrix naive]> ∅).
Proof.
  unfold run_to_merge, cell_load_car1, cell_load_naive, cell_cluster_naive,
    cell_cluster_car1.
  intros H. inv_result.
  repeat match goal with
  | H : name_matrix _ _ = Ok _ |- _ => clear H
  end.
  match goal with |- context [<["car1" := Matrix ?c]> (<["naive" := Matrix ?n]> _)] =>
    exists n, c end.
  apply map_eq. intros x. rewrite !lookup_insert.
  repeat case_decide; by subst.
Qed.

(** C2: the merge cell does not build the merged matrix.  Whatever the
    samples and the numerical routines, once the cells before it have
    run, the merge cell raises [NameError] for [naive_treated], a name
    that no cell binds; the notebook never runs to its end, and no matrix
    [adata] is made of the two per-sample outputs. *)
Theorem merge_cell_raises_NameError (sc : Scanpy) :
  (∀ ns, run_to_merge sc = Ok ns →
         ns !! "naive_treated" = None ∧
         cell_merge sc ns = Err (NameError "naive_treated")) ∧
  (∃ e, run_notebook sc = Err e).
Proof.
  assert (∀ ns, run_to_merge sc = Ok ns →
            ns !! "naive_treated" = None ∧
            cell_merge sc ns = Err (NameError "naive_treated")) as Hmerge.
  { intros ns (naive & car1 & ->)%run_to_merge_names.
    assert ((<["car1" := Matrix car1]> (<["naive" := Matrix naive]> ∅) : namespace)
              !! "naive_treated" = None) as Hnone.
    { by rewrite !lookup_insert_ne by done. }
    split; [done|]. apply (cell_merge_raises sc _ naive car1); [|by apply lookup_insert_eq|done].
    rewrite lookup_insert_ne by done. apply lookup_insert_eq. }
  split; [done|]. unfold run_notebook.
  destruct (run_to_merge sc) as [ns|e] eqn:Hrun; [|by exists e].
  destruct (Hmerge ns eq_refl) as [_ Hraise]. simpl. rewrite Hraise. by eexists.
Qed.

(** With two small samples and routines that leave the matrix alone, the
    cells before the merge run, the merge cell raises, and the merge the
    specification describes would have returned a matrix. *)
Lemma merge_cell_raises_NameError_witness :
  ∃ ns naive car1,
    run_to_merge plain_scanpy = Ok ns ∧
    ns !! "naive" = Some (Matrix naive) ∧ ns !! "car1" = Some (Matrix car1) ∧
    cell_merge plain_scanpy ns = Err (NameError "naive_treated") ∧
    n_obs <$> merge_as_specified plain_scanpy naive car1 = Ok 0.
Proof.
  assert ((λ _, ()) <$> run_to_merge plain_scanpy = Ok ()) as Hok
    by (vm_compute; reflexivity).
  assert ((run_to_merge plain_scanpy ≫= λ ns,
             naive ← name_matrix ns "naive";
             car1 ← name_matrix ns "car1";
             n_obs <$> merge_as_specified plain_scanpy naive car1) = Ok 0) as Hspec
    by (vm_compute; reflexivity).
  destruct (run_to_merge plain_scanpy) as [ns|e] eqn:Hrun; [|discriminate Hok].
  destruct (run_to_merge_names plain_scanpy ns Hrun) as (naive & car1 & Hns).
  exists ns, naive, car1. split; [reflexivity|].
  assert (ns !! "naive" = Some (Matrix naive)) as Hnaive.
  { rewrite Hns, lookup_insert_ne by done. apply lookup_insert_eq. }
  assert (ns !! "car1" = Some (Matrix car1)) as Hcar1.
  { rewrite Hns. apply lookup_insert_eq. }
  split; [exact Hnaive|]. split; [exact Hcar1|]. split.
  - apply (merge_cell_raises_NameError plain_scanpy). exact Hrun.
  - simpl in Hspec. unfold name_matrix in Hspec. rewrite Hnaive, Hcar1 in Hspec.
    exact Hspec.
Defined.

(** * Further properties *)

(** ** Sequences of cell subsets *)

Lemma keep_obs_filter (t : column_test) (adata adata' : AnnData) :
  keep_obs t adata = Ok adata' →
  obs adata' = filter (λ c, passes t c = Ok true) (obs adata) ∧
  var adata' = var adata.
Proof. destruct t; [apply keep_obs_lt_filter | apply keep_obs_gt_filter]. Qed.

Lemma keep_obs_total (t : column_test) (adata : AnnData) :
  Forall (λ c, ∃ b, passes t c = Ok b) (obs adata) →
  ∃ adata', keep_obs t adata = Ok adata'.
Proof. destruct t; [apply keep_obs_lt_total | apply keep_obs_gt_total]. Qed.

(** A sequence of subsets is one filter by the conjunction of its tests. *)
Lemma keep_obs_all_filter (ts : list column_test) (adata adata' : AnnData) :
  keep_obs_all ts adata = Ok adata' →
  obs adata' = filter (λ c, Forall (λ t, passes t c = Ok true) ts) (obs adata) ∧
  var adata' = var adata.
Proof.
  revert adata. induction ts as [|t ts IH]; intros adata; simpl.
  - intros [= <-]. split; [|done]. symmetry. apply filter_all, Forall_forall.
    intros c _. constructor.
  - intros H. apply bind_Ok in H as (a1 & H1 & H).
    apply keep_obs_filter in H1 as [Ho1 Hv1]. apply IH in H as [Ho Hv].
    split; [|congruence]. rewrite Ho, Ho1, list_filter_filter.
    apply filter_ext_in. intros c _. rewrite Forall_cons. tauto.
Qed.

Lemma keep_obs_all_total (ts : list column_test) (adata : AnnData) :
  Forall (λ c, Forall (λ t, ∃ b, passes t c = Ok b) ts) (obs adata) →
  ∃ adata', keep_obs_all ts adata = Ok adata'.
Proof.
  revert adata. induction ts as [|t ts IH]; intros adata Hall; simpl; [eauto|].
  destruct (keep_obs_total t adata) as [a1 H1].
  { eapply Forall_impl; [exact Hall|]. intros c Hc. by apply Forall_cons in Hc as [? _]. }
  rewrite H1. simpl. apply IH.
  apply keep_obs_filter in H1 as [-> _]. apply Forall_on_filter.
  eapply Forall_impl; [exact Hall|]. intros c Hc. by apply Forall_cons in Hc as [_ ?].
Qed.

Lemma keep_obs_all_perm (ts ts' : list column_test) (adata out out' : AnnData) :
  ts ≡ₚ ts' →
  keep_obs_all ts adata = Ok out →
  keep_obs_all ts' adata = Ok out' →
  out = out'.
Proof.
  intros Hperm [Ho Hv]%keep_obs_all_filter [Ho' Hv']%keep_obs_all_filter.
  destruct out as [cells genes], out' as [cells' genes']. simpl in *.
  subst genes genes'. f_equal. rewrite Ho, Ho'.
  apply filter_ext_in. intros c _. by rewrite Hperm.
Qed.

(** Cell subsets commute: two sequences of the same column tests, in
    whatever order, give the same matrix when both run to the end, namely
    the cells that pass every test, in their order, with the genes
    untouched. *)
Theorem cell_subsets_commute (ts ts' : list column_test) (adata out out' : AnnData) :
  ts ≡ₚ ts' →
  keep_obs_all ts adata = Ok out →
  keep_obs_all ts' adata = Ok out' →
  out = out' ∧
  var out = var adata ∧
  obs out = filter (λ c, Forall (λ t, passes t c = Ok true) ts) (obs adata).
Proof.
  intros Hperm Hrun Hrun'. split; [by eapply keep_obs_all_perm|].
  apply keep_obs_all_filter in Hrun as [? ?]. by split.
Qed.

(** The order decides whether a subset raises: the string in column [b]
    is compared when [b] is tested first, and is gone when the cell that
    holds it was dropped before. *)
Lemma cell_subsets_order_and_errors :
  keep_obs_all [Below "a" 5; Above "b" 1] mixed_columns
    = Ok (subset_obs [false; true] mixed_columns) ∧
  keep_obs_all [Above "b" 1; Below "a" 5] mixed_columns = Err TypeError.
Proof. split; reflexivity. Qed.

Lemma cell_subsets_commute_witness :
  ∃ out out',
    keep_obs_all [Below "a" 5; Above "a" 0] mixed_columns = Ok out ∧
    keep_obs_all [Above "a" 0; Below "a" 5] mixed_columns = Ok out' ∧
    obs_names out = ["AAAG"] ∧ out = out'.
Proof.
  eexists _, _. split; [reflexivity|]. split; [reflexivity|]. split; [reflexivity|].
  apply (cell_subsets_commute [Below "a" 5; Above "a" 0] [Above "a" 0; Below "a" 5]
           mixed_columns).
  - apply perm_swap.
  - reflexivity.
  - reflexivity.
Defined.

(** ** The quality control as one filter *)

Lemma BasicFiltering_qc_tests (adata : AnnData) :
  BasicFiltering_qc adata =
  (measured ← calculate_qc_metrics ["mt"; "ribo"]
                 (flagged (filter_cells 200 (filter_genes 3 adata)));
   keep_obs_all BasicFiltering_tests measured).
Proof. reflexivity. Qed.

Lemma measured_cell_passes (mt ribo : list bool) (c : Cell) :
  Forall (λ t, ∃ b, passes t (describe_obs [("mt", mt); ("ribo", ribo)] c) = Ok b)
         BasicFiltering_tests.
Proof.
  repeat constructor; simpl.
  - rewrite cell_lt_n_genes. eauto.
  - rewrite cell_gt_n_genes. eauto.
  - rewrite cell_lt_pct_counts_mt. apply value_lt_pct_total.
Qed.

(** The three subsets of [BasicFiltering] are one filter.  When the
    quality control returns, its subsets have read only columns that the
    metrics had just written: the cells returned are the measured cells
    that pass the conjunction of the three tests, and applying the three
    subsets to the measured matrix in any other order returns the same
    matrix. *)
Theorem BasicFiltering_qc_is_one_filter (adata out : AnnData) :
  BasicFiltering_qc adata = Ok out →
  ∃ measured,
    calculate_qc_metrics ["mt"; "ribo"]
      (flagged (filter_cells 200 (filter_genes 3 adata))) = Ok measured ∧
    var out = var measured ∧
    obs out = filter (λ c, Forall (λ t, passes t c = Ok true) BasicFiltering_tests)
                     (obs measured) ∧
    ∀ ts, ts ≡ₚ BasicFiltering_tests → keep_obs_all ts measured = Ok out.
Proof.
  rewrite BasicFiltering_qc_tests. intros Hrun.
  apply bind_Ok in Hrun as (measured & Hm & Hout).
  exists measured. split; [exact Hm|].
  destruct (calculate_qc_metrics_mt_ribo _ _ _ _ Hm) as (mt & ribo & Hobs).
  destruct (keep_obs_all_filter _ _ _ Hout) as [Ho Hv].
  split; [done|]. split; [done|]. intros ts Hperm.
  destruct (keep_obs_all_total ts measured) as [out' Hout'].
  { rewrite Hobs. apply Forall_fmap, Forall_forall. intros c _. simpl. rewrite Hperm.
    apply measured_cell_passes. }
  rewrite Hout'. f_equal.
  by apply (keep_obs_all_perm ts BasicFiltering_tests measured).
Qed.

Lemma BasicFiltering_qc_is_one_filter_witness :
  ∃ measured out,
    BasicFiltering_qc dense_sample = Ok out ∧
    obs_names out = ["AAAG"; "AACA"] ∧
    keep_obs_all [Above "n_genes_by_counts" 200; Below "n_genes_by_counts" 5000;
                  Below "pct_counts_mt" 10] measured = Ok out.
Proof.
  pose proof dense_sample_qc as Hnames.
  destruct (BasicFiltering_qc dense_sample) as [out|e] eqn:Hrun; [|discriminate Hnames].
  injection Hnames as Hnames _.
  destruct (BasicFiltering_qc_is_one_filter dense_sample out Hrun)
    as (measured & _ & _ & _ & Hany).
  exists measured, out. split; [reflexivity|]. split; [exact Hnames|].
  apply Hany. apply perm_swap.
Defined.

(** ** Small inputs *)

Lemma length_filter_mask_mask {A} (mask : list bool) (l : list A) :
  length (filter_mask mask l) ≤ length mask.
Proof.
  revert l. induction mask as [|b mask IH]; intros [|x l]; simpl; try lia.
  destruct b; simpl; specialize (IH l); lia.
Qed.

Lemma filter_mask_none {A} (mask : list bool) (l : list A) :
  Forall (λ b, b = false) mask → filter_mask mask l = [].
Proof.
  intros Hmask. revert l. induction Hmask as [|b mask -> _ IH]; intros [|x l]; try done.
  simpl. apply IH.
Qed.

Lemma count_if_le_length (p : Q → bool) (l : list Q) : count_if p l ≤ length l.
Proof. apply length_filter. Qed.

(** After the gene filter a row is no wider than the matrix was. *)
Lemma filter_genes_width (k : nat) (adata : AnnData) :
  Forall (λ c, length (counts c) ≤ n_vars adata) (obs (filter_genes k adata)).
Proof.
  unfold filter_genes. simpl. apply Forall_fmap, Forall_forall. intros c _. simpl.
  etrans; [apply length_filter_mask_mask|]. by rewrite !length_fmap, length_seq.
Qed.

(** With fewer cells than [min_cells] the gene filter removes every
    gene. *)
Lemma filter_genes_few_cells (k : nat) (adata : AnnData) :
  n_obs adata < k →
  var (filter_genes k adata) = [] ∧
  Forall (λ c, counts c = []) (obs (filter_genes k adata)).
Proof.
  intros Hfew.
  assert (Forall (λ b, b = false)
            ((λ n, bool_decide (k ≤ n)) <$>
               ((λ j, count_if expressed (column j adata)) <$> seq 0 (n_vars adata))))
    as Hmask.
  { apply Forall_fmap, Forall_fmap, Forall_forall. intros j _. simpl.
    apply bool_decide_eq_false.
    pose proof (count_if_le_length expressed (column j adata)) as Hle.
    assert (length (column j adata) = n_obs adata) as Hlen
      by (unfold column; apply length_fmap).
    lia. }
  unfold filter_genes. simpl. split.
  - by apply filter_mask_none.
  - apply Forall_fmap, Forall_forall. intros c _. simpl. by apply filter_mask_none.
Qed.

Lemma filter_cells_none (k : nat) (adata : AnnData) :
  Forall (λ c, count_if expressed (counts c) < k) (obs adata) →
  obs (filter_cells k adata) = [].
Proof.
  intros Hall. rewrite filter_cells_obs.
  assert (filter (λ c, k ≤ count_if expressed (counts c)) (obs adata) = []) as ->; [|done].
  induction Hall as [|c l Hc _ IH]; [done|].
  rewrite filter_cons_False by lia. exact IH.
Qed.

Lemma keep_obs_no_cells (genes : list Gene) :
  keep_obs_all BasicFiltering_tests {| obs := []; var := genes |}
  = Ok {| obs := []; var := genes |}.
Proof. reflexivity. Qed.

(** [BasicFiltering] on a small matrix.  With fewer than three cells
    (the empty matrix among them) the gene filter removes every gene and
    the cell filter every cell, so the violin plot and the routines
    after it are called on the matrix without cells and without genes,
    and the call returns only if they return there.  With fewer than 200
    genes the same holds with a matrix without cells.  With at most 200
    genes no cell is left by the quality control. *)
Theorem BasicFiltering_small_input (sc : Scanpy) (adata : AnnData) :
  (n_obs adata < 3 →
   BasicFiltering sc adata =
   (_ ← pl_highest_expr_genes sc 20 adata;
    _ ← pl_violin sc ["n_genes_by_counts"; "total_counts"; "pct_counts_mt"; "pct_counts_ribo"]
                  {| obs := []; var := [] |};
    BasicFiltering_normalize sc {| obs := []; var := [] |})) ∧
  (n_vars adata < 200 →
   ∃ measured,
     obs measured = [] ∧
     BasicFiltering sc adata =
     (_ ← pl_highest_expr_genes sc 20 adata;
      _ ← pl_violin sc ["n_genes_by_counts"; "total_counts"; "pct_counts_mt";
                        "pct_counts_ribo"] measured;
      BasicFiltering_normalize sc measured)) ∧
  (n_vars adata ≤ 200 →
   ∀ final, BasicFiltering sc adata = Ok final →
            ∃ out, obs out = [] ∧ BasicFiltering_normalize sc out = Ok final).
Proof.
  split; [|split].
  - intros Hfew. destruct (filter_genes_few_cells 3 adata Hfew) as [Hvar Hrows].
    assert (filter_cells 200 (filter_genes 3 adata) = {| obs := []; var := [] |}) as Hempty.
    { assert (obs (filter_cells 200 (filter_genes 3 adata)) = []) as Hnone.
      { apply filter_cells_none. eapply Forall_impl; [exact Hrows|].
        intros c ->. unfold count_if. rewrite filter_nil. simpl. lia. }
      assert (var (filter_cells 200 (filter_genes 3 adata)) = []) as Hnov by exact Hvar.
      destruct (filter_cells 200 (filter_genes 3 adata)) as [cells genes].
      simpl in Hnone, Hnov. by subst. }
    unfold BasicFiltering. rewrite Hempty. reflexivity.
  - intros Hnarrow.
    assert (obs (filter_cells 200 (filter_genes 3 adata)) = []) as Hnone.
    { apply filter_cells_none. eapply Forall_impl; [apply filter_genes_width|].
      intros c Hc. simpl in Hc. pose proof (count_if_le_length expressed (counts c)). lia. }
    destruct (calculate_qc_metrics_flags ["mt-"] ["Rps"; "Rpl"]
                (filter_cells 200 (filter_genes 3 adata))) as (measured & Hm & Hobs).
    rewrite Hnone in Hobs. simpl in Hobs.
    exists measured. split; [exact Hobs|].
    unfold BasicFiltering. rewrite Hm.
    destruct measured as [cells genes]. simpl in Hobs. subst cells. reflexivity.
  - intros Hnarrow final (out & Hrun & Hnorm)%BasicFiltering_through_qc.
    exists out. split; [|exact Hnorm].
    destruct (BasicFiltering_qc_spec adata) as (out' & mt & ribo & Hrun' & Hobs).
    rewrite Hrun in Hrun'. injection Hrun' as <-. rewrite Hobs.
    match goal with |- filter ?P3 (filter ?P2 ?l) = [] =>
      assert (filter P2 l = []) as ->; [|done] end.
    apply elem_of_nil_inv. intros c [Hgt Hc]%list_elem_of_filter.
    apply list_elem_of_filter in Hc as [_ Hc].
    apply list_elem_of_fmap in Hc as (c1 & -> & Hc1).
    rewrite filter_cells_obs in Hc1.
    apply list_elem_of_fmap in Hc1 as (c0 & -> & Hc0).
    apply list_elem_of_filter in Hc0 as [_ Hc0].
    pose proof (filter_genes_width 3 adata) as Hwidth.
    rewrite Forall_forall in Hwidth. specialize (Hwidth c0 Hc0).
    rewrite cell_gt_n_genes in Hgt. injection Hgt as Hgt.
    change 200%Q with (of_count 200) in Hgt. apply Qlt_bool_of_count in Hgt.
    simpl in Hgt. pose proof (count_if_le_length nonzero (counts c0)). lia.
Qed.

Lemma BasicFiltering_small_input_witness :
  BasicFiltering strict_scanpy (small_sample "C")
  = BasicFiltering_normalize strict_scanpy {| obs := []; var := [] |} ∧
  ∃ measured, obs measured = [] ∧
              BasicFiltering strict_scanpy mito_sample
              = BasicFiltering_normalize strict_scanpy measured.
Proof.
  destruct (BasicFiltering_small_input strict_scanpy (small_sample "C")) as [Hfew _].
  destruct (BasicFiltering_small_input strict_scanpy mito_sample) as (_ & Hnarrow & _).
  split.
  - rewrite Hfew by (vm_compute; lia). reflexivity.
  - destruct Hnarrow as (measured & Hnone & Hrun); [vm_compute; lia|].
    exists measured. split; [exact Hnone|]. rewrite Hrun. reflexivity.
Defined.

(** ** Count data *)

Lemma Forall_filter_mask {A} (P : A → Prop) (mask : list bool) (l : list A) :
  Forall P l → Forall P (filter_mask mask l).
Proof.
  intros Hl. revert mask. induction Hl as [|x l Hx _ IH]; intros [|b mask]; simpl;
    try constructor.
  destruct b; [constructor|]; auto.
Qed.

Lemma expressed_pos (x : Q) : expressed x = true ↔ (0 < x)%Q.
Proof. apply Qlt_bool_lt. Qed.

Lemma Qsum_nonneg (row : list Q) : Forall (λ x, (0 <= x)%Q) row → (0 <= Qsum row)%Q.
Proof.
  induction 1 as [|x row Hx _ IH]; simpl; [apply Qle_refl|]. lra.
Qed.

(** A part of a row of non-negative entries sums to at most the row. *)
Lemma Qsum_filter_mask_le (mask : list bool) (row : list Q) :
  Forall (λ x, (0 <= x)%Q) row →
  (0 <= Qsum (filter_mask mask row))%Q ∧ (Qsum (filter_mask mask row) <= Qsum row)%Q.
Proof.
  intros Hrow. split; [by apply Qsum_nonneg, Forall_filter_mask|].
  revert mask. induction Hrow as [|x row Hx Hrow IH]; intros [|b mask]; simpl;
    try apply Qle_refl.
  - pose proof (Qsum_nonneg row Hrow). lra.
  - specialize (IH mask). destruct b; simpl; lra.
Qed.

Lemma Qsum_pos (row : list Q) :
  Forall (λ x, (0 <= x)%Q) row → 0 < count_if expressed row → (0 < Qsum row)%Q.
Proof.
  unfold count_if. induction 1 as [|x row Hx Hrow IH]; [simpl; lia|].
  rewrite filter_cons. pose proof (Qsum_nonneg row Hrow).
  destruct (expressed x) eqn:He; simpl.
  - intros _. apply expressed_pos in He. lra.
  - intros Hpos. specialize (IH Hpos). lra.
Qed.

Lemma is_count_spec (x : Q) :
  is_count x = true → (0 <= x)%Q ∧ (expressed x = true → (1 <= x)%Q).
Proof.
  unfold is_count. intros [Hn Hd]%andb_true_iff.
  apply Z.leb_le in Hn. apply Pos.eqb_eq in Hd.
  destruct x as [n d]. simpl in *. subst d. split.
  - unfold Qle. simpl. lia.
  - rewrite expressed_pos. unfold Qlt, Qle. simpl. lia.
Qed.

Lemma of_count_S (n : nat) : (of_count (S n) == of_count n + 1)%Q.
Proof.
  unfold of_count. rewrite Nat2Z.inj_succ, <- Z.add_1_r, inject_Z_plus. reflexivity.
Qed.

(** A row of counts sums to at least the number of its positive
    entries. *)
Lemma count_row_sum (row : list Q) :
  Forall (λ x, is_count x = true) row →
  (of_count (count_if expressed row) <= Qsum row)%Q.
Proof.
  unfold count_if. induction 1 as [|x row Hx _ IH]; [simpl; apply Qle_refl|].
  rewrite filter_cons. destruct (is_count_spec x Hx) as [H0 H1].
  destruct (expressed x) eqn:He; simpl.
  - rewrite of_count_S. specialize (H1 eq_refl). lra.
  - lra.
Qed.

Lemma describe_obs_total_counts (qc : list (string * list bool)) (c : Cell) :
  annot (describe_obs qc c) !! "total_counts" = Some (Num (Qsum (counts c))).
Proof.
  unfold describe_obs. rewrite foldl_qc_var_metrics.
  - apply lookup_insert_eq.
  - intros v. split; simpl; discriminate.
Qed.

Lemma describe_obs_pct_counts_ribo (mt ribo : list bool) (c : Cell) :
  annot (describe_obs [("mt", mt); ("ribo", ribo)] c) !! "pct_counts_ribo"
  = Some (float_scale (float_div (Qsum (filter_mask ribo (counts c))) (Qsum (counts c))) 100).
Proof. unfold describe_obs, qc_var_metrics. simpl. apply lookup_insert_eq. Qed.

(** The percentage of a part of a row with a positive sum. *)
Lemma percentage_in_range (part total : Q) :
  (0 <= part)%Q → (part <= total)%Q → (0 < total)%Q →
  ∃ p, float_scale (float_div part total) 100 = Num p ∧ (0 <= p)%Q ∧ (p <= 100)%Q.
Proof.
  intros Hpart Hle Hpos. unfold float_div.
  destruct (Qeq_bool total 0) eqn:Hz.
  { apply Qeq_bool_eq in Hz. rewrite Hz in Hpos. by apply Qlt_irrefl in Hpos. }
  simpl. eexists. split; [reflexivity|].
  assert (0 <= part / total)%Q as H0 by (apply Qle_shift_div_l; lra).
  assert (part / total <= 1)%Q as H1 by (apply Qle_shift_div_r; lra).
  lra.
Qed.

(** The cells of the quality control's result, traced back to the rows
    of the gene-filtered matrix. *)
Lemma BasicFiltering_qc_cells_origin (adata out : AnnData) (c : Cell) :
  BasicFiltering_qc adata = Ok out → c ∈ obs out →
  ∃ mt ribo c0 mask,
    c0 ∈ obs adata ∧
    counts c = filter_mask mask (counts c0) ∧
    200 ≤ count_if expressed (counts c) ∧
    cell_lt "pct_counts_mt" 10 c = Ok true ∧
    c = describe_obs [("mt", mt); ("ribo", ribo)]
          (set_annot "n_genes" (Num (of_count (count_if expressed (counts c))))
             (set_counts (counts c) c0)).
Proof.
  intros Hrun Hc.
  destruct (BasicFiltering_qc_spec adata) as (out' & mt & ribo & Hrun' & Hobs).
  rewrite Hrun in Hrun'. injection Hrun' as <-. rewrite Hobs in Hc.
  apply list_elem_of_filter in Hc as [Hmt Hc].
  apply list_elem_of_filter in Hc as [_ Hc].
  apply list_elem_of_filter in Hc as [_ Hc].
  apply list_elem_of_fmap in Hc as (c1 & -> & Hc1).
  rewrite filter_cells_obs in Hc1.
  apply list_elem_of_fmap in Hc1 as (c2 & -> & Hc2).
  apply list_elem_of_filter in Hc2 as [Hmin Hc2].
  destruct (filter_genes_obs 3 adata) as [mask Hfg]. rewrite Hfg in Hc2.
  apply list_elem_of_fmap in Hc2 as (c0 & -> & Hc0).
  exists mt, ribo, c0, mask. rewrite (proj2 (describe_obs_row _ _)). simpl.
  by repeat split.
Qed.

(** On a matrix without negative entries the quality control divides by
    no zero: every cell it returns has a positive total count, a
    mitochondrial percentage from 0 to below 10 and a ribosomal
    percentage from 0 to 100, all of them numbers, so the covariates of
    the regression hold no [NaN] and no infinity. *)
Theorem qc_covariates_are_finite (adata out : AnnData) :
  nonnegative adata →
  BasicFiltering_qc adata = Ok out →
  Forall finite_covariates (obs out).
Proof.
  intros Hnn Hrun. apply Forall_forall. intros c Hc.
  destruct (BasicFiltering_qc_cells_origin adata out c Hrun Hc)
    as (mt & ribo & c0 & mask & Hc0 & Hrow & Hmin & Hmt & Hdef).
  assert (Forall (λ x, (0 <= x)%Q) (counts c)) as Hpos.
  { rewrite Hrow. apply Forall_filter_mask.
    unfold nonnegative in Hnn. rewrite Forall_forall in Hnn. by apply Hnn. }
  assert (0 < Qsum (counts c))%Q as Htotal by (apply Qsum_pos; [done|lia]).
  set (c1 := set_annot "n_genes" (Num (of_count (count_if expressed (counts c))))
               (set_counts (counts c) c0)) in Hdef.
  assert (counts c1 = counts c) as Hc1 by done.
  destruct (Qsum_filter_mask_le mt (counts c) Hpos) as [Hm0 Hm1].
  destruct (Qsum_filter_mask_le ribo (counts c) Hpos) as [Hr0 Hr1].
  destruct (percentage_in_range _ _ Hm0 Hm1 Htotal) as (m & Hm & Hm_lo & _).
  destruct (percentage_in_range _ _ Hr0 Hr1 Htotal) as (r & Hr & Hr_lo & Hr_hi).
  assert (annot c !! "pct_counts_mt" = Some (Num m)) as Hlook_mt.
  { rewrite Hdef, describe_obs_pct_counts_mt, Hc1. by rewrite Hm. }
  exists (Qsum (counts c)), m, r. split.
  { rewrite Hdef at 1. by rewrite describe_obs_total_counts, Hc1. }
  split; [done|]. split; [done|]. split; [done|]. split.
  { by apply (cell_lt_Num "pct_counts_mt" 10 m c). }
  split; [|done].
  rewrite Hdef, describe_obs_pct_counts_ribo, Hc1. by rewrite Hr.
Qed.

Lemma dense_sample_nonnegative : nonnegative dense_sample.
Proof.
  unfold nonnegative. apply Forall_forall. intros c Hc. apply Forall_forall.
  intros x Hx.
  assert (forallb (λ c, forallb (λ x, Qle_bool 0 x) (counts c)) (obs dense_sample) = true)
    as Hall by (vm_compute; reflexivity).
  rewrite forallb_forall in Hall. apply list_elem_of_In in Hc, Hx.
  specialize (Hall c Hc). rewrite forallb_forall in Hall.
  by apply Qle_bool_iff, Hall.
Qed.

Lemma qc_covariates_are_finite_witness :
  ∃ out, BasicFiltering_qc dense_sample = Ok out ∧
         obs_names out = ["AAAG"; "AACA"] ∧
         Forall finite_covariates (obs out).
Proof.
  pose proof dense_sample_qc as Hrun.
  destruct (BasicFiltering_qc dense_sample) as [out|e] eqn:H; [|discriminate Hrun].
  injection Hrun as Hobs _.
  exists out. split; [reflexivity|]. split; [exact Hobs|].
  apply (qc_covariates_are_finite dense_sample out).
  - exact dense_sample_nonnegative.
  - exact H.
Defined.

(** Without the hypothesis the percentage can be no number: a row whose
    entries cancel has total 0, and the mitochondrial test sees [NaN] or
    an infinity. *)
Lemma percentage_of_cancelling_row :
  float_scale (float_div 0 0) 100 = NaN ∧
  float_scale (float_div 3 0) 100 = Inf false ∧
  value_lt NaN 10 = Ok false ∧ value_lt (Inf false) 10 = Ok false ∧
  value_lt (Inf true) 10 = Ok true.
Proof. repeat split. Qed.

(** On raw counts the normalization of [BasicFiltering] drops no cell:
    a cell that passed the quality control has at least 200 counts, above
    the [min_counts] of [normalize_per_cell], so the barcodes are those
    of the quality control's result and every row sums to 1000. *)
Theorem normalization_keeps_qc_cells (adata out : AnnData) :
  count_matrix adata →
  BasicFiltering_qc adata = Ok out →
  obs_names (normalize_per_cell 1000 out) = obs_names out ∧
  var (normalize_per_cell 1000 out) = var out ∧
  Forall (λ c, (Qsum (counts c) == 1000)%Q) (obs (normalize_per_cell 1000 out)) ∧
  Forall (λ c, ∃ n, annot c !! "n_counts" = Some (Num n) ∧ (200 <= n)%Q)
         (obs (normalize_per_cell 1000 out)).
Proof.
  intros Hcounts Hrun.
  assert (Forall (λ c, (200 <= Qsum (counts c))%Q) (obs out)) as Hsum.
  { apply Forall_forall. intros c Hc.
    destruct (BasicFiltering_qc_cells_origin adata out c Hrun Hc)
      as (_ & _ & c0 & mask & Hc0 & Hrow & Hmin & _ & _).
    assert (Forall (λ x, is_count x = true) (counts c)) as Hrowc.
    { rewrite Hrow. apply Forall_filter_mask.
      unfold count_matrix in Hcounts. rewrite Forall_forall in Hcounts.
      by apply Hcounts. }
    pose proof (count_row_sum _ Hrowc) as Hle.
    assert (of_count 200 <= of_count (count_if expressed (counts c)))%Q as Hge.
    { unfold of_count. rewrite <- Zle_Qle. lia. }
    change (of_count 200) with 200%Q in Hge. lra. }
  assert (obs (normalize_per_cell 1000 out)
          = (λ c, set_counts
                    ((λ x, x / ((if Qeq_bool (Qsum (counts c)) 0 then Qsum (counts c) + 1
                                 else Qsum (counts c)) / 1000))%Q <$> counts c)
                    (set_annot "n_counts" (Num (Qsum (counts c))) c)) <$> obs out) as Hobs.
  { rewrite normalize_per_cell_obs, filter_all; [done|].
    eapply Forall_impl; [exact Hsum|]. intros c Hc. simpl in *.
    apply Is_true_true, Qle_bool_iff. lra. }
  split; [|split; [done|split]].
  - unfold obs_names. rewrite Hobs, <- list_fmap_compose. done.
  - apply normalize_per_cell_reaches_target. intros H. by vm_compute in H.
  - rewrite Hobs. apply Forall_fmap. eapply Forall_impl; [exact Hsum|].
    intros c Hc. simpl in *. eexists. split; [apply lookup_insert_eq | done].
Qed.

Lemma dense_sample_counts : count_matrix dense_sample.
Proof.
  unfold count_matrix. apply Forall_forall. intros c Hc. apply Forall_forall.
  intros x Hx.
  assert (forallb (λ c, forallb is_count (counts c)) (obs dense_sample) = true)
    as Hall by (vm_compute; reflexivity).
  rewrite forallb_forall in Hall. apply list_elem_of_In in Hc, Hx.
  specialize (Hall c Hc). rewrite forallb_forall in Hall. by apply Hall.
Qed.

Lemma normalization_keeps_qc_cells_witness :
  ∃ out, BasicFiltering_qc dense_sample = Ok out ∧
         obs_names (normalize_per_cell 1000 out) = ["AAAG"; "AACA"].
Proof.
  pose proof dense_sample_qc as Hrun.
  destruct (BasicFiltering_qc dense_sample) as [out|e] eqn:H; [|discriminate Hrun].
  injection Hrun as Hobs _.
  exists out. split; [reflexivity|].
  destruct (normalization_keeps_qc_cells dense_sample out) as [Hnames _].
  - exact dense_sample_counts.
  - exact H.
  - by rewrite Hnames.
Defined.

(** ** Errors of a cell subset *)

(** A traversal whose elements can fail with one error only fails with
    that error as soon as one element does. *)
Lemma mapM_Err {A B} (f : A → result B) (e : error) (l : list A) :
  Forall (λ x, f x = Err e ∨ ∃ y, f x = Ok y) l →
  Exists (λ x, f x = Err e) l →
  mapM f l = Err e.
Proof.
  induction 1 as [|x l Hx Hl IH]; intros Hex; [by apply Exists_nil in Hex|].
  simpl. destruct Hx as [Hx|[y Hx]]; rewrite Hx; [done|]. simpl.
  apply Exists_cons in Hex as [Hex|Hex]; [congruence|]. by rewrite IH.
Qed.

Lemma passes_unfold (t : column_test) (c : Cell) :
  passes t c =
  (v ← or_raise (AttributeError (test_column t)) (annot c !! test_column t);
   match t with Below _ q => value_lt v q | Above _ q => value_gt v q end).
Proof. by destruct t. Qed.

Lemma keep_obs_unfold (t : column_test) (adata : AnnData) :
  keep_obs t adata =
  (s ← obs_column (test_column t) adata;
   mask ← mapM (λ v, match t with Below _ q => value_lt v q | Above _ q => value_gt v q end) s;
   mret (subset_obs mask adata)).
Proof. by destruct t. Qed.

Lemma value_test_outcome (t : column_test) (v : value) :
  (∃ s, v = Str s) ∧
    match t with Below _ q => value_lt v q | Above _ q => value_gt v q end = Err TypeError
  ∨ (∀ s, v ≠ Str s) ∧
    ∃ b, match t with Below _ q => value_lt v q | Above _ q => value_gt v q end = Ok b.
Proof.
  destruct v; destruct t; simpl; first [by left; eauto | by right; eauto].
Qed.

(** How a cell subset fails on a matrix that has cells.  If some cell
    has no value in the tested column, as when the column was never
    written, the subset raises [AttributeError] for that column.  If
    every cell has a value and one of them is a string, it raises
    [TypeError].  If each cell has a value that is no string, it
    returns. *)
Theorem cell_subset_errors (t : column_test) (adata : AnnData) :
  (Exists (λ c, annot c !! test_column t = None) (obs adata) →
   keep_obs t adata = Err (AttributeError (test_column t))) ∧
  (Forall (λ c, is_Some (annot c !! test_column t)) (obs adata) →
   Exists (λ c, ∃ s, annot c !! test_column t = Some (Str s)) (obs adata) →
   keep_obs t adata = Err TypeError) ∧
  (obs adata ≠ [] →
   Forall (λ c, ∃ v, annot c !! test_column t = Some v ∧ ∀ s, v ≠ Str s) (obs adata) →
   ∃ out, keep_obs t adata = Ok out).
Proof.
  split; [|split].
  - intros Hmiss. rewrite keep_obs_unfold. unfold obs_column.
    rewrite (mapM_Err _ (AttributeError (test_column t))); [done| |].
    + apply Forall_forall. intros c _. destruct (annot c !! test_column t); simpl; eauto.
    + eapply Exists_impl; [exact Hmiss|]. intros c Hc. simpl in *. by rewrite Hc.
  - intros Hall Hstr. rewrite keep_obs_unfold. unfold obs_column.
    destruct (mapM_total (λ c, or_raise (AttributeError (test_column t))
                (annot c !! test_column t)) (obs adata)) as [s Hs].
    { eapply Forall_impl; [exact Hall|]. intros c [v Hv]. simpl. rewrite Hv. by exists v. }
    rewrite Hs. simpl. rewrite (mapM_Err _ TypeError); [done| |].
    + apply Forall_forall. intros v _.
      destruct (value_test_outcome t v) as [[_ ->]|[_ [b ->]]]; eauto.
    + apply mapM_Ok in Hs. apply Exists_exists in Hstr as (c & Hc & str & Hv).
      apply list_elem_of_lookup_1 in Hc as [i Hi].
      destruct (Forall2_lookup_l _ _ _ _ _ Hs Hi) as (v & Hvi & Hcv).
      simpl in Hcv. rewrite Hv in Hcv. injection Hcv as <-.
      apply Exists_exists. exists (Str str). split; [by eapply list_elem_of_lookup_2|].
      by destruct t.
  - intros _ Hall. apply keep_obs_total. eapply Forall_impl; [exact Hall|].
    intros c (v & Hv & Hns). simpl in *. rewrite passes_unfold, Hv. simpl.
    destruct (value_test_outcome t v) as [[[s ->] _]|[_ Hb]]; [by destruct (Hns s)|done].
Qed.

Lemma cell_subset_errors_witness :
  keep_obs (Below "pct_counts_mt" 10) mito_sample = Err (AttributeError "pct_counts_mt") ∧
  keep_obs (Above "b" 1) mixed_columns = Err TypeError ∧
  ∃ out, keep_obs (Below "a" 5) mixed_columns = Ok out.
Proof.
  destruct (cell_subset_errors (Below "pct_counts_mt" 10) mito_sample) as [Hattr _].
  destruct (cell_subset_errors (Above "b" 1) mixed_columns) as (_ & Htype & _).
  destruct (cell_subset_errors (Below "a" 5) mixed_columns) as (_ & _ & Hok).
  split; [|split].
  - apply Hattr. apply Exists_cons_hd. reflexivity.
  - apply Htype.
    + repeat constructor; by eexists.
    + apply Exists_cons_hd. by exists "high".
  - apply Hok; [discriminate|].
    repeat constructor; eexists; (split; [reflexivity | discriminate]).
Defined.

(** ** Columns by label, continued *)

(** What [select_var] picks for each label: the position and the record
    of the gene with that symbol. *)
Lemma select_var_picked (names : list string) (adata adata' : AnnData) :
  NoDup (var_names adata) →
  select_var names adata = Ok adata' →
  ∃ picked : list (nat * Gene),
    Forall2 (λ name p, var adata !! p.1 = Some p.2 ∧ var_names adata !! p.1 = Some name)
            names picked ∧
    obs adata' = (λ c, set_counts ((λ p : nat * Gene, entry p.1 c) <$> picked) c) <$> obs adata ∧
    var adata' = snd <$> picked.
Proof.
  intros _. unfold select_var. intros H.
  apply bind_Ok in H as (picked & Hp & [= <-]). apply mapM_Ok in Hp.
  exists picked. split; [|done].
  eapply Forall2_impl; [exact Hp|]. intros name [j g] Hfind. simpl in *.
  destruct (list_find _ _) as [[j' g']|] eqn:Hf; [|discriminate Hfind].
  injection Hfind as -> ->. apply list_find_Some in Hf as (Hj & Hs & _).
  split; [done|]. unfold var_names. by rewrite list_lookup_fmap, Hj, <- Hs.
Qed.

Lemma select_var_columns (names : list string) (adata adata' : AnnData) :
  NoDup (var_names adata) →
  select_var names adata = Ok adata' →
  (∀ k j name, names !! k = Some name → var_names adata !! j = Some name →
     var adata' !! k = var adata !! j ∧ column k adata' = column j adata) ∧
  obs_names adata' = obs_names adata ∧
  annot <$> obs adata' = annot <$> obs adata ∧
  var_names adata' = names ∧
  rectangular adata'.
Proof.
  intros Hnd H.
  destruct (select_var_picked _ _ _ Hnd H) as (picked & Hp & Hobs & Hvar).
  split; [|split; [|split; [|split]]].
  - intros k j name Hk Hj.
    destruct (Forall2_lookup_l _ _ _ _ _ Hp Hk) as ([j' g] & Hpk & Hg & Hj').
    simpl in *. assert (j' = j) as -> by (by eapply NoDup_lookup).
    split.
    + by rewrite Hvar, list_lookup_fmap, Hpk, Hg.
    + unfold column. rewrite Hobs, <- list_fmap_compose.
      apply list_fmap_ext. intros i c _. unfold compose, entry. simpl.
      apply nth_lookup_Some. by rewrite list_lookup_fmap, Hpk.
  - unfold obs_names. rewrite Hobs, <- list_fmap_compose. by apply list_fmap_ext.
  - rewrite Hobs, <- list_fmap_compose. by apply list_fmap_ext.
  - by apply select_var_spec in H as [? _].
  - unfold rectangular, n_vars. rewrite Hobs, Hvar.
    apply Forall_fmap, Forall_forall. intros c _. simpl. by rewrite !length_fmap.
Qed.

(** The column selected for a label is the column that carries the label.
    With unique gene symbols, if [names] has [name] at position [k] and
    the matrix has it at position [j], then column [k] of the selection
    is column [j] of the matrix, with the same gene record; the cells,
    their barcodes and their annotations are those of the matrix, and
    every row of the selection has one entry per label. *)
Theorem select_var_lookup (names : list string) (adata adata' : AnnData) :
  NoDup (var_names adata) →
  select_var names adata = Ok adata' →
  (∀ k j name, names !! k = Some name → var_names adata !! j = Some name →
     var adata' !! k = var adata !! j ∧ column k adata' = column j adata) ∧
  obs_names adata' = obs_names adata ∧
  annot <$> obs adata' = annot <$> obs adata ∧
  var_names adata' = names ∧
  rectangular adata'.
Proof.
  apply select_var_columns.
Qed.

Lemma sample_abc_unique : NoDup (var_names sample_abc).
Proof. compute_done. Qed.

Lemma select_var_lookup_witness :
  ∃ adata', select_var ["C"; "B"] sample_abc = Ok adata' ∧
            column 0 adata' = column 2 sample_abc.
Proof.
  eexists. split; [reflexivity|].
  destruct (select_var_lookup ["C"; "B"] sample_abc _ sample_abc_unique eq_refl)
    as (Hcol & _).
  apply (Hcol 0 2 "C"); reflexivity.
Defined.

Lemma select_var_first_missing (known rest : list string) (x : string) (adata : AnnData) :
  known ⊆ var_names adata →
  x ∉ var_names adata →
  select_var (known ++ x :: rest) adata = Err (KeyError x).
Proof.
  intros Hknown Hx. unfold select_var.
  assert (mapM (λ name, or_raise (KeyError name)
                  (list_find (λ g, symbol g = name) (var adata))) (known ++ x :: rest)
          = Err (KeyError x)) as ->; [|done].
  induction known as [|y known IH]; simpl.
  - destruct (list_find _ _) as [[j g]|] eqn:Hf; [|done].
    apply list_find_Some in Hf as (Hj & Hs & _). destruct Hx.
    apply list_elem_of_fmap. exists g. split; [done|]. by eapply list_elem_of_lookup_2.
  - assert (y ∈ var_names adata) as Hy by (apply Hknown; left).
    apply list_elem_of_fmap in Hy as (g & -> & Hg).
    destruct (list_find_elem_of (λ g', symbol g' = symbol g) (var adata) g Hg eq_refl)
      as [p ->]. simpl. rewrite IH; [done|].
    intros z Hz. apply Hknown. by right.
Qed.

Lemma first_missing (names labels : list string) (x : string) :
  x ∈ names → x ∉ labels →
  ∃ known y rest, names = known ++ y :: rest ∧ known ⊆ labels ∧ y ∈ names ∧ y ∉ labels.
Proof.
  induction names as [|z names IH]; intros Hx Hnot; [by apply elem_of_nil in Hx|].
  destruct (decide (z ∈ labels)) as [Hz|Hz].
  - apply elem_of_cons in Hx as [->|Hx]; [done|].
    destruct (IH Hx Hnot) as (known & y & rest & -> & Hk & Hy & Hy').
    exists (z :: known), y, rest. split; [done|]. split; [|split; [by right|done]].
    intros w Hw. apply elem_of_cons in Hw as [->|Hw]; auto.
  - exists [], z, names. split; [done|]. split; [|split; [by left|done]].
    intros w Hw. by apply elem_of_nil in Hw.
Qed.

Lemma select_var_missing_label_aux (names : list string) (adata : AnnData) (x : string) :
  x ∈ names → x ∉ var_names adata →
  ∃ y, select_var names adata = Err (KeyError y) ∧ y ∈ names ∧ y ∉ var_names adata.
Proof.
  intros Hx Hnot.
  destruct (first_missing names (var_names adata) x Hx Hnot)
    as (known & y & rest & -> & Hk & Hy & Hy').
  exists y. split; [|done]. by apply select_var_first_missing.
Qed.

(** When [adata[:, names]] raises.  With unique gene symbols the
    selection succeeds if every requested label is a gene of the matrix,
    and a request with a label that is no gene raises [KeyError] for a
    requested label that is missing. *)
Theorem select_var_missing_label (names : list string) (adata : AnnData) :
  NoDup (var_names adata) →
  (names ⊆ var_names adata → ∃ adata', select_var names adata = Ok adata') ∧
  (∀ x, x ∈ names → x ∉ var_names adata →
     ∃ y, select_var names adata = Err (KeyError y) ∧ y ∈ names ∧ y ∉ var_names adata).
Proof.
  intros _. split; [apply select_var_total|]. intros x.
  apply select_var_missing_label_aux.
Qed.

Lemma select_var_missing_label_witness :
  ∃ y, select_var ["B"; "D"; "E"] sample_abc = Err (KeyError y) ∧
       y ∈ ["B"; "D"; "E"] ∧ y ∉ var_names sample_abc.
Proof.
  destruct (select_var_missing_label ["B"; "D"; "E"] sample_abc sample_abc_unique)
    as [_ Hmiss].
  apply (Hmiss "E"); compute_done.
Defined.

Lemma cells_eq (l' l : list Cell) :
  Forall2 (λ c' c, barcode c' = barcode c ∧ annot c' = annot c) l' l →
  counts <$> l' = counts <$> l →
  l' = l.
Proof.
  induction 1 as [|[b' a' r'] [b a r] l' l [Hb Ha] _ IH]; [done|].
  rewrite !fmap_cons. simpl in *. intros [= -> Hrest]. subst. f_equal. by apply IH.
Qed.

(** Selecting the same labels again changes nothing: with unique gene
    symbols and no label requested twice, the selection is a fixed point
    of the selection by the same labels, so re-running
    [car1=car1[:,var_names]] leaves [car1] as it is. *)
Theorem select_var_idempotent (names : list string) (adata adata' : AnnData) :
  NoDup (var_names adata) → NoDup names →
  select_var names adata = Ok adata' →
  select_var names adata' = Ok adata'.
Proof.
  intros Hnd Hnames H.
  destruct (select_var_columns _ _ _ Hnd H) as (_ & _ & _ & Hvn & Hrect).
  destruct (select_var_total names adata') as [adata'' H'']; [by rewrite Hvn|].
  rewrite H''. f_equal.
  destruct (select_var_spec _ _ _ H'') as (_ & _ & Hcells).
  rewrite <- Hvn in H'' at 1.
  apply select_var_all in H'' as [HX Hvar]; [|by rewrite Hvn|done].
  destruct adata'' as [o v], adata' as [o' v']. simpl in *. f_equal; [|done].
  by apply cells_eq.
Qed.

Lemma select_var_idempotent_witness :
  ∃ adata', select_var ["C"; "B"] sample_abc = Ok adata' ∧
            select_var ["C"; "B"] adata' = Ok adata'.
Proof.
  eexists. split; [reflexivity|].
  apply (select_var_idempotent ["C"; "B"] sample_abc _ sample_abc_unique);
    [compute_done | reflexivity].
Defined.

Lemma NoDup_subseteq_length (l k : list string) :
  NoDup l → l ⊆ k → length l ≤ length k.
Proof. intros Hl Hsub. by apply submseteq_length, NoDup_submseteq. Qed.

(** The third statement of the merge cell, [car1=car1[:,var_names]].
    Once the first statement has bound [var_names] to the genes that
    [car1] shares with another matrix, [car1] has every one of them:
    with unique gene symbols in [car1] the statement cannot raise
    [KeyError]; it rebinds [car1] to a matrix whose columns are the
    shared genes, in the order of [var_names] and without duplicates,
    each being the column of that gene in [car1]; the cells are kept and
    the matrix gets no wider. *)
Theorem car1_restriction_cannot_raise (ns : namespace) (naive car1 : AnnData) :
  ns !! "car1" = Some (Matrix car1) →
  ns !! "var_names" = Some (Index (intersection (var_names naive) (var_names car1))) →
  NoDup (var_names car1) →
  ∃ car1',
    assign_car1 ns = Ok (<["car1" := Matrix car1']> ns) ∧
    var_names car1' = intersection (var_names naive) (var_names car1) ∧
    NoDup (var_names car1') ∧
    obs_names car1' = obs_names car1 ∧
    n_vars car1' ≤ n_vars car1 ∧
    ∀ k name, var_names car1' !! k = Some name →
      ∃ j, var_names car1 !! j = Some name ∧ column k car1' = column j car1.
Proof.
  intros Hcar1 Hnames Hc.
  set (shared := intersection (var_names naive) (var_names car1)) in *.
  assert (shared ⊆ var_names car1) as Hsc.
  { intros x Hx. by apply elem_of_intersection in Hx as [_ ?]. }
  destruct (select_var_total shared car1 Hsc) as [car1' Hc'].
  exists car1'. split.
  { unfold assign_car1. rewrite (name_matrix_bound _ _ _ Hcar1). simpl.
    rewrite (name_index_bound _ _ _ Hnames). simpl. by rewrite Hc'. }
  destruct (select_var_columns _ _ _ Hc Hc') as (Hcolc & Hoc & _ & Hvc & _).
  assert (NoDup shared) as Hnd by apply NoDup_intersection.
  split; [done|]. split; [by rewrite Hvc|]. split; [done|].
  split.
  { unfold n_vars. rewrite <- !(length_fmap symbol). fold (var_names car1').
    fold (var_names car1). rewrite Hvc. by apply NoDup_subseteq_length. }
  intros k name Hk. rewrite Hvc in Hk.
  assert (name ∈ shared) as Hin by (by eapply list_elem_of_lookup_2).
  destruct (list_elem_of_lookup_1 _ _ (Hsc _ Hin)) as [j Hj].
  exists j. split; [done|]. by apply (Hcolc k j name).
Qed.

Lemma sample_bcd_unique : NoDup (var_names sample_bcd).
Proof. compute_done. Qed.

Lemma car1_restriction_cannot_raise_witness :
  ∃ car1',
    assign_car1 (<["var_names" := Index ["B"; "C"]]> fresh_kernel)
    = Ok (<["car1" := Matrix car1']> (<["var_names" := Index ["B"; "C"]]> fresh_kernel)) ∧
    var_names car1' = ["B"; "C"].
Proof.
  destruct (car1_restriction_cannot_raise (<["var_names" := Index ["B"; "C"]]> fresh_kernel)
              sample_abc sample_bcd) as (car1' & Hrun & Hnames & _);
    [reflexivity | reflexivity | exact sample_bcd_unique |].
  by exists car1'.
Defined.

(** ** The merge cell, statement by statement *)

(** The cell is its four assignments followed by the clustering of
    [adata] and the plot. *)
Lemma cell_merge_by_statements (sc : Scanpy) (ns : namespace) :
  cell_merge sc ns =
  match run_statements merge_assignments ns with
  | (ns', None) =>
      adata ← name_matrix ns' "adata";
      adata ← Clustering sc adata;
      let ns' := <["adata" := Matrix adata]> ns' in
      adata ← name_matrix ns' "adata";
      _ ← pl_umap sc ["sample"; "leiden"] adata;
      mret ns'
  | (_, Some e) => Err e
  end.
Proof.
  unfold cell_merge, merge_assignments, run_statements.
  unfold assign_var_names at 1.
  destruct (name_matrix ns "naive") as [naive|e]; [|done]. cbn [mbind result_bind].
  destruct (name_matrix ns "car1") as [car1|e]; [|done]. cbn [mbind result_bind mret result_ret].
  set (ns1 := <["var_names" := _]> ns).
  unfold assign_naive at 1.
  destruct (name_matrix ns1 "naive_treated") as [t|e]; [|done]. cbn [mbind result_bind].
  destruct (name_index ns1 "var_names") as [names|e]; [|done]. cbn [mbind result_bind].
  destruct (select_var names t) as [naive'|e]; [|done]. cbn [mbind result_bind mret result_ret].
  set (ns2 := <["naive" := _]> ns1).
  unfold assign_car1 at 1.
  destruct (name_matrix ns2 "car1") as [c|e]; [|done]. cbn [mbind result_bind].
  destruct (name_index ns2 "var_names") as [names'|e]; [|done]. cbn [mbind result_bind].
  destruct (select_var names' c) as [car1'|e]; [|done]. cbn [mbind result_bind mret result_ret].
  set (ns3 := <["car1" := _]> ns2).
  unfold assign_adata at 1.
  destruct (name_matrix ns3 "naive") as [n|e]; [|done]. cbn [mbind result_bind].
  destruct (name_matrix ns3 "car1") as [c'|e]; [|done]. cbn [mbind result_bind].
  destruct (concatenate n c') as [adata|e]; [|done]. done.
Qed.

(** The first assignment, with both samples bound. *)
Lemma assign_var_names_bound (ns : namespace) (naive car1 : AnnData) :
  ns !! "naive" = Some (Matrix naive) →
  ns !! "car1" = Some (Matrix car1) →
  assign_var_names ns
  = Ok (<["var_names" := Index (intersection (var_names naive) (var_names car1))]> ns).
Proof.
  intros Hn Hc. unfold assign_var_names.
  by rewrite (name_matrix_bound _ _ _ Hn), (name_matrix_bound _ _ _ Hc).
Qed.

Lemma merge_cell_failure_state_aux (ns : namespace) (naive car1 : AnnData) :
  ns !! "naive" = Some (Matrix naive) →
  ns !! "car1" = Some (Matrix car1) →
  ns !! "naive_treated" = None →
  ∃ after,
    run_statements merge_assignments ns = (after, Some (NameError "naive_treated")) ∧
    (∀ x, x ≠ "var_names" → after !! x = ns !! x).
Proof.
  intros Hn Hc Hnone.
  exists (<["var_names" := Index (intersection (var_names naive) (var_names car1))]> ns).
  split.
  - unfold merge_assignments, run_statements.
    rewrite (assign_var_names_bound ns naive car1) by done.
    unfold assign_naive. rewrite name_matrix_unbound; [done|].
    by rewrite lookup_insert_ne.
  - intros x Hx. by rewrite lookup_insert_ne.
Qed.

(** What the failing merge cell leaves behind.  In a kernel where
    [naive] and [car1] are bound and [naive_treated] is not, the cell
    stops at its second statement with [NameError]; by then it has bound
    [var_names] to the shared genes and nothing else: [naive], [car1]
    and every other name are as before, and [adata] is bound only if it
    was.  Running the cell again raises the same error and changes
    nothing more. *)
Theorem merge_cell_failure_state (ns : namespace) (naive car1 : AnnData) :
  ns !! "naive" = Some (Matrix naive) →
  ns !! "car1" = Some (Matrix car1) →
  ns !! "naive_treated" = None →
  ∃ after,
    run_statements merge_assignments ns = (after, Some (NameError "naive_treated")) ∧
    after = <["var_names" := Index (intersection (var_names naive) (var_names car1))]> ns ∧
    (∀ x, x ≠ "var_names" → after !! x = ns !! x) ∧
    run_statements merge_assignments after = (after, Some (NameError "naive_treated")) ∧
    ∀ sc, cell_merge sc after = Err (NameError "naive_treated").
Proof.
  intros Hn Hc Hnone.
  set (after := <["var_names" := Index (intersection (var_names naive) (var_names car1))]> ns).
  assert (∀ x, x ≠ "var_names" → after !! x = ns !! x) as Hframe.
  { intros x Hx. unfold after. by rewrite lookup_insert_ne. }
  assert (assign_naive after = Err (NameError "naive_treated")) as Hraise.
  { unfold assign_naive. rewrite name_matrix_unbound; [done|].
    by rewrite Hframe. }
  assert (assign_var_names after = Ok after) as Hagain.
  { rewrite (assign_var_names_bound after naive car1) by (by rewrite Hframe).
    unfold after. by rewrite insert_insert_eq. }
  exists after. split; [|split; [done|split; [done|split]]].
  - unfold merge_assignments, run_statements.
    rewrite (assign_var_names_bound ns naive car1) by done.
    fold after. by rewrite Hraise.
  - unfold merge_assignments, run_statements. by rewrite Hagain, Hraise.
  - intros sc. rewrite cell_merge_by_statements.
    unfold merge_assignments, run_statements. by rewrite Hagain, Hraise.
Qed.

Lemma merge_cell_failure_state_witness :
  ∃ after,
    run_statements merge_assignments fresh_kernel = (after, Some (NameError "naive_treated")) ∧
    after !! "naive" = Some (Matrix sample_abc) ∧
    after !! "adata" = None.
Proof.
  destruct (merge_cell_failure_state fresh_kernel sample_abc sample_bcd)
    as (after & Hrun & _ & Hframe & _); [reflexivity..|].
  exists after. split; [exact Hrun|].
  split; rewrite Hframe by discriminate; reflexivity.
Defined.

(** The integration cell after the failed merge.  The cell reads
    [adata] first, so in any kernel without that name it raises
    [NameError] before any routine is called; this is the kernel that
    the notebook's own cells leave, since the merge cell stops before
    its assignment to [adata]. *)
Theorem integrate_cell_needs_adata (sc : Scanpy) :
  (∀ ns, ns !! "adata" = None → cell_integrate sc ns = Err (NameError "adata")) ∧
  (∀ ns, run_to_merge sc = Ok ns →
     ∃ after,
       run_statements merge_assignments ns = (after, Some (NameError "naive_treated")) ∧
       after !! "adata" = None ∧
       cell_integrate sc after = Err (NameError "adata")).
Proof.
  assert (∀ ns, ns !! "adata" = None → cell_integrate sc ns = Err (NameError "adata"))
    as Hint.
  { intros ns Hnone. unfold cell_integrate. by rewrite name_matrix_unbound. }
  split; [done|].
  intros ns (naive & car1 & ->)%run_to_merge_names.
  set (ns := <["car1" := Matrix car1]> (<["naive" := Matrix naive]> ∅) : namespace).
  destruct (merge_cell_failure_state_aux ns naive car1) as (after & Hrun & Hframe).
  - unfold ns. rewrite lookup_insert_ne by done. apply lookup_insert_eq.
  - apply lookup_insert_eq.
  - unfold ns. by rewrite !lookup_insert_ne by done.
  - exists after. split; [done|].
    assert (after !! "adata" = None) as Hnone.
    { rewrite Hframe by done. unfold ns. by rewrite !lookup_insert_ne by done. }
    split; [done|]. by apply Hint.
Qed.

Lemma integrate_cell_needs_adata_witness :
  ∃ ns after,
    run_to_merge plain_scanpy = Ok ns ∧
    run_statements merge_assignments ns = (after, Some (NameError "naive_treated")) ∧
    cell_integrate plain_scanpy after = Err (NameError "adata").
Proof.
  assert ((λ _, ()) <$> run_to_merge plain_scanpy = Ok ()) as Hok
    by (vm_compute; reflexivity).
  destruct (run_to_merge plain_scanpy) as [ns|e] eqn:Hrun; [|discriminate Hok].
  destruct (integrate_cell_needs_adata plain_scanpy) as [_ Hafter].
  destruct (Hafter ns Hrun) as (after & Hstop & _ & Hint).
  by exists ns, after.
Defined.

(** The merge cell in a kernel that still holds [naive_treated].  The
    second statement reads that name, not [naive]: if the matrix bound
    to it has all the shared genes, the four assignments run, [naive] is
    rebound to the restriction of [naive_treated], and [adata] is the
    concatenation of that restriction with the restricted [car1], so it
    has the cells of [naive_treated] and of [car1], and none of the
    matrix that [naive] held.  If it lacks a shared gene, the cell stops
    at the second statement with [KeyError]. *)
Theorem merge_cell_reads_naive_treated (ns : namespace) (naive car1 treated : AnnData) :
  ns !! "naive" = Some (Matrix naive) →
  ns !! "car1" = Some (Matrix car1) →
  ns !! "naive_treated" = Some (Matrix treated) →
  NoDup (var_names car1) → NoDup (var_names treated) →
  let shared := intersection (var_names naive) (var_names car1) in
  (shared ⊆ var_names treated →
   ∃ after treated' car1' merged,
     run_statements merge_assignments ns = (after, None) ∧
     select_var shared treated = Ok treated' ∧
     select_var shared car1 = Ok car1' ∧
     concatenate treated' car1' = Ok merged ∧
     after !! "naive" = Some (Matrix treated') ∧
     after !! "car1" = Some (Matrix car1') ∧
     after !! "adata" = Some (Matrix merged) ∧
     obs_names treated' = obs_names treated ∧
     n_obs merged = n_obs treated + n_obs car1) ∧
  (∀ x, x ∈ shared → x ∉ var_names treated →
   ∃ y, run_statements merge_assignments ns
        = (<["var_names" := Index shared]> ns, Some (KeyError y)) ∧
        y ∈ shared ∧ y ∉ var_names treated).
Proof.
  intros Hn Hc Ht Hndc Hndt shared.
  set (ns1 := <["var_names" := Index shared]> ns).
  assert (assign_var_names ns = Ok ns1) as H1 by (by apply assign_var_names_bound).
  assert (name_matrix ns1 "naive_treated" = Ok treated) as Ht1.
  { apply name_matrix_bound. unfold ns1. by rewrite lookup_insert_ne. }
  assert (name_index ns1 "var_names" = Ok shared) as Hi1.
  { apply name_index_bound. apply lookup_insert_eq. }
  split.
  - intros Hsub.
    destruct (select_var_total shared treated Hsub) as [treated' Hsel].
    destruct (select_var_total shared car1) as [car1' Hselc].
    { intros x Hx. by apply elem_of_intersection in Hx as [_ ?]. }
    destruct (concatenate_spec treated' car1')
      as (merged & a & b & columns & Hcat & Ha & Hb & Hobs & _).
    set (ns2 := <["naive" := Matrix treated']> ns1).
    set (ns3 := <["car1" := Matrix car1']> ns2).
    exists (<["adata" := Matrix merged]> ns3), treated', car1', merged.
    assert (assign_naive ns1 = Ok ns2) as H2.
    { unfold assign_naive. rewrite Ht1. simpl. rewrite Hi1. simpl. by rewrite Hsel. }
    assert (assign_car1 ns2 = Ok ns3) as H3.
    { unfold assign_car1. rewrite (name_matrix_bound ns2 "car1" car1).
      - simpl. rewrite (name_index_bound ns2 "var_names" shared).
        + simpl. by rewrite Hselc.
        + unfold ns2. rewrite lookup_insert_ne by done. apply lookup_insert_eq.
      - unfold ns2, ns1. by rewrite !lookup_insert_ne by done. }
    assert (assign_adata ns3 = Ok (<["adata" := Matrix merged]> ns3)) as H4.
    { unfold assign_adata. rewrite (name_matrix_bound ns3 "naive" treated').
      - simpl. rewrite (name_matrix_bound ns3 "car1" car1') by apply lookup_insert_eq.
        simpl. by rewrite Hcat.
      - unfold ns3. rewrite lookup_insert_ne by done. apply lookup_insert_eq. }
    split.
    { unfold merge_assignments, run_statements. by rewrite H1, H2, H3, H4. }
    split; [done|]. split; [done|]. split; [done|].
    split.
    { rewrite lookup_insert_ne by done. unfold ns3.
      rewrite lookup_insert_ne by done. apply lookup_insert_eq. }
    split.
    { rewrite lookup_insert_ne by done. apply lookup_insert_eq. }
    split; [apply lookup_insert_eq|].
    destruct (select_var_columns _ _ _ Hndt Hsel) as (_ & Hnames & _).
    split; [done|].
    destruct (select_var_obs _ _ _ Ha) as [fa Hoa].
    destruct (select_var_obs _ _ _ Hb) as [fb Hob].
    destruct (select_var_obs _ _ _ Hsel) as [ft Hot].
    destruct (select_var_obs _ _ _ Hselc) as [fc Hoc].
    unfold n_obs. rewrite Hobs, length_app, !length_fmap, Hoa, Hob, !length_fmap.
    by rewrite Hot, Hoc, !length_fmap.
  - intros x Hx Hnot.
    destruct (select_var_missing_label_aux shared treated x Hx Hnot) as (y & Hy & Hin & Hny).
    exists y. split; [|done].
    unfold merge_assignments, run_statements. rewrite H1.
    unfold assign_naive. rewrite Ht1. simpl. rewrite Hi1. simpl. by rewrite Hy.
Qed.

Lemma merge_cell_reads_naive_treated_witness :
  (∃ after merged,
     run_statements merge_assignments stale_kernel = (after, None) ∧
     after !! "adata" = Some (Matrix merged) ∧
     n_obs merged = n_obs naive_sample + n_obs sample_bcd) ∧
  (∃ after y,
     run_statements merge_assignments
       (<["naive_treated" := Matrix {| obs := []; var := [gene_of "B"] |}]> stale_kernel)
     = (after, Some (KeyError y))).
Proof.
  split.
  - destruct (merge_cell_reads_naive_treated stale_kernel sample_abc sample_bcd naive_sample)
      as [Hruns _]; [reflexivity..|compute_done|compute_done|].
    destruct Hruns as (after & t' & c' & merged & Hrun & _ & _ & _ & _ & _ & Hadata & _ & Hn).
    { change (intersection (var_names sample_abc) (var_names sample_bcd)) with ["B"; "C"].
      change (var_names naive_sample) with ["B"; "C"]. done. }
    by exists after, merged.
  - destruct (merge_cell_reads_naive_treated
                (<["naive_treated" := Matrix {| obs := []; var := [gene_of "B"] |}]> stale_kernel)
                sample_abc sample_bcd {| obs := []; var := [gene_of "B"] |})
      as [_ Hstops]; [reflexivity..|compute_done|compute_done|].
    destruct (Hstops "C") as (y & Hrun & _); [compute_done..|].
    by eexists _, y.
Defined.

(** ** The flag columns *)

(** No symbol starts with [mt-] and with [Rps] or [Rpl]. *)
Lemma flags_disjoint (name : string) :
  existsb (λ p, String.prefix p name) ["mt-"]
  && existsb (λ p, String.prefix p name) ["Rps"; "Rpl"] = false.
Proof.
  simpl. destruct (String.prefix "mt-" name) eqn:Hmt; [|done].
  apply prefix_correct in Hmt. simpl in Hmt.
  destruct (String.prefix "Rps" name) eqn:Hrps.
  { apply prefix_correct in Hrps. simpl in Hrps. congruence. }
  destruct (String.prefix "Rpl" name) eqn:Hrpl; [|done].
  apply prefix_correct in Hrpl. simpl in Hrpl. congruence.
Qed.

Lemma Qsum_disjoint_masks (m1 m2 : list bool) (row : list Q) :
  Forall (λ x, (0 <= x)%Q) row →
  Forall2 (λ a b, a && b = false) m1 m2 →
  (Qsum (filter_mask m1 row) + Qsum (filter_mask m2 row) <= Qsum row)%Q.
Proof.
  intros Hrow Hm. revert row Hrow.
  induction Hm as [|a b m1 m2 Hab _ IH]; intros row Hrow.
  - simpl. pose proof (Qsum_nonneg row Hrow). lra.
  - destruct Hrow as [|x row Hx Hrow]; [simpl; lra|].
    specialize (IH row Hrow). destruct a, b; simpl in *; try discriminate; lra.
Qed.

Lemma percentages_sum (a b t : Q) :
  (0 < t)%Q → (a + b <= t)%Q →
  ∃ m r, float_scale (float_div a t) 100 = Num m ∧
         float_scale (float_div b t) 100 = Num r ∧
         (m + r <= 100)%Q.
Proof.
  intros Hpos Hle. unfold float_div.
  destruct (Qeq_bool t 0) eqn:Hz.
  { apply Qeq_bool_eq in Hz. rewrite Hz in Hpos. by apply Qlt_irrefl in Hpos. }
  simpl. eexists _, _. split; [reflexivity|]. split; [reflexivity|].
  assert (a / t * 100 + b / t * 100 == (a + b) / t * 100)%Q as -> by (field; lra).
  assert ((a + b) / t <= 1)%Q by (apply Qle_shift_div_r; lra).
  lra.
Qed.

(** A cell that passes the gene filter and the cell filter is a cell of
    the input, restricted to the kept genes, with at least 200 of them
    expressed. *)
Lemma kept_cells (adata : AnnData) (c1 : Cell) :
  c1 ∈ obs (filter_cells 200 (filter_genes 3 adata)) →
  200 ≤ count_if expressed (counts c1) ∧
  ∃ c0 mask, c0 ∈ obs adata ∧ counts c1 = filter_mask mask (counts c0).
Proof.
  rewrite filter_cells_obs. intros (c2 & -> & Hc2)%list_elem_of_fmap.
  apply list_elem_of_filter in Hc2 as [Hmin Hc2].
  destruct (filter_genes_obs 3 adata) as [mask Hfg]. rewrite Hfg in Hc2.
  apply list_elem_of_fmap in Hc2 as (c0 & -> & Hc0).
  split; [done|]. by exists c0, mask.
Qed.

Lemma kept_cells_total (adata : AnnData) (c1 : Cell) :
  nonnegative adata →
  c1 ∈ obs (filter_cells 200 (filter_genes 3 adata)) →
  Forall (λ x, (0 <= x)%Q) (counts c1) ∧ (0 < Qsum (counts c1))%Q.
Proof.
  intros Hnn Hc1. destruct (kept_cells adata c1 Hc1) as (Hmin & c0 & mask & Hc0 & Hrow).
  assert (Forall (λ x, (0 <= x)%Q) (counts c1)) as Hpos.
  { rewrite Hrow. apply Forall_filter_mask.
    unfold nonnegative in Hnn. rewrite Forall_forall in Hnn. by apply Hnn. }
  split; [done|]. apply Qsum_pos; [done|lia].
Qed.

(** The mitochondrial and the ribosomal share of a cell overlap in no
    gene: no symbol starts with [mt-] and with [Rps] or [Rpl], so on a
    matrix without negative entries the two percentages of every cell
    that the quality control returns are numbers that sum to at most
    100. *)
Theorem qc_percentages_share_the_total (adata out : AnnData) :
  nonnegative adata →
  BasicFiltering_qc adata = Ok out →
  Forall percentages_share_total (obs out).
Proof.
  intros Hnn Hrun.
  destruct (BasicFiltering_qc_flags adata) as (out' & Hrun' & Hobs).
  rewrite Hrun in Hrun'. injection Hrun' as <-.
  rewrite Hobs. do 3 apply Forall_on_filter.
  apply Forall_fmap, Forall_forall. intros c1 Hc1. simpl.
  destruct (kept_cells_total adata c1 Hnn Hc1) as [Hpos Htotal].
  set (kept := filter_cells 200 (filter_genes 3 adata)).
  destruct (percentages_sum (Qsum (filter_mask (prefix_flags ["mt-"] kept) (counts c1)))
              (Qsum (filter_mask (prefix_flags ["Rps"; "Rpl"] kept) (counts c1)))
              (Qsum (counts c1)) Htotal) as (m & r & Hm & Hr & Hsum).
  { apply Qsum_disjoint_masks; [done|]. unfold prefix_flags.
    apply Forall2_fmap, Forall_Forall2_diag, Forall_forall. intros name _.
    apply flags_disjoint. }
  exists m, r. split; [|split; [|done]].
  - by rewrite describe_obs_pct_counts_mt, Hm.
  - by rewrite describe_obs_pct_counts_ribo, Hr.
Qed.

Lemma qc_percentages_share_the_total_witness :
  ∃ out, BasicFiltering_qc dense_sample = Ok out ∧
         Forall percentages_share_total (obs out).
Proof.
  pose proof dense_sample_qc as Hrun.
  destruct (BasicFiltering_qc dense_sample) as [out|e] eqn:H; [|discriminate Hrun].
  exists out. split; [reflexivity|].
  apply (qc_percentages_share_the_total dense_sample out dense_sample_nonnegative H).
Defined.

Lemma filter_genes_symbols (k : nat) (adata : AnnData) :
  var_names (filter_cells 200 (filter_genes k adata)) ⊆ var_names adata.
Proof.
  intros s (g & -> & Hg)%list_elem_of_fmap.
  change (var (filter_cells 200 (filter_genes k adata))) with (var (filter_genes k adata)) in Hg.
  apply filter_genes_var in Hg as (g0 & n & Hg0 & -> & _).
  apply list_elem_of_fmap. by exists g0.
Qed.

Lemma Qsum_no_flag (flags : list bool) (row : list Q) :
  Forall (λ b, b = false) flags → Qsum (filter_mask flags row) = 0%Q.
Proof. intros H. by rewrite filter_mask_none. Qed.

(** The mitochondrial flag is case-sensitive.  On a matrix in which no
    gene symbol starts with the lower-case [mt-], as with human symbols
    ([MT-CO1]), every cell that the quality control returns has a
    mitochondrial percentage of zero, and the mitochondrial subset
    removes no cell: the cells returned are those that pass the cell
    filter and the two tests on the number of genes. *)
Theorem mito_flag_is_case_sensitive (adata out : AnnData) :
  nonnegative adata →
  Forall (λ name, String.prefix "mt-" name = false) (var_names adata) →
  BasicFiltering_qc adata = Ok out →
  Forall (λ c, ∃ m, annot c !! "pct_counts_mt" = Some (Num m) ∧ (m == 0)%Q) (obs out) ∧
  obs_names out
  = barcode <$> filter (λ c, gene_count_in_range c = true)
                       (obs (filter_cells 200 (filter_genes 3 adata))).
Proof.
  intros Hnn Hsym Hrun.
  destruct (BasicFiltering_qc_flags adata) as (out' & Hrun' & Hobs).
  rewrite Hrun in Hrun'. injection Hrun' as <-.
  set (kept := filter_cells 200 (filter_genes 3 adata)) in *.
  assert (Forall (λ b, b = false) (prefix_flags ["mt-"] kept)) as Hnone.
  { unfold prefix_flags. apply Forall_fmap, Forall_forall. intros name Hname. simpl.
    apply (filter_genes_symbols 3 adata) in Hname.
    rewrite Forall_forall in Hsym. by rewrite (Hsym name Hname). }
  set (D := describe_obs [("mt", prefix_flags ["mt-"] kept);
                          ("ribo", prefix_flags ["Rps"; "Rpl"] kept)]) in *.
  assert (∀ c1, c1 ∈ obs kept →
            ∃ m, annot (D c1) !! "pct_counts_mt" = Some (Num m) ∧ (m == 0)%Q) as Hzero.
  { intros c1 Hc1. destruct (kept_cells_total adata c1 Hnn Hc1) as [_ Htotal].
    unfold D. rewrite describe_obs_pct_counts_mt, Qsum_no_flag by done.
    unfold float_div. destruct (Qeq_bool (Qsum (counts c1)) 0) eqn:Hz.
    { apply Qeq_bool_eq in Hz. rewrite Hz in Htotal. by apply Qlt_irrefl in Htotal. }
    simpl. eexists. split; [reflexivity|]. field. lra. }
  split.
  - rewrite Hobs. do 3 apply Forall_on_filter.
    apply Forall_fmap, Forall_forall. intros c1 Hc1. by apply Hzero.
  - unfold obs_names. rewrite Hobs, !list_filter_filter, filter_fmap, <- list_fmap_compose.
    rewrite (filter_ext_in _ (λ c, gene_count_in_range c = true)).
    + apply list_fmap_ext. intros i c _. exact (proj1 (describe_obs_row _ c)).
    + intros c1 Hc1. fold D. unfold gene_count_in_range. simpl.
      unfold D at 2 3. rewrite cell_lt_n_genes, cell_gt_n_genes.
      destruct (Hzero c1 Hc1) as (m & Hm & Hm0).
      rewrite (cell_lt_Num "pct_counts_mt" 10 m (D c1) Hm).
      rewrite andb_true_iff. split.
      * intros [[_ [= ->]] [= ->]]. done.
      * intros [-> ->]. split; [split; [lra|done]|done].
Qed.

Lemma human_sample_qc :
  obs_names <$> BasicFiltering_qc human_sample = Ok ["AAAC"; "AAAG"; "AACA"].
Proof. vm_compute. reflexivity. Qed.

Lemma human_sample_symbols :
  Forall (λ name, String.prefix "mt-" name = false) (var_names human_sample).
Proof.
  apply Forall_forall. intros name Hname.
  assert (forallb (λ name, negb (String.prefix "mt-" name)) (var_names human_sample) = true)
    as Hall by (vm_compute; reflexivity).
  rewrite forallb_forall in Hall. apply list_elem_of_In in Hname.
  by apply negb_true_iff, Hall.
Qed.

Lemma mito_flag_is_case_sensitive_witness :
  ∃ out, BasicFiltering_qc human_sample = Ok out ∧
         obs_names out = ["AAAC"; "AAAG"; "AACA"] ∧
         Forall (λ c, ∃ m, annot c !! "pct_counts_mt" = Some (Num m) ∧ (m == 0)%Q) (obs out).
Proof.
  pose proof human_sample_qc as Hrun.
  destruct (BasicFiltering_qc human_sample) as [out|e] eqn:H; [|discriminate Hrun].
  injection Hrun as Hnames.
  exists out. split; [reflexivity|]. split; [exact Hnames|].
  apply (mito_flag_is_case_sensitive human_sample out dense_sample_nonnegative
           human_sample_symbols H).
Defined.
